(** * OpenAlex preprint-server collector: the fetch / aggregate / export core

    A shallow embedding of [openalex_preprints.py]: the retrying HTTP
    client [api_get], the JSON flattener [flatten_json], the year-month
    normaliser [iso_to_year_month] and the data path of
    [build_zip_from_selection] (selection de-duplication, yearly and monthly
    buckets, the monthly wide table).

    Conventions.
    - A Python [str] is a [string] whose characters are read as the code
      points 0..255.
    - A Python [float] is the rational it denotes, and a product of
      floats is rounded as the interpreter rounds it ([Float64]).
    - A Python exception is a value of [exn]; a call that may raise returns
      a [result]. [Unfinished] is not a Python exception: it marks an
      unfolding of [while True] that ran out of turns.
    - The network, [time.sleep] and the request log are explicit state
      ([world]); the Streamlit widgets, the log boxes and the timing
      counters of the original do not influence any value modelled here
      and are left out.
    - The parts of the page around the build (the names typed or
      uploaded, the header of [servers.csv], the yearly table, the topic
      columns, the rolling logs) are modelled on their own, as functions
      of the values they read. *)

From Stdlib Require Import ZArith String Ascii List Bool Lia QArith Lqa DecimalString.
From Stdlib Require Import Qpower Qabs Qround.
From stdpp Require Import gmap strings list sorting.

#[local] Set Warnings "-clear-no-such-hyp".

Local Open Scope string_scope.
Local Open Scope list_scope.
Local Open Scope Z_scope.

(** ** Exceptions and results *)

Inductive exn : Type :=
| ValueError (msg : string)
| UnboundLocalError (var : string)
| HTTPError (status : Z)
| ConnectionError
| Timeout
| JSONDecodeError
| Unfinished.

Inductive result (A : Type) : Type :=
| Ok (a : A)
| Raise (e : exn).

Arguments Ok {A} a.
Arguments Raise {A} e.

Global Instance result_ret : MRet result := fun A a => Ok a.

Global Instance result_bind : MBind result := fun A B k r =>
  match r with
  | Ok a => k a
  | Raise e => Raise e
  end.

Definition is_ok {A} (r : result A) : bool :=
  match r with Ok _ => true | Raise _ => false end.

(** ** Python string primitives *)

Module Py.

Definition code (c : ascii) : nat := nat_of_ascii c.

Definition between (lo hi : nat) (c : ascii) : bool :=
  (Nat.leb lo (code c)) && (Nat.leb (code c) hi).

(** Decimal digits ['0'..'9']: the only characters below 256 that
    [int()] reads as digits. *)
Definition is_decimal (c : ascii) : bool := between 48 57 c.

(** [str.isdigit] is also true of the superscripts U+00B2, U+00B3 and
    U+00B9. *)
Definition is_digit_char (c : ascii) : bool :=
  is_decimal c || Nat.eqb (code c) 178 || Nat.eqb (code c) 179
  || Nat.eqb (code c) 185.

(** The white space [int()] skips at both ends: TAB, LF, VT, FF, CR,
    SPACE, NEL (U+0085) and NBSP (U+00A0). *)
Definition is_int_space (c : ascii) : bool :=
  between 9 13 c || Nat.eqb (code c) 32 || Nat.eqb (code c) 133
  || Nat.eqb (code c) 160.

Definition is_empty (s : string) : bool :=
  match s with EmptyString => true | String _ _ => false end.

Fixpoint all_chars (p : ascii -> bool) (s : string) : bool :=
  match s with
  | EmptyString => true
  | String c s' => p c && all_chars p s'
  end.

(** [s.isdigit()]: at least one character, all of them digits. *)
Definition isdigit (s : string) : bool :=
  negb (is_empty s) && all_chars is_digit_char s.

(** [s.split(sep)] for a one-character separator. *)
Fixpoint split (sep : ascii) (s : string) : list string :=
  match s with
  | EmptyString => [EmptyString]
  | String c s' =>
      if Ascii.eqb c sep then EmptyString :: split sep s'
      else match split sep s' with
           | [] => [String c EmptyString]
           | p :: ps => String c p :: ps
           end
  end.

Fixpoint lstrip (p : ascii -> bool) (s : string) : string :=
  match s with
  | EmptyString => EmptyString
  | String c s' => if p c then lstrip p s' else s
  end.

Fixpoint rstrip (p : ascii -> bool) (s : string) : string :=
  match s with
  | EmptyString => EmptyString
  | String c s' =>
      let r := rstrip p s' in
      if p c && is_empty r then EmptyString else String c r
  end.

Definition digit_value (c : ascii) : Z := Z.of_nat (code c) - 48.

(** The digit part of an integer literal: digits, with single
    underscores allowed between two digits. *)
Fixpoint int_digits (s : string) (prev_digit : bool) (acc : Z) : option Z :=
  match s with
  | EmptyString => if prev_digit then Some acc else None
  | String c s' =>
      if is_decimal c then int_digits s' true (10 * acc + digit_value c)
      else if Ascii.eqb c "_"
           then (if prev_digit then int_digits s' false acc else None)
           else None
  end.

(** The [ValueError] of [int()]. The interpreter words it in two ways, for
    a string that is no literal and for a literal with too many digits;
    the program reads neither message, and both are this exception. *)
Definition int_error : exn :=
  ValueError "invalid literal for int() with base 10".

(** The most digits [int()] converts: the default of
    [sys.get_int_max_str_digits()] since Python 3.11. *)
Definition max_str_digits : nat := 4300.

(** The digits the limit counts: those of the digit part, leading zeros
    included, underscores left out. *)
Fixpoint count_digits (s : string) : nat :=
  match s with
  | EmptyString => O
  | String c s' =>
      if is_decimal c then S (count_digits s') else count_digits s'
  end.

(** [int(s)] for a string [s]: white space stripped at both ends, an
    optional sign, then the digit part, of at most [max_str_digits]
    digits. *)
Definition int (s : string) : result Z :=
  let body := rstrip is_int_space (lstrip is_int_space s) in
  let '(neg, ds) :=
    match body with
    | String c rest =>
        if Ascii.eqb c "-" then (true, rest)
        else if Ascii.eqb c "+" then (false, rest)
        else (false, body)
    | EmptyString => (false, body)
    end in
  match int_digits ds false 0 with
  | Some v =>
      if Nat.leb (count_digits ds) max_str_digits
      then Ok (if neg then - v else v)
      else Raise int_error
  | None => Raise int_error
  end.

Definition decimal (n : N) : string :=
  NilZero.string_of_uint (N.to_uint n).

Fixpoint zeros (n : nat) : string :=
  match n with
  | O => EmptyString
  | S n' => String "0" (zeros n')
  end.

(** [format(z, "0<width>d")]: sign first, then zeros up to the width. *)
Definition format_0d (width : nat) (z : Z) : string :=
  let sign := if z <? 0 then "-" else "" in
  let ds := decimal (Z.to_N (Z.abs z)) in
  sign +:+ zeros (width - String.length sign - String.length ds) +:+ ds.

(** [str(z)] for an integer. *)
Definition str_int (z : Z) : string := format_0d 0 z.

(** [c in s] for a one-character string [c]. *)
Fixpoint contains (c : ascii) (s : string) : bool :=
  match s with
  | EmptyString => false
  | String d s' => Ascii.eqb c d || contains c s'
  end.

(** [sep.join(parts)]. *)
Fixpoint join (sep : string) (parts : list string) : string :=
  match parts with
  | [] => EmptyString
  | [p] => p
  | p :: ps => p +:+ sep +:+ join sep ps
  end.

Fixpoint replace_go (old new : string) (skip : nat) (s : string) : string :=
  match s with
  | EmptyString => EmptyString
  | String c s' =>
      match skip with
      | S k => replace_go old new k s'
      | O =>
          if String.prefix old s
          then new +:+ replace_go old new (String.length old - 1) s'
          else String c (replace_go old new 0 s')
      end
  end.

Fixpoint intersperse (new : string) (s : string) : string :=
  match s with
  | EmptyString => new
  | String c s' => new +:+ String c (intersperse new s')
  end.

(** [s.replace(old, new)]: every non-overlapping occurrence, scanning
    from the left. *)
Definition replace (old new s : string) : string :=
  if is_empty old then intersperse new s else replace_go old new 0 s.

Definition hex_digit (n : nat) : ascii :=
  if Nat.ltb n 10 then ascii_of_nat (48 + n) else ascii_of_nat (55 + n).

Definition percent (byte : nat) : string :=
  String "%" (String (hex_digit (Nat.div byte 16))
                     (String (hex_digit (Nat.modulo byte 16)) EmptyString)).

(** Characters [urllib.parse.quote] never escapes, with its default
    [safe="/"]. *)
Definition quote_safe (c : ascii) : bool :=
  between 65 90 c || between 97 122 c || between 48 57 c
  || Ascii.eqb c "_" || Ascii.eqb c "." || Ascii.eqb c "-"
  || Ascii.eqb c "~" || Ascii.eqb c "/".

(** [urllib.parse.quote(s)]: the UTF-8 bytes of [s], percent-escaped
    unless safe. A code point from 128 to 255 takes two bytes. *)
Fixpoint quote (s : string) : string :=
  match s with
  | EmptyString => EmptyString
  | String c s' =>
      (if quote_safe c then String c EmptyString
       else if Nat.ltb (code c) 128 then percent (code c)
       else percent (192 + Nat.div (code c) 64)
            +:+ percent (128 + Nat.modulo (code c) 64))
      +:+ quote s'
  end.

End Py.

(** ** Year-month keys *)

Record datetime : Type := mk_datetime
  { dt_year : Z; dt_month : Z; dt_day : Z }.

Section YearMonth.

(** [datetime.fromisoformat], a function of the Python runtime whose
    accepted grammar depends on the interpreter version: [None] stands
    for the exception it raises on a string it rejects. *)
Variable fromisoformat : string -> option datetime.

Definition year_month_key (y m : Z) : string :=
  Py.format_0d 4 y +:+ "-" +:+ Py.format_0d 2 m.

(** [iso_to_year_month(iso_date)]: [Ok None] is the Python [None]. *)
Definition iso_to_year_month (iso_date : option string)
  : result (option string) :=
  match iso_date with
  | None => Ok None
  | Some s =>
      if Py.is_empty s then Ok None
      else
        match fromisoformat s with
        | Some dt => Ok (Some (year_month_key (dt_year dt) (dt_month dt)))
        | None =>
            match Py.split "-" s with
            | [y; m] =>
                yi ← Py.int y;
                mi ← Py.int m;
                Ok (Some (year_month_key yi mi))
            | [p] =>
                if Py.isdigit p
                then (yi ← Py.int p;
                      Ok (Some (Py.format_0d 4 yi +:+ "-01")))
                else Ok None
            | _ => Ok None
            end
        end
  end.

End YearMonth.

(** The calendar-date form [YYYY-MM-DD] that every interpreter version
    accepts, with the constructor's range checks (year 1..9999, month
    1..12, day within the month). Strings of other shapes are rejected by
    this instance; it serves as the parser of the sample runs. *)
Module IsoDate.

Definition is_leap (y : Z) : bool :=
  (y mod 4 =? 0) && (negb (y mod 100 =? 0) || (y mod 400 =? 0)).

Definition days_in_month (y m : Z) : Z :=
  if m =? 2 then (if is_leap y then 29 else 28)
  else if (m =? 4) || (m =? 6) || (m =? 9) || (m =? 11) then 30
  else 31.

Fixpoint fixed_digits (n : nat) (s : string) (acc : Z)
  : option (Z * string) :=
  match n with
  | O => Some (acc, s)
  | S n' =>
      match s with
      | String c s' =>
          if Py.is_decimal c
          then fixed_digits n' s' (10 * acc + Py.digit_value c)
          else None
      | EmptyString => None
      end
  end.

Definition dash (s : string) : option string :=
  match s with
  | String c s' => if Ascii.eqb c "-" then Some s' else None
  | EmptyString => None
  end.

Definition fromisoformat (s : string) : option datetime :=
  match fixed_digits 4 s 0 with
  | Some (y, s1) =>
    match dash s1 with
    | Some s2 =>
      match fixed_digits 2 s2 0 with
      | Some (m, s3) =>
        match dash s3 with
        | Some s4 =>
          match fixed_digits 2 s4 0 with
          | Some (d, EmptyString) =>
              if (1 <=? y) && (y <=? 9999) && (1 <=? m) && (m <=? 12)
                 && (1 <=? d) && (d <=? days_in_month y m)
              then Some (mk_datetime y m d)
              else None
          | _ => None
          end
        | None => None
        end
      | None => None
      end
    | None => None
    end
  | None => None
  end.

End IsoDate.

(** ** The records the API returns

    Records are typed by the fields the program reads from them. A count
    is [None] when the field is absent or [null]. *)

(** The ["year"] field of a yearly snapshot entry, before [str()]. *)
Inductive year_field : Type :=
| YearMissing
| YearNull
| YearInt (z : Z)
| YearStr (s : string).

Record count_row : Type := mk_count_row
  { row_year : year_field;
    row_works_count : option Z;
    row_cited_by_count : option Z }.

Record source_record : Type := mk_source
  { src_id : option string;
    src_display_name : string;
    src_counts_by_year : list count_row }.

Record work : Type := mk_work
  { publication_date : option string;
    cited_by_count : option Z }.

Record works_page : Type := mk_page
  { page_results : list work;
    next_cursor : option string }.

Inductive payload : Type :=
| SourceDoc (s : source_record)
| WorksDoc (p : works_page).

(** Reading a document through [dict.get] with defaults: a document of
    the other kind has none of the keys. *)
Definition as_source (p : payload) : source_record :=
  match p with
  | SourceDoc s => s
  | WorksDoc _ => mk_source None "" []
  end.

Definition as_works_page (p : payload) : works_page :=
  match p with
  | WorksDoc pg => pg
  | SourceDoc _ => mk_page [] None
  end.

(** ** Products of floats

    A Python [float] is a binary64 number, written here as the rational
    it denotes; the product of two floats is the binary64 number nearest
    to the exact product. *)

Module Float64.

(** The integer nearest to [q], the even one of two equally near. *)
Definition nearest_even (q : Q) : Z :=
  let k := Qfloor q in
  match (q - inject_Z k ?= 1 # 2)%Q with
  | Lt => k
  | Gt => k + 1
  | Eq => if Z.even k then k else k + 1
  end.

(** [floor (log2 q)] of a positive [q]: the two logarithms put it at [e]
    or just below. *)
Definition log2_floor (q : Q) : Z :=
  let e := Z.log2 (Qnum q) - Z.log2 (Zpos (Qden q)) in
  if Qle_bool (2 ^ e) q then e else e - 1.

(** The exponent of the last of the 53 significant bits of the binary64
    numbers around [q]; it does not go below -1074, where the subnormal
    numbers are. *)
Definition ulp_exponent (q : Q) : Z :=
  Z.max (log2_floor (Qabs q) - 52) (-1074).

(** Rounding to the nearest binary64 number, ties to the even
    significand. The overflow to infinity, from 2^1024 on, is left out:
    [time.sleep] refuses durations far below that. *)
Definition round (q : Q) : Q :=
  if Qeq_bool q 0 then 0%Q
  else
    let e := ulp_exponent q in
    Qred (inject_Z (nearest_even (q * 2 ^ (- e))%Q) * 2 ^ e)%Q.

(** [x * y] on floats. *)
Definition mul (x y : Q) : Q := round (x * y)%Q.

(** The float the literal [1.6] denotes: [0x1.999999999999ap+0]. *)
Definition one_point_six : Q := 3602879701896397 # 2251799813685248.

(** The least positive binary64 number. *)
Definition least_positive : Q := (2 ^ (-1074))%Q.

End Float64.

(** ** The network and the clock *)

Record response : Type := mk_response
  { status_code : Z;
    body : option payload }.

Inductive transport_error : Type := ConnectFailed | TimedOut.

Definition transport_exn (e : transport_error) : exn :=
  match e with
  | ConnectFailed => ConnectionError
  | TimedOut => Timeout
  end.

(** What the next [requests.get] does: answer, or fail in transport. *)
Inductive outcome : Type :=
| Respond (r : response)
| Fail (e : transport_error).

(** The two [time.sleep] call sites of [api_get]. *)
Inductive sleep_kind : Type := Polite | Backoff.

Inductive event : Type :=
| Request (url : string)
| Sleep (k : sleep_kind) (d : Q).

(** [pending] scripts the outcomes of the requests still to come, in
    order; once it is used up the connection fails. [trace] records the
    requests and sleeps performed so far, oldest first. A duration is the
    rational that the float denotes. *)
Record world : Type := mk_world
  { pending : list outcome;
    trace : list event }.

Definition M (A : Type) : Type := world -> result A * world.

Global Instance M_ret : MRet M := fun A a w => (Ok a, w).

Global Instance M_bind : MBind M := fun A B k m w =>
  match m w with
  | (Ok a, w') => k a w'
  | (Raise e, w') => (Raise e, w')
  end.

Definition raise {A} (e : exn) : M A := fun w => (Raise e, w).

Definition lift {A} (r : result A) : M A := fun w => (r, w).

Definition log (e : event) : M unit :=
  fun w => (Ok tt, mk_world (pending w) (trace w ++ [e])).

Definition next_outcome : M response :=
  fun w =>
    match pending w with
    | [] => (Raise ConnectionError, w)
    | Respond r :: rest => (Ok r, mk_world rest (trace w))
    | Fail e :: rest => (Raise (transport_exn e), mk_world rest (trace w))
    end.

Definition requests_get (url : string) : M response :=
  log (Request url) ;; next_outcome.

Definition Qltb (a b : Q) : bool := negb (Qle_bool b a).

(** [time.sleep(d)] refuses a negative duration. Its [OverflowError],
    for a duration of centuries, is left out. *)
Definition time_sleep (k : sleep_kind) (d : Q) : M unit :=
  if Qltb d 0 then raise (ValueError "sleep length must be non-negative")
  else log (Sleep k d).

(** ** The HTTP client *)

Definition retryable (status : Z) : bool :=
  (status =? 429) || (status =? 500) || (status =? 502)
  || (status =? 503) || (status =? 504).

(** [Response.raise_for_status]: raises for 4xx and 5xx only. *)
Definition raise_for_status (r : response) : M unit :=
  if (400 <=? status_code r) && (status_code r <? 600)
  then raise (HTTPError (status_code r))
  else mret tt.

(** The [for _ in range(max_retries)] loop with the statements after it.
    [r] is the local variable of that name: [None] while unbound;
    [sleep_s] and [backoff] are floats, and [backoff *= 1.6] is the
    product of floats. *)
Fixpoint api_get_loop (n : nat) (url : string) (sleep_s backoff : Q)
    (r : option response) : M response :=
  match n with
  | O =>
      match r with
      | None => raise (UnboundLocalError "r")
      | Some r => raise_for_status r ;; mret r
      end
  | S n' =>
      r ← requests_get url;
      if status_code r =? 200 then
        (if Qltb 0 sleep_s then time_sleep Polite sleep_s else mret tt) ;;
        mret r
      else if retryable (status_code r) then
        time_sleep Backoff backoff ;;
        api_get_loop n' url sleep_s
          (Float64.mul backoff Float64.one_point_six) (Some r)
      else
        raise_for_status r ;;
        api_get_loop n' url sleep_s backoff (Some r)
  end.

Definition with_mailto (url : string) (mailto : option string) : string :=
  match mailto with
  | Some m =>
      if Py.is_empty m then url
      else url +:+ (if Py.contains "?" url then "&" else "?")
               +:+ "mailto=" +:+ Py.quote m
  | None => url
  end.

Definition api_get (url : string) (sleep_s : Q) (max_retries : Z)
    (mailto : option string) : M response :=
  api_get_loop (Z.to_nat max_retries) (with_mailto url mailto)
    sleep_s sleep_s None.

Definition default_max_retries : Z := 5.

(** [Response.json]. *)
Definition response_json (r : response) : M payload :=
  match body r with
  | Some p => mret p
  | None => raise JSONDecodeError
  end.

Definition OPENALEX_BASE : string := "https://api.openalex.org".

Definition fetch_source (sid : string) (sleep_s : Q)
    (mailto : option string) : M source_record :=
  r ← api_get (OPENALEX_BASE +:+ "/sources/" +:+ sid) sleep_s
        default_max_retries mailto;
  p ← response_json r;
  mret (as_source p).

(** ** Accumulators *)

(** One [{"works_count": _, "cited_by_count": _}] cell. *)
Record bucket : Type := mk_bucket
  { b_works_count : Z;
    b_cited_by_count : Z }.

Definition zero_bucket : bucket := mk_bucket 0 0.

Definition set_works_count (v : Z) (b : bucket) : bucket :=
  mk_bucket v (b_cited_by_count b).

Definition set_cited_by_count (v : Z) (b : bucket) : bucket :=
  mk_bucket (b_works_count b) v.

(** A Python dict whose iteration order is observed: an association list
    in insertion order, with at most one entry per key. *)
Module ODict.
Section Ops.
Context {V : Type}.

Fixpoint get (k : string) (d : list (string * V)) : option V :=
  match d with
  | [] => None
  | (k', v) :: d' => if String.eqb k k' then Some v else get k d'
  end.

(** [d.setdefault(k, dflt)] followed by the in-place update [f] of
    [d[k]]. *)
Fixpoint upsert (k : string) (dflt : V) (f : V -> V)
    (d : list (string * V)) : list (string * V) :=
  match d with
  | [] => [(k, f dflt)]
  | (k', v) :: d' =>
      if String.eqb k k' then (k', f v) :: d'
      else (k', v) :: upsert k dflt f d'
  end.
End Ops.
End ODict.

(** [m.setdefault(k, dflt)] on an inner map. *)
Definition setdefault (k : string) (dflt : bucket)
    (m : gmap string bucket) : gmap string bucket :=
  match m !! k with
  | Some _ => m
  | None => <[k := dflt]> m
  end.

Record accumulators : Type := mk_acc
  { yearly_data : list (string * gmap string bucket);
    monthly_data : list (string * gmap string bucket);
    sid_to_name : gmap string string;
    years_seen : gset string;
    months_seen : gset string }.

Definition empty_acc : accumulators := mk_acc [] [] ∅ ∅ ∅.

(** The counters of the (source, key) bucket, if there is one. *)
Definition bucket_at (data : list (string * gmap string bucket))
    (source_id key : string) : option bucket :=
  m ← ODict.get source_id data; m !! key.

(** *** Yearly buckets *)

(** [str(row.get("year", ""))]. *)
Definition str_year (y : year_field) : string :=
  match y with
  | YearMissing => ""
  | YearNull => "None"
  | YearInt z => Py.str_int z
  | YearStr s => s
  end.

(** [int(x or 0)] for a count that is an integer, [null] or absent. *)
Definition int_or_0 (x : option Z) : Z := default 0 x.

(** The three statements that write one yearly cell. *)
Definition write_year (y : string) (wc cb : Z)
    (year_map : gmap string bucket) : gmap string bucket :=
  alter (set_cited_by_count cb) y
    (alter (set_works_count wc) y (setdefault y zero_bucket year_map)).

Definition yearly_row (source_id : string) (a : accumulators)
    (row : count_row) : accumulators :=
  let y := str_year (row_year row) in
  if Py.isdigit y then
    mk_acc
      (ODict.upsert source_id ∅
         (write_year y (int_or_0 (row_works_count row))
                       (int_or_0 (row_cited_by_count row)))
         (yearly_data a))
      (monthly_data a) (sid_to_name a)
      ({[ y ]} ∪ years_seen a) (months_seen a)
  else a.

(** The [for row in cby] loop. *)
Definition yearly_update (source_id : string) (rows : list count_row)
    (a : accumulators) : accumulators :=
  fold_left (yearly_row source_id) rows a.

(** *** Monthly buckets *)

Definition bump (c : Z) (b : bucket) : bucket :=
  mk_bucket (b_works_count b + 1) (b_cited_by_count b + c).

(** [for x in xs: <body>], with the state of the loop passed along,
    stopping at the first exception. *)
Fixpoint for_each {A X : Type} (body : A -> X -> result A) (xs : list X)
    (a : A) : result A :=
  match xs with
  | [] => Ok a
  | x :: xs' =>
      a' ← body a x;
      for_each body xs' a'
  end.

Section Build.

Variable fromisoformat : string -> option datetime.

(** The body of the [for w in iter_works_for_source(...)] loop. *)
Definition monthly_step (source_id : string) (a : accumulators)
    (w : work) : result accumulators :=
  ym ← iso_to_year_month fromisoformat (publication_date w);
  match ym with
  | None => Ok a
  | Some k =>
      if Py.is_empty k then Ok a
      else
        Ok (mk_acc (yearly_data a)
              (ODict.upsert source_id ∅
                 (fun month_map =>
                    alter (bump (int_or_0 (cited_by_count w))) k
                      (setdefault k zero_bucket month_map))
                 (monthly_data a))
              (sid_to_name a) (years_seen a)
              ({[ k ]} ∪ months_seen a))
  end.

(** The monthly loop over a list of streamed works. *)
Definition monthly_works (source_id : string) (ws : list work)
    (a : accumulators) : result accumulators :=
  for_each (monthly_step source_id) ws a.

(** *** The paginated work iterator *)

Definition truthy (s : option string) : option string :=
  match s with
  | Some x => if Py.is_empty x then None else Some x
  | None => None
  end.

Definition works_filters (sid : string) (date_from date_to : option string)
    (use_primary_location use_host_venue : bool) : list string :=
  (if use_primary_location
   then ["primary_location.source.id:" +:+ sid] else [])
  ++ (if use_host_venue then ["host_venue.id:" +:+ sid] else [])
  ++ match truthy date_from with
     | Some d => ["from_publication_date:" +:+ d] | None => [] end
  ++ match truthy date_to with
     | Some d => ["to_publication_date:" +:+ d] | None => [] end.

Definition works_base_url (sid : string) (date_from date_to : option string)
    (select_fields : string)
    (use_primary_location use_host_venue : bool) : string :=
  let filter_str :=
    Py.join "," (works_filters sid date_from date_to
                   use_primary_location use_host_venue) in
  let u0 := OPENALEX_BASE +:+ "/works?per-page=200&cursor=*" in
  let u1 := if Py.is_empty filter_str then u0
            else u0 +:+ "&filter=" +:+ Py.quote filter_str in
  if Py.is_empty select_fields then u1
  else u1 +:+ "&select=" +:+ Py.quote select_fields.

(** The [while True] loop of [iter_works_for_source], together with the
    [for] loop that consumes the generator: [body] is the body of that
    loop and [a] its state. The generator is lazy, so the works of a page
    go through [body] before the next page is requested, and an exception
    in [body] stops the paging. [fuel] bounds the turns of [while True];
    every turn uses up at least one scripted outcome, so the bound chosen
    by [iter_works_for_source] is never reached. *)
Fixpoint iter_pages {A : Type} (fuel : nat) (base_url next_url : string)
    (sleep_s : Q) (mailto : option string)
    (body : A -> work -> result A) (a : A) : M A :=
  match fuel with
  | O => raise Unfinished
  | S fuel' =>
      r ← api_get next_url sleep_s default_max_retries mailto;
      p ← response_json r;
      let data := as_works_page p in
      a' ← lift (for_each body (page_results data) a);
      match truthy (next_cursor data) with
      | None => mret a'
      | Some nxt =>
          iter_pages fuel' base_url
            (Py.replace "cursor=*" ("cursor=" +:+ Py.quote nxt) base_url)
            sleep_s mailto body a'
      end
  end.

(** [for w in iter_works_for_source(sid, ...): <body>]. *)
Definition iter_works_for_source {A : Type} (sid : string)
    (date_from date_to : option string) (sleep_s : Q)
    (mailto : option string) (select_fields : string)
    (use_primary_location use_host_venue : bool)
    (body : A -> work -> result A) (a : A) : M A :=
  let base_url :=
    works_base_url sid date_from date_to select_fields
      use_primary_location use_host_venue in
  fun w =>
    iter_pages (S (length (pending w))) base_url base_url
      sleep_s mailto body a w.

(** *** Selection *)

(** [[x for x in xs if x and not (x in seen or seen.add(x))]]. *)
Fixpoint dedup (seen : gset string) (xs : list string) : list string :=
  match xs with
  | [] => []
  | x :: xs' =>
      if Py.is_empty x then dedup seen xs'
      else if bool_decide (x ∈ seen) then dedup seen xs'
      else x :: dedup ({[ x ]} ∪ seen) xs'
  end.

(** The values of the selection mapping, concatenated in its order. *)
Definition flattened (selections_map : list (string * list string))
  : list string :=
  concat (map snd selections_map).

Definition chosen_sids (selections_map : list (string * list string))
  : list string :=
  dedup ∅ (flattened selections_map).

(** *** The monthly wide table *)

Inductive cell : Type :=
| CStr (s : string)
| CInt (z : Z).

Record table : Type := mk_table
  { columns : list string;
    rows : list (list cell) }.

Definition key_columns : list string :=
  ["source_id"; "display_name"; "metric"].

Definition months_sorted (a : accumulators) : list string :=
  merge_sort String.le (elements (months_seen a)).

Definition metric_row (a : accumulators) (months : list string)
    (metric : string) (field : bucket -> Z)
    (entry : string * gmap string bucket) : list cell :=
  let '(sid, month_map) := entry in
  [CStr sid; CStr (default "" (sid_to_name a !! sid)); CStr metric]
  ++ map (fun m => CInt (default 0 (field <$> month_map !! m))) months.

Definition monthly_rows (a : accumulators) (months : list string)
  : list (list cell) :=
  flat_map
    (fun entry =>
       [metric_row a months "works_count" b_works_count entry;
        metric_row a months "cited_by_count" b_cited_by_count entry])
    (monthly_data a).

Definition wide_table (a : accumulators) : table :=
  mk_table (key_columns ++ months_sorted a)
           (monthly_rows a (months_sorted a)).

Definition placeholder_table : table :=
  mk_table (key_columns ++ ["note"])
    [[CStr ""; CStr ""; CStr "info";
      CStr "Monthly aggregation disabled in app."]].

(** [if monthly_enabled and months_seen: ... else: ...]. *)
Definition monthly_table (monthly_enabled : bool) (a : accumulators)
  : table :=
  if monthly_enabled && negb (bool_decide (months_seen a = ∅))
  then wide_table a
  else placeholder_table.

(** *** The build *)

Definition source_id_of (src : source_record) : string :=
  Py.replace "https://openalex.org/" "" (default "" (src_id src)).

Record build_output : Type := mk_output
  { selected_source_ids : list string;
    final : accumulators;
    monthly_df : table }.

Section Run.

Variables (sleep_s : Q) (mailto : option string)
          (date_from date_to : option string)
          (use_primary_location use_host_venue monthly_enabled : bool).

(** One turn of [for sid in chosen_sids]. *)
Definition process_source (a : accumulators) (sid : string)
  : M accumulators :=
  src ← fetch_source sid sleep_s mailto;
  let source_id := source_id_of src in
  let a1 :=
    mk_acc (yearly_data a) (monthly_data a)
      (<[source_id := src_display_name src]> (sid_to_name a))
      (years_seen a) (months_seen a) in
  let a2 := yearly_update source_id (src_counts_by_year src) a1 in
  if monthly_enabled
  then iter_works_for_source source_id (truthy date_from) (truthy date_to)
         sleep_s mailto "publication_date,cited_by_count"
         use_primary_location use_host_venue
         (monthly_step source_id) a2
  else mret a2.

Fixpoint process_all (sids : list string) (a : accumulators)
  : M accumulators :=
  match sids with
  | [] => mret a
  | sid :: sids' =>
      a' ← process_source a sid;
      process_all sids' a'
  end.

(** [sorted(years_seen, key=lambda x: int(x))] converts every year
    string; the order of the yearly columns is not modelled. *)
Definition years_keys (a : accumulators) : result (list Z) :=
  mapM Py.int (elements (years_seen a)).

(** [build_zip_from_selection]: the selection, the loop over the chosen
    sources and the monthly table. The rows of [servers.csv], the yearly
    wide table and the archive bytes are further views of the same
    records and accumulators; they feed nothing back into the values kept
    here. *)
Definition build_zip_from_selection
    (selections_map : list (string * list string)) : M build_output :=
  let chosen := chosen_sids selections_map in
  match chosen with
  | [] => raise (ValueError "No sources selected.")
  | _ :: _ =>
      a ← process_all chosen empty_acc;
      _ ← lift (years_keys a);
      mret (mk_output chosen a (monthly_table monthly_enabled a))
  end.

End Run.

End Build.

(** ** Flattening a JSON record *)

Section Flatten.

(** Python floats, with their [str()]. *)
Variable float : Type.
Variable str_float : float -> string.

Unset Elimination Schemes.

(** A parsed JSON value. The members of an object are kept in the
    order in which [dict.items()] yields them. *)
Inductive json : Type :=
| JNull
| JBool (b : bool)
| JInt (z : Z)
| JFloat (f : float)
| JStr (s : string)
| JList (l : list json)
| JObj (kvs : list (string * json)).

Set Elimination Schemes.

(** [json.dumps(x, ensure_ascii=False)], of the Python library. *)
Variable json_dumps : json -> string.

Definition _stringify (x : json) : string :=
  match x with
  | JNull => ""
  | JStr s => s
  | JInt z => Py.str_int z
  | JFloat f => str_float f
  | JBool b => if b then "True" else "False"
  | JList _ | JObj _ => json_dumps x
  end.

Definition is_dict (v : json) : bool :=
  match v with JObj _ => true | _ => false end.

(** ["|".join(_stringify(el) for el in v)]. *)
Definition joined (l : list json) : string :=
  Py.join "|" (map _stringify l).

(** [f"{prefix}__{k}" if prefix else k]. *)
Definition child_key (prefix k : string) : string :=
  if Py.is_empty prefix then k else prefix +:+ "__" +:+ k.

(** [f"{key}_{i}"], in the branch for a member of an object. *)
Definition member_index_key (key : string) (i : nat) : string :=
  key +:+ "_" +:+ Py.str_int (Z.of_nat i).

(** [f"{prefix}_{i}" if prefix else str(i)], in the branch for a list. *)
Definition index_key (prefix : string) (i : nat) : string :=
  if Py.is_empty prefix then Py.str_int (Z.of_nat i)
  else prefix +:+ "_" +:+ Py.str_int (Z.of_nat i).

(** [prefix or "value"]. *)
Definition or_value (prefix : string) : string :=
  if Py.is_empty prefix then "value" else prefix.

(** [flatten_json(obj, prefix, out)]: [out] is the dict being filled,
    passed along and returned. *)
Fixpoint flatten_json (obj : json) (prefix : string)
    (out : gmap string string) {struct obj} : gmap string string :=
  match obj with
  | JObj kvs =>
      (fix items (kvs : list (string * json)) (out : gmap string string)
         : gmap string string :=
         match kvs with
         | [] => out
         | (k, v) :: kvs' =>
             let key := child_key prefix k in
             items kvs'
               match v with
               | JObj _ => flatten_json v key out
               | JList l =>
                   if forallb is_dict l then
                     (fix explode (i : nat) (els : list json)
                          (out : gmap string string) : gmap string string :=
                        match els with
                        | [] => out
                        | el :: els' =>
                            explode (S i) els'
                              (flatten_json el (member_index_key key i) out)
                        end) O l out
                   else <[key := joined l]> out
               | _ => <[key := _stringify v]> out
               end
         end) kvs out
  | JList l =>
      if forallb is_dict l then
        (fix explode (i : nat) (els : list json)
             (out : gmap string string) : gmap string string :=
           match els with
           | [] => out
           | el :: els' =>
               explode (S i) els'
                 (flatten_json el (index_key prefix i) out)
           end) O l out
      else <[or_value prefix := joined l]> out
  | _ => <[or_value prefix := _stringify obj]> out
  end.

(** The loops of [flatten_json], named, for stating its equations. *)
Fixpoint flatten_elements (name : nat -> string) (i : nat)
    (els : list json) (out : gmap string string) : gmap string string :=
  match els with
  | [] => out
  | el :: els' =>
      flatten_elements name (S i) els' (flatten_json el (name i) out)
  end.

(** The branch of the loop over [obj.items()] for a member value [v]
    whose column key is [key]. *)
Definition flatten_value (key : string) (v : json)
    (out : gmap string string) : gmap string string :=
  match v with
  | JObj _ => flatten_json v key out
  | JList l =>
      if forallb is_dict l
      then flatten_elements (member_index_key key) O l out
      else <[key := joined l]> out
  | _ => <[key := _stringify v]> out
  end.

Definition flatten_member (prefix : string) (out : gmap string string)
    (kv : string * json) : gmap string string :=
  flatten_value (child_key prefix kv.1) kv.2 out.

(** *** The leaves of a record, in the words of the specification

    [leaf obj prefix col txt]: the value [obj], reached under the column
    prefix [prefix], has a leaf (a scalar, or a list that is joined
    rather than exploded) whose column is [col] and whose text is
    [txt]. *)
Definition is_scalar (v : json) : bool :=
  match v with JList _ | JObj _ => false | _ => true end.

Inductive leaf : json -> string -> string -> string -> Prop :=
| leaf_scalar v prefix :
    is_scalar v = true ->
    leaf v prefix (or_value prefix) (_stringify v)
| leaf_joined l prefix :
    forallb is_dict l = false ->
    leaf (JList l) prefix (or_value prefix) (joined l)
| leaf_element l prefix i el col txt :
    forallb is_dict l = true ->
    l !! i = Some el ->
    leaf el (index_key prefix i) col txt ->
    leaf (JList l) prefix col txt
| leaf_member kvs prefix i k v col txt :
    kvs !! i = Some (k, v) ->
    member_leaf v (child_key prefix k) col txt ->
    leaf (JObj kvs) prefix col txt
with member_leaf : json -> string -> string -> string -> Prop :=
| member_scalar v key :
    is_scalar v = true ->
    member_leaf v key key (_stringify v)
| member_joined l key :
    forallb is_dict l = false ->
    member_leaf (JList l) key key (joined l)
| member_element l key i el col txt :
    forallb is_dict l = true ->
    l !! i = Some el ->
    leaf el (member_index_key key i) col txt ->
    member_leaf (JList l) key col txt
| member_object kvs key col txt :
    leaf (JObj kvs) key col txt ->
    member_leaf (JObj kvs) key col txt.

(** What flattening one value guarantees, whatever the dict it fills:
    a column that is set comes from the dict or from a leaf; columns are
    never removed; the column of every leaf is set. *)
Definition sound (v : json) : Prop :=
  forall prefix out col txt,
    flatten_json v prefix out !! col = Some txt ->
    out !! col = Some txt \/ leaf v prefix col txt.

Definition monotone (v : json) : Prop :=
  forall prefix out col,
    is_Some (out !! col) -> is_Some (flatten_json v prefix out !! col).

Definition complete (v : json) : Prop :=
  forall prefix out col txt,
    leaf v prefix col txt -> is_Some (flatten_json v prefix out !! col).

Definition member_sound (v : json) : Prop :=
  forall key out col txt,
    flatten_value key v out !! col = Some txt ->
    out !! col = Some txt \/ member_leaf v key col txt.

Definition member_monotone (v : json) : Prop :=
  forall key out col,
    is_Some (out !! col) -> is_Some (flatten_value key v out !! col).

Definition member_complete (v : json) : Prop :=
  forall key out col txt,
    member_leaf v key col txt -> is_Some (flatten_value key v out !! col).

Definition well_flattened (v : json) : Prop :=
  (sound v /\ monotone v /\ complete v)
  /\ (member_sound v /\ member_monotone v /\ member_complete v).

(** Induction over a JSON value and the values nested in it. *)
Fixpoint json_nested_ind (P : json -> Prop)
    (Hscalar : forall v, is_scalar v = true -> P v)
    (Hlist : forall l, Forall P l -> P (JList l))
    (Hobj : forall kvs, Forall (fun kv => P kv.2) kvs -> P (JObj kvs))
    (v : json) {struct v} : P v :=
  match v with
  | JList l =>
      Hlist l
        ((fix go (l : list json) : Forall P l :=
            match l with
            | [] => @List.Forall_nil _ P
            | x :: l' =>
                @List.Forall_cons _ P x l'
                  (json_nested_ind P Hscalar Hlist Hobj x) (go l')
            end) l)
  | JObj kvs =>
      Hobj kvs
        ((fix go (kvs : list (string * json))
            : Forall (fun kv => P kv.2) kvs :=
            match kvs with
            | [] => @List.Forall_nil _ _
            | kv :: kvs' =>
                @List.Forall_cons _ (fun kv => P kv.2) kv kvs'
                  (json_nested_ind P Hscalar Hlist Hobj kv.2) (go kvs')
            end) kvs)
  | v' => Hscalar v' eq_refl
  end.

End Flatten.

Arguments is_dict {float} v.
Arguments is_scalar {float} v.
Arguments JNull {float}.
Arguments JBool {float} b.
Arguments JInt {float} z.
Arguments JStr {float} s.
Arguments JList {float} l.
Arguments JObj {float} kvs.

(** ** Reading a trace *)

Fixpoint requests_in (tr : list event) : nat :=
  match tr with
  | [] => O
  | Request _ :: tr' => S (requests_in tr')
  | Sleep _ _ :: tr' => requests_in tr'
  end.


Definition status_only (status : Z) : outcome :=
  Respond (mk_response status None).

(** The value of a string of decimal digits. *)
Definition decimal_value (s : string) : Z :=
  fold_left (fun acc c => 10 * acc + Py.digit_value c)
    (list_ascii_of_string s) 0.

Definition all_decimal (s : string) : bool :=
  negb (Py.is_empty s) && Py.all_chars Py.is_decimal s.

Fixpoint ones (n : nat) : string :=
  match n with
  | O => EmptyString
  | S n' => String "1" (ones n')
  end.

(** A year of 4301 digits, one more than [int()] converts. *)
Definition long_year : string := ones (S Py.max_str_digits).

(** The one-character string of the superscript two (U+00B2): a digit
    for [str.isdigit], no integer literal for [int()]. *)
Definition superscript_two : string :=
  String (ascii_of_nat 178) EmptyString.

(** De-duplication that keeps the first occurrence of each element, in
    the words of the specification. *)
Fixpoint first_seen (xs : list string) : list string :=
  match xs with
  | [] => []
  | x :: xs' => x :: filter (fun y => y ≠ x) (first_seen xs')
  end.

Definition non_empty (xs : list string) : list string :=
  filter (fun x => x ≠ "") xs.

(** ** Yearly snapshots, in the words of the specification *)

(** The cell a snapshot entry stands for: its year string with the two
    snapshot values, when the year string is numeric. *)
Definition year_cell (row : count_row) : option (string * bucket) :=
  let y := str_year (row_year row) in
  if Py.isdigit y
  then Some (y, mk_bucket (int_or_0 (row_works_count row))
                          (int_or_0 (row_cited_by_count row)))
  else None.

Definition year_cells (rows : list count_row) : list (string * bucket) :=
  omap year_cell rows.

(** Overwriting a year map with a list of cells, in order. *)
Definition write_cells (cells : list (string * bucket))
    (m : gmap string bucket) : gmap string bucket :=
  fold_left (fun m c => <[c.1 := c.2]> m) cells m.

(** ** Monthly increments, in the words of the specification *)

(** One more work for month [k], with [c] citations. *)
Definition tick (k : string) (c : Z) (month_map : gmap string bucket)
  : gmap string bucket :=
  <[k := bump c (default zero_bucket (month_map !! k))]> month_map.

Definition add_work (source_id k : string) (c : Z) (a : accumulators)
  : accumulators :=
  mk_acc (yearly_data a)
    (ODict.upsert source_id ∅ (tick k c) (monthly_data a))
    (sid_to_name a) (years_seen a) ({[ k ]} ∪ months_seen a).

(** What one work does to the accumulators, if its date is accepted. *)
Definition work_effect (parser : string -> option datetime)
    (source_id : string) (w : work)
  : result (accumulators -> accumulators) :=
  ym ← iso_to_year_month parser (publication_date w);
  match ym with
  | None => Ok (fun a => a)
  | Some k =>
      if Py.is_empty k then Ok (fun a => a)
      else Ok (add_work source_id k (int_or_0 (cited_by_count w)))
  end.

(** Two runs of a loop end alike: with the same accumulators, or both
    with an exception. *)
Definition same_outcome (r1 r2 : result accumulators) : Prop :=
  match r1, r2 with
  | Ok a1, Ok a2 => a1 = a2
  | Raise _, Raise _ => True
  | _, _ => False
  end.

(** ** Sample records *)

(** JSON without floats. *)
Definition no_float : Type := Empty_set.

Definition str_no_float (f : no_float) : string := match f with end.

(** Two members whose column names coincide. *)
Definition colliding_record : json no_float :=
  JObj [("a", JObj [("b", JInt 1)]); ("a__b", JInt 2)].

(** A record with a nested object, an exploded list, a joined list and an
    empty list. *)
Definition sample_record : json no_float :=
  JObj [("id", JStr "S1");
        ("summary_stats", JObj [("h_index", JInt 7)]);
        ("societies", JList [JObj [("url", JStr "u0")];
                             JObj [("url", JStr "u1")]]);
        ("issn", JList [JStr "1234-5678"; JNull; JInt 3]);
        ("alternate_titles", JList [])].

(** ** Sample runs *)

Definition sample_source : source_record :=
  mk_source (Some "https://openalex.org/S1") "bioRxiv"
    [mk_count_row (YearInt 2020) (Some 10) (Some 4);
     mk_count_row (YearInt 2021) (Some 12) None;
     mk_count_row YearNull (Some 1) (Some 1)].

Definition json_response (p : payload) : outcome :=
  Respond (mk_response 200 (Some p)).


(** A source with two pages of works. *)
Definition world_with_works : world :=
  mk_world
    [json_response (SourceDoc sample_source);
     status_only 503;
     json_response
       (WorksDoc (mk_page [mk_work (Some "2021-03-15") (Some 3);
                           mk_work (Some "2021-03") None;
                           mk_work None (Some 8)]
                          (Some "page2")));
     json_response
       (WorksDoc (mk_page [mk_work (Some "2020") (Some 5)] None))] [].

Definition sample_selection : list (string * list string) :=
  [("bioRxiv", ["S1"; "S1"]); ("biorxiv", [""])].

(** A monthly-enabled run with the default options of the sidebar. *)
Definition sample_run (w : world) : result build_output * world :=
  build_zip_from_selection IsoDate.fromisoformat (6 # 10) None None None
    true false true sample_selection w.

Definition output_of (run : result build_output * world) : build_output :=
  match run.1 with
  | Ok out => out
  | Raise _ => mk_output [] empty_acc placeholder_table
  end.

(** ** Further readings of a trace *)

(** An event of a call of [api_get] for [u]: a request for [u], or a
    sleep. *)
Definition own_event (u : string) (e : event) : Prop :=
  match e with
  | Request u' => u' = u
  | Sleep _ _ => True
  end.

(** The sleeps of a trace, of either kind. *)
Fixpoint sleeps_in (tr : list event) : nat :=
  match tr with
  | [] => O
  | Sleep _ _ :: tr' => S (sleeps_in tr')
  | Request _ :: tr' => sleeps_in tr'
  end.

(** An HTTP status that [api_get] neither accepts, nor retries with a
    wait, nor raises for: anything but 200 outside 400..599. *)
Definition unhandled_status (status : Z) : bool :=
  negb (status =? 200) && negb ((400 <=? status) && (status <? 600)).

(** ** The pages of a cursor walk *)

(** The answer that serves one page of works. *)
Definition page_response (p : works_page) : outcome :=
  Respond (mk_response 200 (Some (WorksDoc p))).

(** [base_url.replace("cursor=*", f"cursor={quote(nxt)}")]. *)
Definition cursor_url (base_url nxt : string) : string :=
  Py.replace "cursor=*" ("cursor=" +:+ Py.quote nxt) base_url.

Definition has_next (p : works_page) : bool :=
  match truthy (next_cursor p) with
  | Some _ => true
  | None => false
  end.

(** The URLs of a walk that starts at [next_url] and is served [pages]:
    it ends at the first page without a cursor. *)
Fixpoint page_urls (base_url next_url : string) (pages : list works_page)
  : list string :=
  match pages with
  | [] => []
  | p :: ps =>
      next_url ::
      match truthy (next_cursor p) with
      | Some nxt => page_urls base_url (cursor_url base_url nxt) ps
      | None => []
      end
  end.

(** A complete walk: every page but the last names a next cursor. *)
Fixpoint chained (pages : list works_page) : bool :=
  match pages with
  | [] => false
  | p :: ps =>
      match ps with
      | [] => negb (has_next p)
      | _ :: _ => has_next p && chained ps
      end
  end.

(** What a successful [api_get] leaves in the trace. *)
Definition page_events (sleep_s : Q) (mailto : option string) (url : string)
  : list event :=
  Request (with_mailto url mailto)
  :: (if Qltb 0 sleep_s then [Sleep Polite sleep_s] else []).

(** ** What the accumulators keep *)

(** A two-level dict of buckets agrees with the recorded names and the
    set of keys seen: one entry per source, every source named, no inner
    map empty, and the keys used by the inner maps are exactly the keys
    seen. *)
Definition tidy (data : list (string * gmap string bucket))
    (names : gmap string string) (seen : gset string) : Prop :=
  NoDup (map fst data)
  /\ (forall sid m, (sid, m) ∈ data ->
        is_Some (names !! sid)
        /\ m <> ∅
        /\ forall k, is_Some (m !! k) -> k ∈ seen)
  /\ (forall k, k ∈ seen ->
        exists sid m, (sid, m) ∈ data /\ is_Some (m !! k)).

Definition consistent (a : accumulators) : Prop :=
  tidy (yearly_data a) (sid_to_name a) (years_seen a)
  /\ tidy (monthly_data a) (sid_to_name a) (months_seen a).

(** ** Counting the works of a month *)

(** The date of [w] normalises to the month key [k]. *)
Definition dated (parser : string -> option datetime) (k : string)
    (w : work) : bool :=
  match iso_to_year_month parser (publication_date w) with
  | Ok (Some k') => String.eqb k' k
  | _ => false
  end.

(** The citation counts of a list of works, [null] counting as 0. *)
Definition citations (ws : list work) : Z :=
  fold_right (fun w s => int_or_0 (cited_by_count w) + s) 0 ws.

(** A bucket after the works [hits] were counted into it. *)
Definition counted (hits : list work) (before : option bucket)
  : option bucket :=
  match hits with
  | [] => before
  | _ :: _ =>
      let b := default zero_bucket before in
      Some (mk_bucket (b_works_count b + Z.of_nat (length hits))
                      (b_cited_by_count b + citations hits))
  end.

(** ** Requests for source records *)

(** An event of a run that asks for source records only. *)
Definition source_event (mailto : option string) (sids : list string)
    (e : event) : Prop :=
  match e with
  | Request u =>
      exists sid, sid ∈ sids
        /\ u = with_mailto (OPENALEX_BASE +:+ "/sources/" +:+ sid) mailto
  | Sleep _ _ => True
  end.

(** A yearly snapshot entry whose ["year"] is not a JSON string. *)
Definition int_year (row : count_row) : Prop :=
  match row_year row with
  | YearStr _ => False
  | _ => True
  end.

(** ** Names typed or uploaded by the user *)

Module PyStr.

(** [str.isspace] on the code points below 256: TAB..CR, FS..US, SPACE,
    NEL (U+0085) and NBSP (U+00A0). *)
Definition is_space (c : ascii) : bool :=
  Py.between 9 13 c || Py.between 28 31 c || Nat.eqb (Py.code c) 32
  || Nat.eqb (Py.code c) 133 || Nat.eqb (Py.code c) 160.

(** [s.strip()]. *)
Definition strip (s : string) : string :=
  Py.rstrip is_space (Py.lstrip is_space s).

(** Put [c] in front of the first string of a list. *)
Definition cons_head (c : ascii) (l : list string) : list string :=
  match l with
  | [] => [String c EmptyString]
  | w :: ws => String c w :: ws
  end.

(** [s.split()]: the maximal runs of characters that are not white
    space. *)
Fixpoint split_whitespace (s : string) : list string :=
  match s with
  | EmptyString => []
  | String c s' =>
      if is_space c then split_whitespace s'
      else
        match s' with
        | EmptyString => [String c EmptyString]
        | String d _ =>
            if is_space d then String c EmptyString :: split_whitespace s'
            else cons_head c (split_whitespace s')
        end
  end.

(** The line boundaries of [str.splitlines] below 256: LF, VT, FF, CR,
    FS, GS, RS and NEL; CR LF counts as one. *)
Definition is_line_break (c : ascii) : bool :=
  Py.between 10 13 c || Py.between 28 30 c || Nat.eqb (Py.code c) 133.

(** [s.splitlines()]; [skip_lf] is set right after a CR. *)
Fixpoint splitlines_go (skip_lf : bool) (s : string) : list string :=
  match s with
  | EmptyString => []
  | String c s' =>
      if skip_lf && Nat.eqb (Py.code c) 10 then splitlines_go false s'
      else if is_line_break c
           then EmptyString :: splitlines_go (Nat.eqb (Py.code c) 13) s'
           else cons_head c (splitlines_go false s')
  end.

Definition splitlines (s : string) : list string := splitlines_go false s.

(** [xs[start:]] for an integer [start], negative counting from the
    end. *)
Definition slice_from {A} (start : Z) (xs : list A) : list A :=
  let len := Z.of_nat (length xs) in
  let i := if start <? 0 then Z.max (start + len) 0 else Z.min start len in
  drop (Z.to_nat i) xs.

End PyStr.

(** [norm_name(s)]; [None] is the Python [None]. *)
Definition norm_name (s : option string) : string :=
  Py.join " " (PyStr.split_whitespace (PyStr.strip (default "" s))).

(** [[norm_name(x) for x in xs if norm_name(x)]]. *)
Definition normalised (xs : list string) : list string :=
  List.filter (fun n => negb (Py.is_empty n))
    (map (fun x => norm_name (Some x)) xs).

(** The list [names] of the page: the cells of the first column of the
    uploaded CSV (none when there is no usable upload), then the lines of
    the text area. *)
Definition names (cells : list string) (manual_input : string)
  : list string :=
  normalised cells
  ++ (if Py.is_empty (PyStr.strip manual_input) then []
      else normalised (PyStr.splitlines manual_input)).

(** The loop that fills [unique_names], with its [seen] set. *)
Fixpoint unique_loop (seen : gset string) (ns : list string) : list string :=
  match ns with
  | [] => []
  | n :: ns' =>
      if bool_decide (n ∈ seen) then unique_loop seen ns'
      else n :: unique_loop ({[ n ]} ∪ seen) ns'
  end.

Definition unique_names (cells : list string) (manual_input : string)
  : list string :=
  unique_loop ∅ (names cells manual_input).

(** A word: not empty and free of white space. *)
Definition is_word (w : string) : bool :=
  negb (Py.is_empty w) && Py.all_chars (fun c => negb (PyStr.is_space c)) w.

(** ** The header of [servers.csv] *)

Definition preferred_first : list string :=
  ["source_id"; "display_name"; "type"; "homepage_url"; "issn_l"; "issn";
   "country_code";
   "host_organization_name"; "host_organization";
   "host_organization_lineage";
   "is_oa"; "is_in_doaj"; "is_indexed_in_scopus"; "is_core";
   "works_count"; "cited_by_count";
   "summary_stats__2yr_mean_citedness"; "summary_stats__h_index";
   "summary_stats__i10_index";
   "ids__openalex"; "ids__wikidata";
   "topics_display"; "topics_subfields"; "topics_domains";
   "works_api_url"; "updated_date"; "created_date"].

(** [all_columns] after the loop: the keys of all the flat rows. *)
Definition all_columns (servers_rows : list (gmap string string))
  : gset string :=
  ⋃ (dom <$> servers_rows).

(** [sorted([c for c in all_columns if c not in preferred_first and
    c != "raw_json"])]. *)
Definition remaining (cols : gset string) : list string :=
  merge_sort String.le
    (filter (fun c => (c ∉ preferred_first) /\ c <> "raw_json")
       (elements cols)).

Definition servers_header (cols : gset string) : list string :=
  filter (fun c => c ∈ cols) preferred_first
  ++ remaining cols ++ ["raw_json"].

(** [servers_df]: one row per flat row, a missing column read as [""];
    the values of a flat row are taken as text. *)
Definition servers_df (servers_rows : list (gmap string string)) : table :=
  let header := servers_header (all_columns servers_rows) in
  mk_table header
    (map (fun row => map (fun col => CStr (default "" (row !! col))) header)
       servers_rows).

(** ** The rolling logs *)

(** [push_compact(line)]; [shown] is [compact_log is not None], and the
    result is the new value of [compact_lines]. *)
Definition push_compact (shown : bool) (compact_log_keep : Z)
    (compact_lines : list string) (line : string) : list string :=
  if shown then
    let l := compact_lines ++ [line] in
    if Z.of_nat (length l) >? compact_log_keep
    then PyStr.slice_from (- compact_log_keep) l
    else l
  else compact_lines.

(** The two statements of [log_app] and of [log_overall] that update
    [st.session_state.log_lines]; [line] is the time-stamped message. *)
Definition log_overall (log_lines : list string) (line : string)
  : list string :=
  PyStr.slice_from (- 400) (log_lines ++ [line]).

(** ** Identifiers and URLs *)

Definition openalex_prefix : string := "https://openalex.org/".

(** A character that [quote] leaves in its output. *)
Definition url_char (c : ascii) : bool :=
  Py.quote_safe c || Ascii.eqb c "%".

(** ** Month keys in calendar order *)

(** The texts of [i], [i + 1], ..., [i + n] all have length [len] and
    are strictly ascending as strings. *)
Fixpoint ascend (text : Z -> string) (len : nat) (n : nat) (i : Z) : bool :=
  match n with
  | O => Nat.eqb (String.length (text i)) len
  | S n' =>
      Nat.eqb (String.length (text i)) len
      && String.leb (text i) (text (i + 1))
      && negb (String.eqb (text i) (text (i + 1)))
      && ascend text len n' (i + 1)
  end.

(** ** The yearly wide table *)

(** [sorted(xs, key=key)] is a stable sort: [x] goes in front of the
    first element with a greater key, so behind the elements already
    there with the same key. *)
Fixpoint insert_by (key : string -> Z) (x : string) (l : list string)
  : list string :=
  match l with
  | [] => [x]
  | y :: l' => if key x <? key y then x :: l else y :: insert_by key x l'
  end.

Definition sorted_by (key : string -> Z) (xs : list string) : list string :=
  fold_left (fun acc x => insert_by key x acc) xs [].

(** The key of a year string whose [int()] has succeeded. *)
Definition year_value (y : string) : Z :=
  match Py.int y with
  | Ok v => v
  | Raise _ => 0
  end.

(** [sorted(years_seen, key=lambda x: int(x)) if years_seen else []];
    [order] is the order in which the set [years_seen] is iterated, which
    the interpreter chooses. *)
Definition years_sorted (order : list string) : result (list string) :=
  match order with
  | [] => Ok []
  | _ :: _ => _ ← mapM Py.int order; Ok (sorted_by year_value order)
  end.

Definition yearly_rows (a : accumulators) (years : list string)
  : list (list cell) :=
  flat_map
    (fun entry =>
       [metric_row a years "works_count" b_works_count entry;
        metric_row a years "cited_by_count" b_cited_by_count entry])
    (yearly_data a).

Definition yearly_df (a : accumulators) (order : list string)
  : result table :=
  years ← years_sorted order;
  Ok (mk_table (key_columns ++ years) (yearly_rows a years)).

(** ** Topic columns *)

(** The two exceptions [build_topics_columns] can raise. *)
Inductive topics_exn : Type := AttributeError | TypeError.

Inductive checked (A : Type) : Type :=
| Fine (a : A)
| Wrong (e : topics_exn).

Arguments Fine {A} a.
Arguments Wrong {A} e.

Section Topics.

Variable float : Type.
(** [str(f)] and [bool(f)] of a float; [str()] of a list or dict. *)
Variable str_float : float -> string.
Variable float_nonzero : float -> bool.
Variable py_repr : json float -> string.

(** [str(x)], as an f-string renders [{x}]. *)
Definition py_str (x : json float) : string :=
  match x with
  | JNull => "None"
  | JBool b => if b then "True" else "False"
  | JInt z => Py.str_int z
  | JFloat _ f => str_float f
  | JStr s => s
  | JList _ | JObj _ => py_repr x
  end.

(** [bool(x)]. *)
Definition truthy_value (x : json float) : bool :=
  match x with
  | JNull => false
  | JBool b => b
  | JInt z => negb (z =? 0)
  | JFloat _ f => float_nonzero f
  | JStr s => negb (Py.is_empty s)
  | JList l => match l with [] => false | _ :: _ => true end
  | JObj kvs => match kvs with [] => false | _ :: _ => true end
  end.

(** [d.get(k)]: the keys of a dict are distinct, so the first member
    named [k] is the only one. *)
Fixpoint dict_get (k : string) (kvs : list (string * json float))
  : option (json float) :=
  match kvs with
  | [] => None
  | (k', v) :: kvs' => if String.eqb k k' then Some v else dict_get k kvs'
  end.

(** [d.get(k, "")]. *)
Definition get_or_empty (k : string) (kvs : list (string * json float))
  : json float :=
  default (JStr "") (dict_get k kvs).

(** [x != ""]. *)
Definition not_empty_str (x : json float) : bool :=
  match x with
  | JStr s => negb (Py.is_empty s)
  | _ => true
  end.

(** [(t.get(k) or {}).get("display_name", "")]: a truthy value that is
    no dict has no [get]. *)
Definition nested_name (k : string) (t : list (string * json float))
  : checked (json float) :=
  match dict_get k t with
  | None => Fine (JStr "")
  | Some x =>
      if truthy_value x then
        match x with
        | JObj kvs => Fine (get_or_empty "display_name" kvs)
        | _ => Wrong AttributeError
        end
      else Fine (JStr "")
  end.

(** [if name: lst.append(name)]. *)
Definition append_if_truthy (lst : list (json float)) (name : json float)
  : list (json float) :=
  if truthy_value name then lst ++ [name] else lst.

(** The three lists of the loop. *)
Record topic_lists : Type := mk_lists
  { disp_list : list (json float);
    sub_list : list (json float);
    dom_list : list (json float) }.

(** One turn of [for t in topics]. *)
Definition topic_step (st : topic_lists) (t : json float)
  : checked topic_lists :=
  match t with
  | JObj kvs =>
      let t_name := get_or_empty "display_name" kvs in
      let t_count := get_or_empty "count" kvs in
      let disp :=
        if truthy_value t_name then
          disp_list st
          ++ [if not_empty_str t_count
              then JStr (py_str t_name +:+ " (" +:+ py_str t_count +:+ ")")
              else t_name]
        else disp_list st in
      match nested_name "subfield" kvs with
      | Wrong e => Wrong e
      | Fine sf_name =>
          let sub := append_if_truthy (sub_list st) sf_name in
          match nested_name "domain" kvs with
          | Wrong e => Wrong e
          | Fine dom_name =>
              Fine (mk_lists disp sub
                      (append_if_truthy (dom_list st) dom_name))
          end
      end
  | _ => Fine st
  end.

Fixpoint topics_loop (topics : list (json float)) (st : topic_lists)
  : checked topic_lists :=
  match topics with
  | [] => Fine st
  | t :: topics' =>
      match topic_step st t with
      | Wrong e => Wrong e
      | Fine st' => topics_loop topics' st'
      end
  end.

(** The strings of a list all of whose items are strings. *)
Fixpoint strings_of (items : list (json float)) : option (list string) :=
  match items with
  | [] => Some []
  | JStr s :: items' => cons s <$> strings_of items'
  | _ :: _ => None
  end.

(** ["; ".join(items)]: a [TypeError] unless every item is a [str]. *)
Definition join_items (items : list (json float)) : checked string :=
  match strings_of items with
  | Some l => Fine (Py.join "; " l)
  | None => Wrong TypeError
  end.

Definition build_topics_columns (topics : json float)
  : checked (string * string * string) :=
  match topics with
  | JList l =>
      match topics_loop l (mk_lists [] [] []) with
      | Wrong e => Wrong e
      | Fine st =>
          match join_items (disp_list st) with
          | Wrong e => Wrong e
          | Fine d =>
              match join_items (sub_list st) with
              | Wrong e => Wrong e
              | Fine sf =>
                  match join_items (dom_list st) with
                  | Wrong e => Wrong e
                  | Fine dm => Fine (d, sf, dm)
                  end
              end
          end
      end
  | _ => Fine ("", "", "")
  end.

(** *** Topics of the shape the API documents *)

(** A name that is a string, or is dropped as falsy. *)
Definition plain_name (x : json float) : bool :=
  match x with
  | JStr _ => true
  | _ => negb (truthy_value x)
  end.

(** The text of such a name, if it is kept. *)
Definition name_text (x : json float) : option string :=
  match x with
  | JStr s => if Py.is_empty s then None else Some s
  | _ => None
  end.

(** A [subfield] or [domain]: missing, falsy, or an object with a plain
    name. *)
Definition plain_nested (x : option (json float)) : bool :=
  match x with
  | None => true
  | Some (JObj kvs) => plain_name (get_or_empty "display_name" kvs)
  | Some v => negb (truthy_value v)
  end.

Definition shaped (t : json float) : bool :=
  match t with
  | JObj kvs =>
      plain_name (get_or_empty "display_name" kvs)
      && plain_nested (dict_get "subfield" kvs)
      && plain_nested (dict_get "domain" kvs)
  | _ => true
  end.

(** The entry of a topic in the display column. *)
Definition shown (t : json float) : option string :=
  match t with
  | JObj kvs =>
      n ← name_text (get_or_empty "display_name" kvs);
      Some (if not_empty_str (get_or_empty "count" kvs)
            then n +:+ " (" +:+ py_str (get_or_empty "count" kvs) +:+ ")"
            else n)
  | _ => None
  end.

(** The entry of a topic in the subfield or domain column. *)
Definition nested_text (k : string) (t : json float) : option string :=
  match t with
  | JObj kvs =>
      match dict_get k kvs with
      | Some (JObj kvs') => name_text (get_or_empty "display_name" kvs')
      | _ => None
      end
  | _ => None
  end.

(** A topic whose [subfield] or [domain] is truthy and no object. *)
Definition no_get (x : option (json float)) : bool :=
  match x with
  | Some (JObj _) | None => false
  | Some v => truthy_value v
  end.

Definition bad_nested (t : json float) : bool :=
  match t with
  | JObj kvs => no_get (dict_get "subfield" kvs)
                || no_get (dict_get "domain" kvs)
  | _ => false
  end.

End Topics.

(** A list of topics as the API returns it, with a stray entry. *)
Definition sample_topics : list (json no_float) :=
  [JObj [("display_name", JStr "Virology"); ("count", JInt 12);
         ("subfield", JObj [("display_name", JStr "Immunology")]);
         ("domain", JObj [("display_name", JStr "Life Sciences")])];
   JStr "stray";
   JObj [("display_name", JStr "Genetics"); ("domain", JNull)]].

(** ** The query of a works request *)

(** What follows the cursor parameter in the URL of a works request. *)
Definition query_tail (sid : string) (date_from date_to : option string)
    (select_fields : string)
    (use_primary_location use_host_venue : bool) : string :=
  let filter_str :=
    Py.join "," (works_filters sid date_from date_to
                   use_primary_location use_host_venue) in
  (if Py.is_empty filter_str then ""
   else "&filter=" +:+ Py.quote filter_str)
  +:+ (if Py.is_empty select_fields then ""
       else "&select=" +:+ Py.quote select_fields).

(** ** Month keys read back *)

(** The zero-padded renderings of [i], ..., [i + n] consist of decimal
    digits and have the value they render. *)
Fixpoint reads_back (width : nat) (n : nat) (i : Z) : bool :=
  all_decimal (Py.format_0d width i)
  && (decimal_value (Py.format_0d width i) =? i)
  && match n with
     | O => true
     | S n' => reads_back width n' (i + 1)
     end.

(** * Properties *)

(** ** The primitives on sample inputs *)

Example int_accepts :
  (Py.int " 12 ", Py.int "+5", Py.int "-5", Py.int "1_0", Py.int "007")
  = (Ok 12, Ok 5, Ok (-5), Ok 10, Ok 7).
Proof. reflexivity. Qed.

Example int_rejects :
  Forall (fun s => Py.int s = Raise Py.int_error)
    [""; " "; "+"; "+ 5"; "_1"; "1_"; "1__0"; "0x10"; "5.0"; "foo";
     String (ascii_of_nat 28) "5"; String (ascii_of_nat 178) ""].
Proof. repeat constructor. Qed.

(** The limit of [int()] counts the digits, leading zeros among them,
    and neither the sign, the white space around nor the underscores. *)
Example int_digit_limit :
  is_ok (Py.int (ones 4300)) = true
  /\ Py.int (ones 4301) = Raise Py.int_error
  /\ is_ok (Py.int (" -" +:+ ones 4300 +:+ " ")) = true
  /\ is_ok (Py.int (ones 4299 +:+ "_1")) = true
  /\ Py.int (Py.zeros 4300 +:+ "1") = Raise Py.int_error
  /\ Py.int (ones 4300 +:+ "_1") = Raise Py.int_error.
Proof. vm_compute. repeat split. Qed.

Example isdigit_superscript :
  Py.isdigit (String (ascii_of_nat 178) "") = true.
Proof. reflexivity. Qed.

Example split_samples :
  (Py.split "-" "a-b", Py.split "-" "", Py.split "-" "-",
   Py.split "-" "a--b-")
  = (["a"; "b"], [""], [""; ""], ["a"; ""; "b"; ""]).
Proof. reflexivity. Qed.

Example format_samples :
  (Py.format_0d 4 5, Py.format_0d 4 12345, Py.format_0d 4 (-5),
   Py.format_0d 2 0, Py.str_int (-12))
  = ("0005", "12345", "-005", "00", "-12").
Proof. reflexivity. Qed.

Example quote_sample :
  Py.quote ("a b/c?d=e&f~g_h.i-j*k@+" +:+ String (ascii_of_nat 233) "")
  = "a%20b/c%3Fd%3De%26f~g_h.i-j%2Ak%40%2B%C3%A9".
Proof. reflexivity. Qed.

Example replace_samples :
  (Py.replace "aa" "b" "aaa", Py.replace "" "-" "abc",
   Py.replace "cursor=*" "cursor=Q" "xcursor=*ycursor=*")
  = ("ba", "-a-b-c-", "xcursor=Qycursor=Q").
Proof. reflexivity. Qed.

Example works_filters_sample :
  works_filters "S1" (Some "2020-01-01") (Some "2020-12-31") true true
  = ["primary_location.source.id:S1"; "host_venue.id:S1";
     "from_publication_date:2020-01-01"; "to_publication_date:2020-12-31"].
Proof. reflexivity. Qed.

Example works_url_sample :
  works_base_url "S1" (Some "2020-01-01") None
    "publication_date,cited_by_count" true false
  = "https://api.openalex.org/works?per-page=200&cursor=*&filter=primary_location.source.id%3AS1%2Cfrom_publication_date%3A2020-01-01&select=publication_date%2Ccited_by_count".
Proof. reflexivity. Qed.

(** ** The state monad *)

Lemma M_bind_unfold {A B} (m : M A) (k : A -> M B) (w : world) :
  (m ≫= k) w =
  match m w with
  | (Ok a, w') => k a w'
  | (Raise e, w') => (Raise e, w')
  end.
Proof. reflexivity. Qed.

Lemma requests_get_respond url r rest tr :
  requests_get url (mk_world (Respond r :: rest) tr)
  = (Ok r, mk_world rest (tr ++ [Request url])).
Proof. reflexivity. Qed.

Lemma Qltb_true (a b : Q) : Qltb a b = true <-> (a < b)%Q.
Proof.
  unfold Qltb. rewrite negb_true_iff.
  split.
  - intros H. apply Qnot_le_lt. intros Hle.
    apply Qle_bool_iff in Hle. congruence.
  - intros H. destruct (Qle_bool b a) eqn:E; [|reflexivity].
    apply Qle_bool_iff in E. exfalso. apply (Qlt_not_le _ _ H E).
Qed.

Lemma Qltb_false (a b : Q) : Qltb a b = false <-> (b <= a)%Q.
Proof.
  unfold Qltb. rewrite negb_false_iff. apply Qle_bool_iff.
Qed.

Lemma time_sleep_ok k d w :
  (0 <= d)%Q ->
  time_sleep k d w = (Ok tt, mk_world (pending w) (trace w ++ [Sleep k d])).
Proof.
  intros Hd. unfold time_sleep.
  apply Qltb_false in Hd. rewrite Hd. reflexivity.
Qed.

(** ** Products of floats *)

Section Float64Facts.

Local Open Scope Q_scope.

Example float_literal : Float64.round (16 # 10) = Float64.one_point_six.
Proof. vm_compute. reflexivity. Qed.

(** [0.1 * 1.6], [0.6 * 1.6], [3.0 * 1.6], the least positive float by
    1.6 and by 0.5 (a tie, to the even zero), and [-0.5 * 1.6], each
    with the ratio Python gives for the product. *)
Example float_products :
  Float64.mul (3602879701896397 # 36028797018963968) Float64.one_point_six
  = 1441151880758559 # 9007199254740992
  /\ Float64.mul (5404319552844595 # 9007199254740992) Float64.one_point_six
     = 1080863910568919 # 1125899906842624
  /\ Float64.mul 3 Float64.one_point_six
     = 1351079888211149 # 281474976710656
  /\ Float64.mul Float64.least_positive Float64.one_point_six
     == 2 * Float64.least_positive
  /\ Float64.mul Float64.least_positive (1 # 2) = 0
  /\ Float64.mul (- (1 # 2)) Float64.one_point_six
     = - (3602879701896397 # 4503599627370496).
Proof. vm_compute. repeat split. Qed.


Lemma nearest_even_nonneg (q : Q) :
  0 <= q -> (0 <= Float64.nearest_even q)%Z.
Proof.
  intros H. unfold Float64.nearest_even.
  assert (H0 : (0 <= Qfloor q)%Z).
  { change 0%Z with (Qfloor 0). apply Qfloor_resp_le. exact H. }
  destruct (q - inject_Z (Qfloor q) ?= 1 # 2);
    [destruct (Z.even (Qfloor q))| |]; lia.
Qed.

Lemma two_power_pos (e : Z) : 0 < 2 ^ e.
Proof. apply Qpower_0_lt. reflexivity. Qed.

Lemma round_nonneg (q : Q) : 0 <= q -> 0 <= Float64.round q.
Proof.
  intros H. unfold Float64.round.
  destruct (Qeq_bool q 0); [apply Qle_refl|].
  rewrite Qred_correct.
  apply Qmult_le_0_compat.
  - change 0 with (inject_Z 0). rewrite <- Zle_Qle.
    apply nearest_even_nonneg. apply Qmult_le_0_compat; [exact H|].
    apply Qlt_le_weak, two_power_pos.
  - apply Qlt_le_weak, two_power_pos.
Qed.







Lemma mul_one_point_six_nonneg (q : Q) :
  0 <= q -> 0 <= Float64.mul q Float64.one_point_six.
Proof.
  intros H. apply round_nonneg.
  apply Qmult_le_0_compat; [exact H|]. apply Qlt_le_weak. reflexivity.
Qed.


End Float64Facts.

(** ** The HTTP client *)

Lemma requests_in_app (t1 t2 : list event) :
  requests_in (t1 ++ t2) = (requests_in t1 + requests_in t2)%nat.
Proof.
  induction t1 as [|[u|k d] t1 IH]; simpl; [reflexivity| |assumption].
  rewrite IH. reflexivity.
Qed.


Lemma retryable_not_200 (status : Z) :
  retryable status = true -> (status =? 200) = false.
Proof.
  unfold retryable. intros H.
  destruct (status =? 200) eqn:E; [|reflexivity].
  apply Z.eqb_eq in E. subst status. discriminate.
Qed.

(** One turn of the loop on a retryable status: wait, stretch the
    backoff, go round again. *)
Lemma api_get_loop_retry n u sleep_s b r0 r rest tr :
  retryable (status_code r) = true ->
  (0 <= b)%Q ->
  api_get_loop (S n) u sleep_s b r0 (mk_world (Respond r :: rest) tr)
  = api_get_loop n u sleep_s (Float64.mul b Float64.one_point_six) (Some r)
      (mk_world rest ((tr ++ [Request u]) ++ [Sleep Backoff b])).
Proof.
  intros Hr Hb. simpl. rewrite M_bind_unfold, requests_get_respond.
  rewrite (retryable_not_200 _ Hr), Hr.
  rewrite M_bind_unfold, (time_sleep_ok _ _ _ Hb). reflexivity.
Qed.

(** One turn of the loop on status 200. *)
Lemma api_get_loop_success n u sleep_s b r0 r rest tr :
  status_code r = 200 ->
  api_get_loop (S n) u sleep_s b r0 (mk_world (Respond r :: rest) tr)
  = (Ok r,
     mk_world rest
       ((tr ++ [Request u])
        ++ (if Qltb 0 sleep_s then [Sleep Polite sleep_s] else []))).
Proof.
  intros Hr. simpl. rewrite M_bind_unfold, requests_get_respond.
  rewrite Hr. simpl. rewrite M_bind_unfold.
  destruct (Qltb 0 sleep_s) eqn:E.
  - apply Qltb_true in E.
    rewrite time_sleep_ok by (apply Qlt_le_weak; exact E). reflexivity.
  - simpl. rewrite app_nil_r. reflexivity.
Qed.



Lemma retryable_is_error (status : Z) :
  retryable status = true ->
  (400 <=? status) && (status <? 600) = true.
Proof.
  unfold retryable. intros H.
  repeat (apply orb_true_iff in H as [H|H]);
    apply Z.eqb_eq in H; subst status; reflexivity.
Qed.


Lemma api_get_loop_local_bound (v : string) (u : string) (sleep_s : Q) :
  forall (n : nat) (b : Q) (r : option response) (w : world),
    (r = None -> n <> O) ->
    (api_get_loop n u sleep_s b r w).1 <> Raise (UnboundLocalError v).
Proof.
  induction n as [|n IH]; intros b r w Hr.
  - destruct r as [r|]; [|exfalso; apply Hr; reflexivity].
    simpl. rewrite M_bind_unfold. unfold raise_for_status.
    destruct (_ && _); simpl; discriminate.
  - simpl. rewrite M_bind_unfold.
    unfold requests_get. rewrite M_bind_unfold. simpl.
    destruct (pending w) as [|[r1|e] rest]; simpl.
    + discriminate.
    + destruct (status_code r1 =? 200).
      * rewrite M_bind_unfold.
        destruct (Qltb 0 sleep_s); simpl; [|discriminate].
        unfold time_sleep. destruct (Qltb sleep_s 0); simpl; discriminate.
      * destruct (retryable (status_code r1)).
        -- rewrite M_bind_unfold. unfold time_sleep.
           destruct (Qltb b 0); simpl; [discriminate|].
           apply IH. discriminate.
        -- rewrite M_bind_unfold. unfold raise_for_status.
           destruct (_ && _); simpl; [discriminate|].
           apply IH. discriminate.
    + destruct e; discriminate.
Qed.

(** C9. Without an attempt there is no response to inspect: for
    [max_retries <= 0] the loop body never runs, no request is sent, and
    the statement after the loop fails on the unbound local [r]. With at
    least one attempt that failure cannot occur. *)
Theorem api_get_requires_an_attempt
    (url : string) (sleep_s : Q) (max_retries : Z) (mailto : option string)
    (w : world) :
  (max_retries <= 0 ->
   api_get url sleep_s max_retries mailto w
   = (Raise (UnboundLocalError "r"), w))
  /\ (1 <= max_retries ->
      forall v, (api_get url sleep_s max_retries mailto w).1
                <> Raise (UnboundLocalError v)).
Proof.
  split.
  - intros Hn. unfold api_get.
    replace (Z.to_nat max_retries) with O by lia. reflexivity.
  - intros Hn v. unfold api_get.
    apply api_get_loop_local_bound. intros _. lia.
Qed.

Lemma api_get_requires_an_attempt_witness :
  api_get "https://api.openalex.org/sources/S1" (6 # 10) 0 None
    (mk_world [status_only 200] [])
  = (Raise (UnboundLocalError "r"), mk_world [status_only 200] []).
Proof.
  apply (proj1 (api_get_requires_an_attempt
                  "https://api.openalex.org/sources/S1" (6 # 10) 0 None
                  (mk_world [status_only 200] []))).
  lia.
Defined.




(** ** Year-month keys *)

Lemma decimal_char_plain (c : ascii) :
  Py.is_decimal c = true ->
  Py.is_int_space c = false /\ Ascii.eqb c "-" = false
  /\ Ascii.eqb c "+" = false.
Proof.
  destruct c as [[] [] [] [] [] [] [] []]; vm_compute;
    intros H; try discriminate H; repeat split.
Qed.

Lemma append_empty (t : string) : "" +:+ t = t.
Proof. reflexivity. Qed.

Lemma append_String (c : ascii) (s t : string) :
  String c s +:+ t = String c (s +:+ t).
Proof. reflexivity. Qed.

Lemma is_empty_app_sep (x z : string) (c : ascii) :
  Py.is_empty (x +:+ String c z) = false.
Proof. destruct x; reflexivity. Qed.

Lemma split_no_sep (sep : ascii) (s : string) :
  Py.contains sep s = false -> Py.split sep s = [s].
Proof.
  induction s as [|c s IH]; cbn [Py.split Py.contains]; [reflexivity|].
  intros H. apply orb_false_iff in H as [Hc Hs].
  rewrite (Ascii.eqb_sym c sep), Hc, (IH Hs). reflexivity.
Qed.

Lemma split_at_sep (sep : ascii) (y m : string) :
  Py.contains sep y = false ->
  Py.split sep (y +:+ String sep m) = y :: Py.split sep m.
Proof.
  induction y as [|c y IH].
  - intros _. rewrite append_empty. cbn [Py.split].
    rewrite Ascii.eqb_refl. reflexivity.
  - cbn [Py.contains]. intros H. apply orb_false_iff in H as [Hc Hs].
    rewrite append_String. cbn [Py.split].
    rewrite (Ascii.eqb_sym c sep), Hc, (IH Hs). reflexivity.
Qed.

Lemma all_decimal_no_dash (s : string) :
  Py.all_chars Py.is_decimal s = true -> Py.contains "-" s = false.
Proof.
  induction s as [|c s IH]; cbn [Py.all_chars Py.contains]; [reflexivity|].
  intros H. apply andb_true_iff in H as [Hc Hs].
  destruct (decimal_char_plain c Hc) as (_ & Hd & _).
  rewrite (Ascii.eqb_sym "-" c), Hd, (IH Hs). reflexivity.
Qed.

Lemma rstrip_decimal (s : string) :
  Py.all_chars Py.is_decimal s = true ->
  Py.rstrip Py.is_int_space s = s.
Proof.
  induction s as [|c s IH]; cbn [Py.all_chars Py.rstrip]; [reflexivity|].
  intros H. apply andb_true_iff in H as [Hc Hs].
  destruct (decimal_char_plain c Hc) as (Hsp & _).
  rewrite Hsp, (IH Hs). reflexivity.
Qed.

Lemma int_digits_decimal (s : string) :
  Py.all_chars Py.is_decimal s = true ->
  forall (prev : bool) (acc : Z),
    Py.is_empty s = false \/ prev = true ->
    Py.int_digits s prev acc
    = Some (fold_left (fun a c => 10 * a + Py.digit_value c)
              (list_ascii_of_string s) acc).
Proof.
  induction s as [|c s IH];
    cbn [Py.all_chars Py.int_digits list_ascii_of_string fold_left];
    intros H prev acc Hne.
  - destruct Hne as [Hne|Hne]; [discriminate|]. rewrite Hne. reflexivity.
  - apply andb_true_iff in H as [Hc Hs]. rewrite Hc.
    apply IH; [assumption|]. right. reflexivity.
Qed.

Lemma count_digits_decimal (s : string) :
  Py.all_chars Py.is_decimal s = true ->
  Py.count_digits s = String.length s.
Proof.
  induction s as [|c s IH];
    cbn [Py.all_chars Py.count_digits String.length]; [reflexivity|].
  intros H. apply andb_true_iff in H as [Hc Hs].
  rewrite Hc, (IH Hs). reflexivity.
Qed.

Lemma count_digits_length (s : string) :
  (Py.count_digits s <= String.length s)%nat.
Proof.
  induction s as [|c s IH]; cbn [Py.count_digits String.length]; [lia|].
  destruct (Py.is_decimal c); lia.
Qed.

(** [int()] of a non-empty string of decimal digits, no more of them
    than the interpreter converts, is its value. *)
Lemma int_of_decimal (s : string) :
  all_decimal s = true ->
  (String.length s <= Py.max_str_digits)%nat ->
  Py.int s = Ok (decimal_value s).
Proof.
  unfold all_decimal. intros H Hlen.
  apply andb_true_iff in H as [Hne Hall].
  apply negb_true_iff in Hne.
  unfold Py.int, decimal_value.
  destruct s as [|c s]; [discriminate|].
  pose proof Hall as Hall'. cbn [Py.all_chars] in Hall'.
  apply andb_true_iff in Hall' as [Hc Hs].
  destruct (decimal_char_plain c Hc) as (Hsp & Hminus & Hplus).
  cbn [Py.lstrip]. rewrite Hsp.
  rewrite (rstrip_decimal _ Hall), Hminus, Hplus.
  rewrite (int_digits_decimal _ Hall false 0) by (left; reflexivity).
  rewrite (count_digits_decimal _ Hall).
  apply Nat.leb_le in Hlen. rewrite Hlen. reflexivity.
Qed.

(** [int()] of a string of more decimal digits than that raises. *)
Lemma int_of_long_decimal (s : string) :
  all_decimal s = true ->
  (Py.max_str_digits < String.length s)%nat ->
  Py.int s = Raise Py.int_error.
Proof.
  unfold all_decimal. intros H Hlen.
  apply andb_true_iff in H as [Hne Hall].
  apply negb_true_iff in Hne.
  unfold Py.int.
  destruct s as [|c s]; [discriminate|].
  pose proof Hall as Hall'. cbn [Py.all_chars] in Hall'.
  apply andb_true_iff in Hall' as [Hc Hs].
  destruct (decimal_char_plain c Hc) as (Hsp & Hminus & Hplus).
  cbn [Py.lstrip]. rewrite Hsp.
  rewrite (rstrip_decimal _ Hall), Hminus, Hplus.
  rewrite (int_digits_decimal _ Hall false 0) by (left; reflexivity).
  rewrite (count_digits_decimal _ Hall).
  apply Nat.leb_gt in Hlen. rewrite Hlen. reflexivity.
Qed.

Lemma year_month_key_not_empty (y m : Z) :
  Py.is_empty (year_month_key y m) = false.
Proof. unfold year_month_key. apply is_empty_app_sep. Qed.

(** The fallback branch on a text [Y-M] of two digit groups. *)
Lemma iso_to_year_month_two_groups
    (parser : string -> option datetime) (Y M : string) :
  all_decimal Y = true ->
  all_decimal M = true ->
  (String.length Y <= Py.max_str_digits)%nat ->
  (String.length M <= Py.max_str_digits)%nat ->
  parser (Y +:+ "-" +:+ M) = None ->
  iso_to_year_month parser (Some (Y +:+ "-" +:+ M))
  = Ok (Some (year_month_key (decimal_value Y) (decimal_value M))).
Proof.
  intros HY HM LY LM Hp. unfold iso_to_year_month.
  change ("-" +:+ M) with (String "-" M) in *.
  rewrite is_empty_app_sep, Hp.
  pose proof HY as HY'. pose proof HM as HM'.
  unfold all_decimal in HY', HM'.
  apply andb_true_iff in HY' as [_ HYd]. apply andb_true_iff in HM' as [_ HMd].
  rewrite split_at_sep by (apply all_decimal_no_dash; exact HYd).
  rewrite split_no_sep by (apply all_decimal_no_dash; exact HMd).
  rewrite (int_of_decimal _ HY LY), (int_of_decimal _ HM LM). reflexivity.
Qed.

(** The same branch when the first group has too many digits for
    [int()]: the conversion raises inside the handler. *)
Lemma iso_to_year_month_long_year
    (parser : string -> option datetime) (Y M : string) :
  all_decimal Y = true ->
  all_decimal M = true ->
  (Py.max_str_digits < String.length Y)%nat ->
  parser (Y +:+ "-" +:+ M) = None ->
  iso_to_year_month parser (Some (Y +:+ "-" +:+ M)) = Raise Py.int_error.
Proof.
  intros HY HM LY Hp. unfold iso_to_year_month.
  change ("-" +:+ M) with (String "-" M) in *.
  rewrite is_empty_app_sep, Hp.
  pose proof HY as HY'. pose proof HM as HM'.
  unfold all_decimal in HY', HM'.
  apply andb_true_iff in HY' as [_ HYd]. apply andb_true_iff in HM' as [_ HMd].
  rewrite split_at_sep by (apply all_decimal_no_dash; exact HYd).
  rewrite split_no_sep by (apply all_decimal_no_dash; exact HMd).
  rewrite (int_of_long_decimal _ HY LY). reflexivity.
Qed.

(** C1. On the four dates of the specification the key is as stated, and
    a work dated ["not-a-date"] is skipped by the monthly loop. But the
    function is not total: on the two-part text ["foo-bar"], which the
    date parser rejects, the fallback converts the parts with [int()]
    unguarded, the [ValueError] escapes, and the monthly loop stops with
    it. *)
Theorem iso_to_year_month_not_total (parser : string -> option datetime) :
  parser "2021-03-15" = Some (mk_datetime 2021 3 15) ->
  parser "2021-03" = None ->
  parser "2021" = None ->
  parser "not-a-date" = None ->
  parser "foo-bar" = None ->
  iso_to_year_month parser (Some "2021-03-15") = Ok (Some "2021-03")
  /\ iso_to_year_month parser (Some "2021-03") = Ok (Some "2021-03")
  /\ iso_to_year_month parser (Some "2021") = Ok (Some "2021-01")
  /\ iso_to_year_month parser (Some "not-a-date") = Ok None
  /\ iso_to_year_month parser (Some "foo-bar") = Raise Py.int_error
  /\ (forall source_id a c,
        monthly_step parser source_id a (mk_work (Some "not-a-date") c)
        = Ok a)
  /\ (forall source_id a c,
        monthly_step parser source_id a (mk_work (Some "foo-bar") c)
        = Raise Py.int_error).
Proof.
  intros H1 H2 H3 H4 H5.
  assert (Hdrop : iso_to_year_month parser (Some "not-a-date") = Ok None)
    by (unfold iso_to_year_month; simpl Py.is_empty; cbv iota;
        rewrite H4; reflexivity).
  assert (Hfail : iso_to_year_month parser (Some "foo-bar")
                  = Raise Py.int_error)
    by (unfold iso_to_year_month; simpl Py.is_empty; cbv iota;
        rewrite H5; reflexivity).
  split; [|split; [|split; [|split; [|split; [|split]]]]].
  - unfold iso_to_year_month. simpl Py.is_empty. cbv iota.
    rewrite H1. reflexivity.
  - unfold iso_to_year_month. simpl Py.is_empty. cbv iota.
    rewrite H2. reflexivity.
  - unfold iso_to_year_month. simpl Py.is_empty. cbv iota.
    rewrite H3. reflexivity.
  - exact Hdrop.
  - exact Hfail.
  - intros source_id a c. unfold monthly_step. cbn [publication_date].
    rewrite Hdrop. reflexivity.
  - intros source_id a c. unfold monthly_step. cbn [publication_date].
    rewrite Hfail. reflexivity.
Qed.

Lemma iso_to_year_month_not_total_witness :
  iso_to_year_month IsoDate.fromisoformat (Some "foo-bar")
  = Raise Py.int_error.
Proof.
  apply (iso_to_year_month_not_total IsoDate.fromisoformat);
    reflexivity.
Defined.

(** ** The monthly table *)

Lemma months_sorted_In (a : accumulators) (k : string) :
  In k (months_sorted a) <-> k ∈ months_seen a.
Proof.
  unfold months_sorted. rewrite <- list_elem_of_In.
  rewrite merge_sort_Permutation. apply elem_of_elements.
Qed.




Lemma monthly_table_wide (a : accumulators) :
  months_seen a <> ∅ -> monthly_table true a = wide_table a.
Proof.
  intros H. unfold monthly_table.
  rewrite (bool_decide_eq_false_2 _ H). reflexivity.
Qed.

(** C10, as the code has it. The fallback branch does not check the
    month: a text [Y-M] of two groups of decimal digits, each of at most
    4300 digits (what [int()] converts), that the date parser rejects
    yields the zero-padded key of the two numbers whatever the value of
    [M], and a work carrying that date puts the key among the columns of
    the monthly wide table. *)
Theorem iso_to_year_month_month_unchecked
    (parser : string -> option datetime) (Y M : string) :
  all_decimal Y = true ->
  all_decimal M = true ->
  (String.length Y <= Py.max_str_digits)%nat ->
  (String.length M <= Py.max_str_digits)%nat ->
  parser (Y +:+ "-" +:+ M) = None ->
  let key := year_month_key (decimal_value Y) (decimal_value M) in
  iso_to_year_month parser (Some (Y +:+ "-" +:+ M)) = Ok (Some key)
  /\ forall (source_id : string) (a : accumulators) (c : option Z),
       exists a',
         monthly_step parser source_id a (mk_work (Some (Y +:+ "-" +:+ M)) c)
         = Ok a'
         /\ In key (columns (monthly_table true a')).
Proof.
  intros HY HM LY LM Hp key.
  pose proof (iso_to_year_month_two_groups parser Y M HY HM LY LM Hp)
    as Hkey.
  split; [exact Hkey|].
  intros source_id a c. unfold monthly_step. cbn [publication_date].
  rewrite Hkey. fold key. cbn [mbind result_bind].
  unfold key at 1. rewrite year_month_key_not_empty. fold key.
  eexists. split; [reflexivity|].
  rewrite monthly_table_wide by (cbn [months_seen]; set_solver).
  unfold wide_table. cbn [columns]. apply in_or_app. right.
  apply months_sorted_In. cbn [months_seen]. set_solver.
Qed.

Lemma iso_to_year_month_month_unchecked_witness :
  iso_to_year_month IsoDate.fromisoformat (Some "2021-99")
  = Ok (Some "2021-99").
Proof.
  exact (proj1 (iso_to_year_month_month_unchecked
                  IsoDate.fromisoformat "2021" "99"
                  eq_refl eq_refl
                  (proj1 (Nat.leb_le 4 Py.max_str_digits) eq_refl)
                  (proj1 (Nat.leb_le 2 Py.max_str_digits) eq_refl)
                  eq_refl)).
Defined.

(** C10 fails without the bound on the digits: a year of 4301 digits
    followed by the month ["99"] is a text of two groups of decimal
    digits that the date parser rejects, and no key comes back: [int()]
    raises on the year inside the handler, and the monthly loop stops
    with the exception. *)
Lemma iso_to_year_month_long_year_raises :
  all_decimal long_year = true
  /\ all_decimal "99" = true
  /\ String.length long_year = 4301%nat
  /\ IsoDate.fromisoformat (long_year +:+ "-" +:+ "99") = None
  /\ iso_to_year_month IsoDate.fromisoformat
       (Some (long_year +:+ "-" +:+ "99"))
     = Raise Py.int_error
  /\ monthly_step IsoDate.fromisoformat "S1" empty_acc
       (mk_work (Some (long_year +:+ "-" +:+ "99")) None)
     = Raise Py.int_error.
Proof.
  assert (HY : all_decimal long_year = true) by (vm_compute; reflexivity).
  assert (Hp : IsoDate.fromisoformat (long_year +:+ "-" +:+ "99") = None)
    by (vm_compute; reflexivity).
  assert (Hr : iso_to_year_month IsoDate.fromisoformat
                 (Some (long_year +:+ "-" +:+ "99"))
               = Raise Py.int_error).
  { apply iso_to_year_month_long_year;
      [exact HY|reflexivity| |exact Hp].
    apply Nat.ltb_lt. vm_compute. reflexivity. }
  split; [exact HY|]. split; [reflexivity|].
  split; [vm_compute; reflexivity|]. split; [exact Hp|].
  split; [exact Hr|].
  unfold monthly_step. cbn [publication_date]. rewrite Hr. reflexivity.
Qed.

(** ** Selection *)

Lemma is_empty_true (s : string) : Py.is_empty s = true <-> s = "".
Proof. destruct s; simpl; split; intros H; congruence. Qed.

Lemma is_empty_false (s : string) : Py.is_empty s = false <-> s ≠ "".
Proof. destruct s; simpl; split; intros H; congruence. Qed.

Lemma first_seen_elem (xs : list string) (x : string) :
  x ∈ first_seen xs <-> x ∈ xs.
Proof.
  induction xs as [|y xs IH]; simpl; [reflexivity|].
  rewrite !elem_of_cons, list_elem_of_filter, IH.
  destruct (decide (x = y)); naive_solver.
Qed.

Lemma first_seen_NoDup (xs : list string) : NoDup (first_seen xs).
Proof.
  induction xs as [|y xs IH]; simpl; [constructor|].
  apply NoDup_cons. split.
  - rewrite list_elem_of_filter. naive_solver.
  - apply NoDup_filter, IH.
Qed.

Lemma first_seen_sublist (xs : list string) : first_seen xs `sublist_of` xs.
Proof.
  induction xs as [|y xs IH]; simpl; [constructor|].
  apply sublist_skip. etransitivity; [apply sublist_filter|exact IH].
Qed.

Lemma dedup_cons_new (seen : gset string) (x : string) (xs : list string) :
  x ≠ "" -> x ∉ seen ->
  dedup seen (x :: xs) = x :: dedup ({[ x ]} ∪ seen) xs.
Proof.
  intros Hx Hin. cbn [dedup].
  rewrite (proj2 (is_empty_false x) Hx), (bool_decide_eq_false_2 _ Hin).
  reflexivity.
Qed.

Lemma dedup_cons_seen (seen : gset string) (x : string) (xs : list string) :
  x ∈ seen -> dedup seen (x :: xs) = dedup seen xs.
Proof.
  intros Hin. cbn [dedup]. rewrite (bool_decide_eq_true_2 _ Hin).
  destruct (Py.is_empty x); reflexivity.
Qed.

(** The comprehension with its [seen] set computes the first-seen
    de-duplication of the non-empty entries not seen before. *)
Lemma dedup_first_seen (xs : list string) :
  forall seen : gset string,
    dedup seen xs = filter (fun x => x ∉ seen) (first_seen (non_empty xs)).
Proof.
  unfold non_empty.
  induction xs as [|x xs IH]; intros seen; [reflexivity|].
  cbn [dedup]. destruct (Py.is_empty x) eqn:Ex.
  - apply is_empty_true in Ex. subst x.
    rewrite filter_cons_False by (intros H; apply H; reflexivity).
    apply IH.
  - apply is_empty_false in Ex.
    rewrite filter_cons_True by exact Ex.
    cbn [first_seen]. case_bool_decide as Hin.
    + rewrite filter_cons_False by (intros H; apply H; exact Hin).
      rewrite list_filter_filter_l by (intros y Hy ->; apply Hy; exact Hin).
      apply IH.
    + rewrite filter_cons_True by exact Hin. f_equal.
      rewrite IH, list_filter_filter.
      apply list_filter_iff. intros y. set_solver.
Qed.

Lemma chosen_sids_spec (sel : list (string * list string)) :
  chosen_sids sel = first_seen (non_empty (flattened sel)).
Proof.
  unfold chosen_sids. rewrite dedup_first_seen.
  induction (first_seen _) as [|y l IH]; [reflexivity|].
  rewrite filter_cons_True by apply not_elem_of_empty.
  f_equal. exact IH.
Qed.

Lemma chosen_sids_elem (sel : list (string * list string)) (x : string) :
  x ∈ chosen_sids sel <-> x ∈ flattened sel /\ x ≠ "".
Proof.
  rewrite chosen_sids_spec, first_seen_elem. unfold non_empty.
  rewrite list_elem_of_filter. tauto.
Qed.

(** C7, as the code has it. The identifiers processed are the non-empty
    entries of the flattened selection, each exactly once, in the order of
    their first occurrence; empty entries are dropped. For distinct
    non-empty [A], [B], [C] the input [[A; B; A; C; B]] gives
    [[A; B; C]]. *)
Theorem chosen_sids_first_seen_order (sel : list (string * list string)) :
  chosen_sids sel = first_seen (non_empty (flattened sel))
  /\ NoDup (chosen_sids sel)
  /\ chosen_sids sel `sublist_of` flattened sel
  /\ (forall x : string,
        x ≠ "" -> x ∈ flattened sel ->
        count_occ string_dec (chosen_sids sel) x = 1%nat)
  /\ (forall x : string, x ∈ chosen_sids sel -> x ∈ flattened sel /\ x ≠ "")
  /\ (forall name A B C : string,
        A ≠ "" -> B ≠ "" -> C ≠ "" -> A ≠ B -> A ≠ C -> B ≠ C ->
        chosen_sids [(name, [A; B; A; C; B])] = [A; B; C]).
Proof.
  assert (Hnd : NoDup (chosen_sids sel))
    by (rewrite chosen_sids_spec; apply first_seen_NoDup).
  split; [|split; [|split; [|split; [|split]]]].
  - apply chosen_sids_spec.
  - exact Hnd.
  - rewrite chosen_sids_spec. etransitivity; [apply first_seen_sublist|].
    apply sublist_filter.
  - intros x Hx Hin.
    apply (proj1 (NoDup_count_occ' string_dec (chosen_sids sel))
             (proj1 (NoDup_ListNoDup _) Hnd)).
    apply list_elem_of_In, chosen_sids_elem. split; assumption.
  - intros x Hx. apply chosen_sids_elem. exact Hx.
  - intros name A B C HA HB HC HAB HAC HBC.
    unfold chosen_sids, flattened. cbn [map snd concat app].
    rewrite (dedup_cons_new _ A) by set_solver.
    rewrite (dedup_cons_new _ B) by set_solver.
    rewrite (dedup_cons_seen _ A) by set_solver.
    rewrite (dedup_cons_new _ C) by set_solver.
    rewrite (dedup_cons_seen _ B) by set_solver.
    reflexivity.
Qed.

Lemma chosen_sids_first_seen_order_witness :
  count_occ string_dec
    (chosen_sids [("bioRxiv", ["S1"; "S2"; "S1"]); ("medRxiv", ["S3"; "S2"])])
    "S2" = 1%nat.
Proof.
  apply (proj1 (proj2 (proj2 (proj2
          (chosen_sids_first_seen_order
             [("bioRxiv", ["S1"; "S2"; "S1"]); ("medRxiv", ["S3"; "S2"])]))))).
  - discriminate.
  - vm_compute. set_solver.
Defined.

(** C7 fails on an empty entry: it is among the chosen identifiers of the
    mapping, and the processed list does not contain it. *)
Lemma chosen_sids_drops_empty_entry :
  let sel := [("bioRxiv", [""; "S1"])] in
  "" ∈ flattened sel
  /\ count_occ string_dec (chosen_sids sel) "" = 0%nat
  /\ chosen_sids sel = ["S1"].
Proof.
  split; [|split].
  - cbn. set_solver.
  - reflexivity.
  - reflexivity.
Qed.

(** ** The build *)

Lemma M_bind_ok_inv {A B} (m : M A) (k : A -> M B) (w w' : world) (b : B) :
  (m ≫= k) w = (Ok b, w') ->
  exists (a : A) (w1 : world), m w = (Ok a, w1) /\ k a w1 = (Ok b, w').
Proof.
  rewrite M_bind_unfold. destruct (m w) as [[a|e] w1]; intros H.
  - exists a, w1. split; [reflexivity|exact H].
  - discriminate H.
Qed.



Section BuildFacts.

Variable parser : string -> option datetime.
Variables (sleep_s : Q) (mailto date_from date_to : option string).
Variables (use_primary_location use_host_venue monthly_enabled : bool).

Let build := build_zip_from_selection parser sleep_s mailto date_from date_to
               use_primary_location use_host_venue monthly_enabled.

Let run_all := process_all parser sleep_s mailto date_from date_to
                 use_primary_location use_host_venue monthly_enabled.

Lemma build_ok_inv (sel : list (string * list string)) (w w' : world)
    (out : build_output) :
  build sel w = (Ok out, w') ->
  chosen_sids sel <> []
  /\ exists a : accumulators,
       run_all (chosen_sids sel) empty_acc w = (Ok a, w')
       /\ out = mk_output (chosen_sids sel) a (monthly_table monthly_enabled a).
Proof.
  unfold build, build_zip_from_selection.
  destruct (chosen_sids sel) as [|sid sids] eqn:Hsel; [discriminate|].
  intros H. split; [discriminate|].
  apply M_bind_ok_inv in H as (a & w1 & Hall & H).
  apply M_bind_ok_inv in H as (ys & w2 & Hys & H).
  unfold lift in Hys. injection Hys as _ <-.
  injection H as <- <-.
  exists a. split; [exact Hall|reflexivity].
Qed.


(** C8. The selection yields no identifier exactly when all its entries
    are empty strings (or there are none); the build then raises
    [ValueError("No sources selected.")] at once: the world is returned
    unchanged, so no request was sent and no wait was made, and there is
    no output value. *)
Theorem build_fails_fast_without_sources
    (sel : list (string * list string)) (w : world) :
  (chosen_sids sel = [] <-> forall x, x ∈ flattened sel -> x = "")
  /\ (chosen_sids sel = [] ->
      build sel w = (Raise (ValueError "No sources selected."), w)).
Proof.
  split; [split|].
  - intros H x Hx. destruct (decide (x = "")) as [->|Hne]; [reflexivity|].
    assert (Hin : x ∈ chosen_sids sel)
      by (apply chosen_sids_elem; split; assumption).
    rewrite H in Hin. inversion Hin.
  - intros H. destruct (chosen_sids sel) as [|x l] eqn:E; [reflexivity|].
    assert (Hin : x ∈ chosen_sids sel) by (rewrite E; left).
    apply chosen_sids_elem in Hin as [Hin Hne].
    exfalso. apply Hne, H, Hin.
  - intros H. unfold build, build_zip_from_selection. rewrite H. reflexivity.
Qed.


End BuildFacts.

Lemma build_fails_fast_without_sources_witness :
  build_zip_from_selection IsoDate.fromisoformat (6 # 10) None None None
    true false true [("bioRxiv", []); ("medRxiv", [""])] world_with_works
  = (Raise (ValueError "No sources selected."), world_with_works).
Proof.
  apply (proj2 (build_fails_fast_without_sources IsoDate.fromisoformat
                  (6 # 10) None None None true false true
                  [("bioRxiv", []); ("medRxiv", [""])] world_with_works)).
  reflexivity.
Defined.



(** ** Yearly buckets *)

Lemma upsert_ext {V} (k : string) (d : V) (f g : V -> V)
    (l : list (string * V)) :
  (forall v, f v = g v) -> ODict.upsert k d f l = ODict.upsert k d g l.
Proof.
  intros Hfg. induction l as [|[k' v] l IH]; simpl.
  - rewrite Hfg. reflexivity.
  - destruct (String.eqb k k'); [rewrite Hfg|rewrite IH]; reflexivity.
Qed.

Lemma upsert_upsert {V} (k : string) (d : V) (f g : V -> V)
    (l : list (string * V)) :
  ODict.upsert k d f (ODict.upsert k d g l)
  = ODict.upsert k d (fun v => f (g v)) l.
Proof.
  induction l as [|[k' v] l IH]; simpl.
  - rewrite String.eqb_refl. reflexivity.
  - destruct (String.eqb k k') eqn:E; simpl; rewrite E.
    + reflexivity.
    + rewrite IH. reflexivity.
Qed.

Lemma get_upsert {V} (k : string) (d : V) (f : V -> V)
    (l : list (string * V)) :
  ODict.get k (ODict.upsert k d f l)
  = Some (f (default d (ODict.get k l))).
Proof.
  induction l as [|[k' v] l IH]; simpl.
  - rewrite String.eqb_refl. reflexivity.
  - destruct (String.eqb k k') eqn:E; simpl; rewrite E.
    + reflexivity.
    + exact IH.
Qed.

Lemma get_upsert_ne {V} (k k0 : string) (d : V) (f : V -> V)
    (l : list (string * V)) :
  k0 ≠ k -> ODict.get k0 (ODict.upsert k d f l) = ODict.get k0 l.
Proof.
  intros Hne. induction l as [|[k' v] l IH]; simpl.
  - apply String.eqb_neq in Hne. rewrite Hne. reflexivity.
  - destruct (String.eqb k k') eqn:E; simpl.
    + apply String.eqb_eq in E. subst k'.
      apply String.eqb_neq in Hne. rewrite Hne. reflexivity.
    + rewrite IH. reflexivity.
Qed.

(** The three statements that write a yearly cell amount to one
    overwrite. *)
Lemma write_year_insert (y : string) (wc cb : Z) (m : gmap string bucket) :
  write_year y wc cb m = <[y := mk_bucket wc cb]> m.
Proof.
  unfold write_year, setdefault. apply map_eq. intros k.
  destruct (decide (k = y)) as [->|Hne].
  - rewrite !lookup_alter_eq, lookup_insert_eq.
    destruct (m !! y) as [b|] eqn:E.
    + rewrite E. reflexivity.
    + rewrite lookup_insert_eq. reflexivity.
  - rewrite !lookup_alter_ne, lookup_insert_ne by congruence.
    destruct (m !! y); [reflexivity|].
    rewrite lookup_insert_ne by congruence. reflexivity.
Qed.

Lemma yearly_row_cell (source_id : string) (a : accumulators)
    (row : count_row) :
  yearly_row source_id a row
  = match year_cell row with
    | None => a
    | Some c =>
        mk_acc (ODict.upsert source_id ∅ (fun m => <[c.1 := c.2]> m)
                  (yearly_data a))
          (monthly_data a) (sid_to_name a)
          ({[ c.1 ]} ∪ years_seen a) (months_seen a)
    end.
Proof.
  unfold yearly_row, year_cell.
  destruct (Py.isdigit (str_year (row_year row))); [|reflexivity].
  cbn [fst snd]. f_equal. apply upsert_ext. intros m. apply write_year_insert.
Qed.

Lemma write_cells_app (c1 c2 : list (string * bucket))
    (m : gmap string bucket) :
  write_cells (c1 ++ c2) m = write_cells c2 (write_cells c1 m).
Proof. unfold write_cells. apply fold_left_app. Qed.

Lemma write_cells_lookup_other (cells : list (string * bucket)) (k : string) :
  k ∉ cells.*1 ->
  forall m : gmap string bucket, write_cells cells m !! k = m !! k.
Proof.
  induction cells as [|[y b] cells IH]; intros Hk m; [reflexivity|].
  cbn [fmap list_fmap fst] in Hk. apply not_elem_of_cons in Hk as [Hne Hk].
  cbn [write_cells fold_left fst snd]. fold (write_cells cells (<[y:=b]> m)).
  rewrite (IH Hk). apply lookup_insert_ne. congruence.
Qed.

Lemma write_cells_lookup_last (c1 c2 : list (string * bucket))
    (k : string) (b : bucket) (m : gmap string bucket) :
  k ∉ c2.*1 ->
  write_cells (c1 ++ (k, b) :: c2) m !! k = Some b.
Proof.
  intros Hk. rewrite write_cells_app.
  cbn [write_cells fold_left fst snd].
  fold (write_cells c2 (<[k:=b]> (write_cells c1 m))).
  rewrite (write_cells_lookup_other _ _ Hk). apply lookup_insert_eq.
Qed.

Lemma last_cell (cells : list (string * bucket)) (k : string) :
  k ∈ cells.*1 ->
  exists c1 b c2, cells = c1 ++ (k, b) :: c2 /\ k ∉ c2.*1.
Proof.
  induction cells as [|[y b] cells IH]; intros Hk.
  - inversion Hk.
  - destruct (decide (k ∈ cells.*1)) as [Hin|Hnin].
    + destruct (IH Hin) as (c1 & b' & c2 & -> & Hc2).
      exists ((y, b) :: c1), b', c2. split; [reflexivity|exact Hc2].
    + cbn [fmap list_fmap fst] in Hk. apply elem_of_cons in Hk as [->|Hk].
      * exists [], b, cells. split; [reflexivity|exact Hnin].
      * contradiction.
Qed.

Lemma write_cells_idem (cells : list (string * bucket))
    (m : gmap string bucket) :
  write_cells cells (write_cells cells m) = write_cells cells m.
Proof.
  apply map_eq. intros k.
  destruct (decide (k ∈ cells.*1)) as [Hin|Hnin].
  - destruct (last_cell _ _ Hin) as (c1 & b & c2 & -> & Hc2).
    rewrite !write_cells_lookup_last by exact Hc2. reflexivity.
  - rewrite !write_cells_lookup_other by exact Hnin. reflexivity.
Qed.

(** What the loop over a snapshot leaves behind. *)
Lemma yearly_update_cells (source_id : string) (rows : list count_row) :
  forall a : accumulators,
    yearly_update source_id rows a
    = match year_cells rows with
      | [] => a
      | cells =>
          mk_acc (ODict.upsert source_id ∅ (write_cells cells) (yearly_data a))
            (monthly_data a) (sid_to_name a)
            (list_to_set cells.*1 ∪ years_seen a) (months_seen a)
      end.
Proof.
  unfold yearly_update, year_cells.
  induction rows as [|row rows IH]; intros a; [reflexivity|].
  cbn [fold_left omap list_omap]. rewrite IH, yearly_row_cell.
  destruct (year_cell row) as [c|]; [|reflexivity].
  cbn [yearly_data monthly_data sid_to_name years_seen months_seen].
  destruct (omap year_cell rows) as [|c' cells] eqn:E.
  - f_equal. cbn [fmap list_fmap list_to_set]. set_solver.
  - f_equal.
    + rewrite upsert_upsert. reflexivity.
    + cbn [fmap list_fmap]. rewrite (list_to_set_cons c.1).
      set_solver.
Qed.

Lemma yearly_row_years_seen (source_id : string) (a : accumulators)
    (row : count_row) (y : string) :
  y ∈ years_seen (yearly_row source_id a row)
  <-> y ∈ years_seen a
      \/ (Py.isdigit (str_year (row_year row)) = true
          /\ y = str_year (row_year row)).
Proof.
  unfold yearly_row. destruct (Py.isdigit (str_year (row_year row))).
  - cbn [years_seen]. rewrite elem_of_union, elem_of_singleton.
    split; intros [H|H]; auto. destruct H as [_ H]. auto.
  - split; [auto|]. intros [H|[H _]]; [exact H|discriminate H].
Qed.

Lemma yearly_update_years_seen (source_id : string) (rows : list count_row)
    (y : string) :
  forall a : accumulators,
    y ∈ years_seen (yearly_update source_id rows a)
    <-> y ∈ years_seen a
        \/ exists row, In row rows
             /\ Py.isdigit (str_year (row_year row)) = true
             /\ y = str_year (row_year row).
Proof.
  unfold yearly_update.
  induction rows as [|row rows IH]; intros a; cbn [fold_left].
  - split; [auto|]. intros [H|(row & [] & _)]. exact H.
  - rewrite IH, yearly_row_years_seen. split.
    + intros [[H|[H1 H2]]|(r & Hr & H1 & H2)].
      * left. exact H.
      * right. exists row. split; [left; reflexivity|]. auto.
      * right. exists r. split; [right; exact Hr|]. auto.
    + intros [H|(r & [<-|Hr] & H1 & H2)].
      * left. left. exact H.
      * left. right. auto.
      * right. exists r. auto.
Qed.

Lemma int_raises (s : string) (e : exn) :
  Py.int s = Raise e -> e = Py.int_error.
Proof.
  unfold Py.int.
  destruct (Py.rstrip _ _) as [|c rest];
    repeat match goal with
           | |- context [if ?c then _ else _] => destruct c
           | |- context [Py.int_digits ?a ?b ?c] =>
               destruct (Py.int_digits a b c)
           end; congruence.
Qed.

Lemma mapM_int_fails (l : list string) (x : string) (e : exn) :
  x ∈ l -> Py.int x = Raise e -> mapM Py.int l = Raise Py.int_error.
Proof.
  intros Hx Hr. induction l as [|z l IH]; [inversion Hx|].
  cbn [mapM]. destruct (Py.int z) as [v|e'] eqn:E; cbn [mbind result_bind].
  - apply elem_of_cons in Hx as [->|Hx]; [congruence|].
    rewrite (IH Hx). reflexivity.
  - rewrite (int_raises _ _ E). reflexivity.
Qed.

(** C4. Applying a source's snapshot overwrites: a second application
    changes nothing (no total is doubled); after an application, the
    bucket of a recorded year holds the two values of the last snapshot
    entry for that year. The last clause does not hold of the code. An
    entry is skipped when its year string fails [isdigit] and recorded
    when it passes, and passing [isdigit] is not being numeric: the
    superscript ["²"] passes and is no integer. A snapshot with an entry
    of that year records it, and the sort of the yearly columns, by
    [int()], then raises [ValueError]. *)
Theorem yearly_update_overwrites
    (source_id : string) (rows : list count_row) (a : accumulators) :
  yearly_update source_id rows (yearly_update source_id rows a)
  = yearly_update source_id rows a
  /\ (forall (pre post : list count_row) (row : count_row),
        rows = pre ++ row :: post ->
        Py.isdigit (str_year (row_year row)) = true ->
        (forall r, r ∈ post ->
                   str_year (row_year r) ≠ str_year (row_year row)) ->
        bucket_at (yearly_data (yearly_update source_id rows a))
          source_id (str_year (row_year row))
        = Some (mk_bucket (int_or_0 (row_works_count row))
                          (int_or_0 (row_cited_by_count row))))
  /\ (forall (row : count_row) (a0 : accumulators),
        Py.isdigit (str_year (row_year row)) = false ->
        yearly_row source_id a0 row = a0)
  /\ (forall (row : count_row) (a0 : accumulators),
        Py.isdigit (str_year (row_year row)) = true ->
        str_year (row_year row) ∈ years_seen (yearly_row source_id a0 row))
  /\ Py.isdigit superscript_two = true
  /\ Py.int superscript_two = Raise Py.int_error
  /\ (forall row : count_row,
        In row rows ->
        row_year row = YearStr superscript_two ->
        superscript_two ∈ years_seen (yearly_update source_id rows a)
        /\ years_keys (yearly_update source_id rows a)
           = Raise Py.int_error).
Proof.
  split; [|split; [|split; [|split; [|split; [|split]]]]].
  - rewrite !yearly_update_cells.
    destruct (year_cells rows) as [|c cells] eqn:E; [reflexivity|].
    cbn [yearly_data monthly_data sid_to_name years_seen months_seen].
    f_equal.
    + rewrite upsert_upsert. apply upsert_ext. intros m.
      apply write_cells_idem.
    + set_solver.
  - intros pre post row -> Hdigit Hpost.
    rewrite yearly_update_cells.
    set (y := str_year (row_year row)) in *.
    set (b := mk_bucket _ _).
    assert (Hcell : year_cell row = Some (y, b))
      by (unfold year_cell; fold y; rewrite Hdigit; reflexivity).
    assert (Hcells : year_cells (pre ++ row :: post)
                     = year_cells pre ++ (y, b) :: year_cells post).
    { unfold year_cells. rewrite omap_app. cbn [omap list_omap].
      rewrite Hcell. reflexivity. }
    assert (Hlast : y ∉ (year_cells post).*1).
    { unfold year_cells. intros Hin.
      apply list_elem_of_fmap in Hin as ([y' b'] & Hy & Hin).
      cbn [fst] in Hy. subst y'.
      apply list_elem_of_omap in Hin as (r & Hr & Hc).
      unfold year_cell in Hc.
      destruct (Py.isdigit (str_year (row_year r))); [|discriminate].
      injection Hc as Hy _. exact (Hpost r Hr Hy). }
    rewrite Hcells.
    destruct (year_cells pre ++ (y, b) :: year_cells post) as [|c cells] eqn:E.
    { destruct (year_cells pre); discriminate E. }
    rewrite <- E. cbn [yearly_data]. unfold bucket_at.
    rewrite get_upsert. cbn [mbind option_bind].
    apply write_cells_lookup_last. exact Hlast.
  - intros row a0 Hnot. unfold yearly_row. rewrite Hnot. reflexivity.
  - intros row a0 Hd. apply yearly_row_years_seen. right. auto.
  - reflexivity.
  - reflexivity.
  - intros row Hin Hy.
    assert (Hseen : superscript_two
                    ∈ years_seen (yearly_update source_id rows a)).
    { apply yearly_update_years_seen. right. exists row.
      rewrite Hy. cbn [str_year]. auto. }
    split; [exact Hseen|]. unfold years_keys.
    apply (mapM_int_fails _ superscript_two Py.int_error);
      [apply elem_of_elements; exact Hseen|reflexivity].
Qed.

Lemma yearly_update_overwrites_witness :
  bucket_at
    (yearly_data
       (yearly_update "S1"
          [mk_count_row (YearInt 2020) (Some 10) (Some 4);
           mk_count_row (YearStr superscript_two) (Some 7) (Some 9)]
          empty_acc))
    "S1" superscript_two
  = Some (mk_bucket 7 9)
  /\ years_keys
       (yearly_update "S1"
          [mk_count_row (YearInt 2020) (Some 10) (Some 4);
           mk_count_row (YearStr superscript_two) (Some 7) (Some 9)]
          empty_acc)
     = Raise Py.int_error.
Proof.
  pose proof (yearly_update_overwrites "S1"
                [mk_count_row (YearInt 2020) (Some 10) (Some 4);
                 mk_count_row (YearStr superscript_two) (Some 7) (Some 9)]
                empty_acc) as (_ & Hlast & _ & _ & _ & _ & Hsort).
  split.
  - refine (Hlast [mk_count_row (YearInt 2020) (Some 10) (Some 4)] []
              (mk_count_row (YearStr superscript_two) (Some 7) (Some 9))
              eq_refl eq_refl _).
    intros r Hr. inversion Hr.
  - refine (proj2 (Hsort (mk_count_row (YearStr superscript_two)
                            (Some 7) (Some 9)) _ eq_refl)).
    right. left. reflexivity.
Defined.

(** ** Monthly buckets *)

Lemma setdefault_alter_tick (k : string) (c : Z) (m : gmap string bucket) :
  alter (bump c) k (setdefault k zero_bucket m) = tick k c m.
Proof.
  unfold tick, setdefault. apply map_eq. intros j.
  destruct (decide (j = k)) as [->|Hne].
  - rewrite lookup_alter_eq, lookup_insert_eq.
    destruct (m !! k) as [b|] eqn:E.
    + rewrite E. reflexivity.
    + rewrite lookup_insert_eq. reflexivity.
  - rewrite lookup_alter_ne, lookup_insert_ne by congruence.
    destruct (m !! k); [reflexivity|].
    rewrite lookup_insert_ne by congruence. reflexivity.
Qed.

Lemma bump_comm (c1 c2 : Z) (b : bucket) :
  bump c1 (bump c2 b) = bump c2 (bump c1 b).
Proof. unfold bump. cbn [b_works_count b_cited_by_count]. f_equal; lia. Qed.

Lemma tick_comm (k1 k2 : string) (c1 c2 : Z) (m : gmap string bucket) :
  tick k1 c1 (tick k2 c2 m) = tick k2 c2 (tick k1 c1 m).
Proof.
  unfold tick. destruct (decide (k1 = k2)) as [->|Hne].
  - rewrite !lookup_insert_eq, !insert_insert_eq. simpl.
    rewrite bump_comm. reflexivity.
  - rewrite !lookup_insert_ne by congruence.
    apply insert_insert_ne. congruence.
Qed.

Lemma add_work_comm (source_id k1 k2 : string) (c1 c2 : Z)
    (a : accumulators) :
  add_work source_id k1 c1 (add_work source_id k2 c2 a)
  = add_work source_id k2 c2 (add_work source_id k1 c1 a).
Proof.
  unfold add_work.
  cbn [yearly_data monthly_data sid_to_name years_seen months_seen].
  f_equal.
  - rewrite !upsert_upsert. apply upsert_ext. intros m. apply tick_comm.
  - set_solver.
Qed.

Section MonthlyFacts.

Variable parser : string -> option datetime.
Variable source_id : string.

Lemma monthly_step_effect (a : accumulators) (w : work) :
  monthly_step parser source_id a w = (f ← work_effect parser source_id w; Ok (f a)).
Proof.
  unfold monthly_step, work_effect.
  destruct (iso_to_year_month parser (publication_date w)) as [[k|]|e];
    cbn [mbind result_bind]; try reflexivity.
  destruct (Py.is_empty k); [reflexivity|].
  cbn [mbind result_bind]. unfold add_work. do 2 f_equal.
  apply upsert_ext. intros m. apply setdefault_alter_tick.
Qed.

Lemma work_effects_commute (w1 w2 : work)
    (f1 f2 : accumulators -> accumulators) (a : accumulators) :
  work_effect parser source_id w1 = Ok f1 -> work_effect parser source_id w2 = Ok f2 -> f1 (f2 a) = f2 (f1 a).
Proof.
  unfold work_effect. intros H1 H2.
  destruct (iso_to_year_month parser (publication_date w1)) as [[k1|]|e1];
    cbn [mbind result_bind] in H1; try discriminate H1;
  destruct (iso_to_year_month parser (publication_date w2)) as [[k2|]|e2];
    cbn [mbind result_bind] in H2; try discriminate H2;
  try destruct (Py.is_empty k1); try destruct (Py.is_empty k2);
  injection H1 as <-; injection H2 as <-; try reflexivity.
  apply add_work_comm.
Qed.

Lemma same_outcome_refl (r : result accumulators) : same_outcome r r.
Proof. destruct r; simpl; trivial. Qed.

Lemma same_outcome_trans (r1 r2 r3 : result accumulators) :
  same_outcome r1 r2 -> same_outcome r2 r3 -> same_outcome r1 r3.
Proof.
  destruct r1, r2, r3; simpl; try tauto. intros -> ->. reflexivity.
Qed.

Lemma monthly_works_cons (w : work) (ws : list work) (a : accumulators) :
  monthly_works parser source_id (w :: ws) a
  = (a' ← monthly_step parser source_id a w;
     monthly_works parser source_id ws a').
Proof. reflexivity. Qed.

Lemma monthly_works_Permutation (ws ws' : list work) :
  ws ≡ₚ ws' ->
  forall a : accumulators,
    same_outcome (monthly_works parser source_id ws a)
                 (monthly_works parser source_id ws' a).
Proof.
  induction 1 as [|w ws ws' _ IH|w1 w2 ws|ws1 ws2 ws3 _ IH1 _ IH2];
    intros a.
  - apply same_outcome_refl.
  - rewrite !monthly_works_cons, monthly_step_effect.
    destruct (work_effect parser source_id w) as [f|e]; cbn [mbind result_bind].
    + apply IH.
    + exact I.
  - rewrite !monthly_works_cons, !monthly_step_effect.
    destruct (work_effect parser source_id w1) as [f1|e1] eqn:E1;
      destruct (work_effect parser source_id w2) as [f2|e2] eqn:E2;
      cbn [mbind result_bind];
      rewrite ?monthly_works_cons, ?monthly_step_effect, ?E1, ?E2;
      cbn [mbind result_bind]; try exact I.
    rewrite (work_effects_commute w1 w2 f1 f2 a E1 E2).
    apply same_outcome_refl.
  - eapply same_outcome_trans; [apply IH1|apply IH2].
Qed.

(** Pages are consumed one after the other, as one stream. *)
Lemma monthly_works_app (ws1 ws2 : list work) (a : accumulators) :
  monthly_works parser source_id (ws1 ++ ws2) a
  = (a1 ← monthly_works parser source_id ws1 a;
     monthly_works parser source_id ws2 a1).
Proof.
  revert a. induction ws1 as [|w ws1 IH]; intros a; [reflexivity|].
  cbn [app]. rewrite !monthly_works_cons.
  destruct (monthly_step parser source_id a w) as [a1|e];
    cbn [mbind result_bind]; [apply IH|reflexivity].
Qed.

(** C5. Processing the same works of a source in another order ends
    alike: if one order completes, the other completes with the same
    accumulators, hence the same two counters under every (source, month)
    key; if one order raises, so does the other. A work with month key
    [k] adds one to the work counter of [k] and its citation count, zero
    when missing, to the citation counter, and touches no other bucket. *)
Theorem monthly_accumulation_order_independent
    (ws ws' : list work) (a : accumulators) :
  ws ≡ₚ ws' ->
  (forall a1,
     monthly_works parser source_id ws a = Ok a1 ->
     exists a2,
       monthly_works parser source_id ws' a = Ok a2
       /\ a2 = a1
       /\ forall sid k,
            bucket_at (monthly_data a2) sid k
            = bucket_at (monthly_data a1) sid k)
  /\ (forall e,
        monthly_works parser source_id ws a = Raise e ->
        exists e', monthly_works parser source_id ws' a = Raise e')
  /\ (forall (w : work) (k : string),
        iso_to_year_month parser (publication_date w) = Ok (Some k) ->
        k ≠ "" ->
        exists a',
          monthly_step parser source_id a w = Ok a'
          /\ bucket_at (monthly_data a') source_id k
             = Some (bump (int_or_0 (cited_by_count w))
                       (default zero_bucket
                          (bucket_at (monthly_data a) source_id k)))
          /\ forall sid k',
               (sid, k') ≠ (source_id, k) ->
               bucket_at (monthly_data a') sid k'
               = bucket_at (monthly_data a) sid k').
Proof.
  intros Hperm.
  pose proof (monthly_works_Permutation ws ws' Hperm a) as Hsame.
  split; [|split].
  - intros a1 H1. rewrite H1 in Hsame.
    destruct (monthly_works parser source_id ws' a) as [a2|e2];
      simpl in Hsame; [subst a2|contradiction].
    exists a1. repeat split; reflexivity.
  - intros e H1. rewrite H1 in Hsame.
    destruct (monthly_works parser source_id ws' a) as [a2|e2];
      simpl in Hsame; [contradiction|]. exists e2. reflexivity.
  - intros w k Hk Hne.
    rewrite monthly_step_effect. unfold work_effect. rewrite Hk.
    cbn [mbind result_bind].
    rewrite (proj2 (is_empty_false k) Hne). cbn [mbind result_bind].
    eexists. split; [reflexivity|].
    unfold add_work, bucket_at. cbn [monthly_data]. split.
    + rewrite get_upsert. cbn [mbind option_bind]. unfold tick.
      rewrite lookup_insert_eq. do 2 f_equal.
      destruct (ODict.get source_id (monthly_data a)) as [m|];
        cbn [default mbind option_bind]; [reflexivity|].
      rewrite lookup_empty. reflexivity.
    + intros sid k' Hother.
      destruct (decide (sid = source_id)) as [->|Hsid].
      * rewrite get_upsert. cbn [mbind option_bind]. unfold tick.
        rewrite lookup_insert_ne by congruence.
        destruct (ODict.get source_id (monthly_data a)) as [m|];
          cbn [default mbind option_bind]; [reflexivity|].
        apply lookup_empty.
      * rewrite get_upsert_ne by exact Hsid. reflexivity.
Qed.

End MonthlyFacts.

Lemma monthly_accumulation_order_independent_witness :
  let ws := [mk_work (Some "2021-03-15") (Some 3);
             mk_work (Some "2020") None;
             mk_work (Some "2021-03") (Some 4)] in
  let a1 := match monthly_works IsoDate.fromisoformat "S1" ws empty_acc with
            | Ok a => a
            | Raise _ => empty_acc
            end in
  monthly_works IsoDate.fromisoformat "S1" (rev ws) empty_acc = Ok a1
  /\ bucket_at (monthly_data a1) "S1" "2021-03" = Some (mk_bucket 2 7).
Proof.
  intros ws a1. split; [|vm_compute; reflexivity].
  destruct (proj1 (monthly_accumulation_order_independent
                     IsoDate.fromisoformat "S1" ws (rev ws) empty_acc
                     (Permutation_rev ws)) a1)
    as (a2 & Hrev & -> & _); [vm_compute; reflexivity|exact Hrev].
Defined.

(** ** Flattening *)

Section FlattenFacts.

Variable float : Type.
Variable str_float : float -> string.
Variable json_dumps : json float -> string.

Local Abbreviation flatten := (flatten_json float str_float json_dumps).
Local Abbreviation elements_of :=
  (flatten_elements float str_float json_dumps).
Local Abbreviation value_of := (flatten_value float str_float json_dumps).
Local Abbreviation member_of := (flatten_member float str_float json_dumps).
Local Abbreviation leaf_of := (leaf float str_float json_dumps).
Local Abbreviation member_leaf_of := (member_leaf float str_float json_dumps).
Local Abbreviation text_of := (_stringify float str_float json_dumps).
Local Abbreviation joined_of := (joined float str_float json_dumps).
Local Abbreviation sound_at := (sound float str_float json_dumps).
Local Abbreviation monotone_at := (monotone float str_float json_dumps).
Local Abbreviation complete_at := (complete float str_float json_dumps).
Local Abbreviation fine := (well_flattened float str_float json_dumps).

Lemma flatten_json_list (l : list (json float)) (prefix : string)
    (out : gmap string string) :
  flatten (JList l) prefix out
  = if forallb is_dict l
    then elements_of (index_key prefix) O l out
    else <[or_value prefix := joined_of l]> out.
Proof.
  cbn [flatten_json]. destruct (forallb is_dict l); [|reflexivity].
  generalize O out. induction l as [|el l IH]; intros i o; [reflexivity|].
  cbn [flatten_elements]. apply IH.
Qed.

Lemma flatten_json_obj (kvs : list (string * json float)) (prefix : string)
    (out : gmap string string) :
  flatten (JObj kvs) prefix out = fold_left (member_of prefix) kvs out.
Proof.
  cbn [flatten_json]. revert out.
  induction kvs as [|[k v] kvs IH]; intros out; [reflexivity|].
  cbn [fold_left]. rewrite IH. f_equal.
  unfold flatten_member, flatten_value. cbn [fst snd].
  destruct v as [| | | | |l|kvs0]; try reflexivity.
  destruct (forallb is_dict l); [|reflexivity].
  generalize O out. induction l as [|el l IHl]; intros i o; [reflexivity|].
  cbn [flatten_elements]. apply IHl.
Qed.

Lemma flatten_json_scalar (v : json float) (prefix : string)
    (out : gmap string string) :
  is_scalar v = true ->
  flatten v prefix out = <[or_value prefix := text_of v]> out.
Proof. destruct v; intros H; try discriminate H; reflexivity. Qed.

Lemma flatten_value_scalar (v : json float) (key : string)
    (out : gmap string string) :
  is_scalar v = true ->
  value_of key v out = <[key := text_of v]> out.
Proof. destruct v; intros H; try discriminate H; reflexivity. Qed.

(** *** The loop over the elements of an exploded list *)

Lemma elements_sound (l : list (json float)) :
  Forall sound_at l ->
  forall name i out col txt,
    elements_of name i l out !! col = Some txt ->
    out !! col = Some txt
    \/ exists j el, l !! j = Some el /\ leaf_of el (name (i + j)%nat) col txt.
Proof.
  induction 1 as [|el l Hel _ IH]; intros name i out col txt H.
  - left. exact H.
  - cbn [flatten_elements] in H. apply IH in H as [H|(j & e & Hj & Hl)].
    + apply Hel in H as [H|H]; [left; exact H|].
      right. exists O, el. split; [reflexivity|].
      rewrite Nat.add_0_r. exact H.
    + right. exists (S j), e. split; [exact Hj|].
      replace (i + S j)%nat with (S i + j)%nat by lia. exact Hl.
Qed.

Lemma elements_monotone (l : list (json float)) :
  Forall monotone_at l ->
  forall name i out col,
    is_Some (out !! col) -> is_Some (elements_of name i l out !! col).
Proof.
  induction 1 as [|el l Hel _ IH]; intros name i out col H.
  - exact H.
  - cbn [flatten_elements]. apply IH, Hel, H.
Qed.

Lemma elements_complete (l : list (json float)) :
  Forall monotone_at l ->
  Forall complete_at l ->
  forall name i out col txt j el,
    l !! j = Some el ->
    leaf_of el (name (i + j)%nat) col txt ->
    is_Some (elements_of name i l out !! col).
Proof.
  intros Hm Hc. induction l as [|x l IH]; intros name i out col txt j el Hj Hl.
  - discriminate Hj.
  - apply Forall_cons in Hm as [Hmx Hm]. apply Forall_cons in Hc as [Hcx Hc].
    cbn [flatten_elements]. destruct j as [|j].
    + injection Hj as ->. rewrite Nat.add_0_r in Hl.
      apply (elements_monotone _ Hm). apply (Hcx _ _ _ _ Hl).
    + apply (IH Hm Hc name (S i) _ col txt j el Hj).
      replace (S i + j)%nat with (i + S j)%nat by lia. exact Hl.
Qed.

(** *** The loop over the members of an object *)

Lemma members_sound (kvs : list (string * json float)) :
  Forall (fun kv => member_sound float str_float json_dumps kv.2) kvs ->
  forall prefix out col txt,
    fold_left (member_of prefix) kvs out !! col = Some txt ->
    out !! col = Some txt
    \/ exists i k v,
         kvs !! i = Some (k, v)
         /\ member_leaf_of v (child_key prefix k) col txt.
Proof.
  induction 1 as [|[k v] kvs Hkv _ IH]; intros prefix out col txt H.
  - left. exact H.
  - cbn [fold_left] in H. apply IH in H as [H|(i & k' & v' & Hi & Hl)].
    + apply Hkv in H as [H|H]; [left; exact H|].
      right. exists O, k, v. split; [reflexivity|exact H].
    + right. exists (S i), k', v'. split; [exact Hi|exact Hl].
Qed.

Lemma members_monotone (kvs : list (string * json float)) :
  Forall (fun kv => member_monotone float str_float json_dumps kv.2) kvs ->
  forall prefix out col,
    is_Some (out !! col) ->
    is_Some (fold_left (member_of prefix) kvs out !! col).
Proof.
  induction 1 as [|[k v] kvs Hkv _ IH]; intros prefix out col H.
  - exact H.
  - cbn [fold_left]. apply IH, Hkv, H.
Qed.

Lemma members_complete (kvs : list (string * json float)) :
  Forall (fun kv => member_monotone float str_float json_dumps kv.2) kvs ->
  Forall (fun kv => member_complete float str_float json_dumps kv.2) kvs ->
  forall prefix out col txt i k v,
    kvs !! i = Some (k, v) ->
    member_leaf_of v (child_key prefix k) col txt ->
    is_Some (fold_left (member_of prefix) kvs out !! col).
Proof.
  intros Hm Hc.
  induction kvs as [|[k0 v0] kvs IH]; intros prefix out col txt i k v Hi Hl.
  - discriminate Hi.
  - apply Forall_cons in Hm as [Hm0 Hm]. apply Forall_cons in Hc as [Hc0 Hc].
    cbn [fold_left]. destruct i as [|i].
    + injection Hi as -> ->.
      apply (members_monotone _ Hm). apply (Hc0 _ _ _ _ Hl).
    + apply (IH Hm Hc prefix _ col txt i k v Hi Hl).
Qed.

(** *** Every value is flattened well *)

Lemma scalar_fine (v : json float) : is_scalar v = true -> fine v.
Proof.
  intros Hs. split; (split; [|split]).
  - intros prefix out col txt H.
    rewrite flatten_json_scalar in H by exact Hs.
    apply lookup_insert_Some in H as [[<- <-]|[_ H]].
    + right. apply leaf_scalar. exact Hs.
    + left. exact H.
  - intros prefix out col H. rewrite flatten_json_scalar by exact Hs.
    apply lookup_insert_is_Some'. right. exact H.
  - intros prefix out col txt Hl. rewrite flatten_json_scalar by exact Hs.
    apply lookup_insert_is_Some'. left.
    inversion Hl; subst; try discriminate Hs. reflexivity.
  - intros key out col txt H.
    rewrite flatten_value_scalar in H by exact Hs.
    apply lookup_insert_Some in H as [[<- <-]|[_ H]].
    + right. apply member_scalar. exact Hs.
    + left. exact H.
  - intros key out col H. rewrite flatten_value_scalar by exact Hs.
    apply lookup_insert_is_Some'. right. exact H.
  - intros key out col txt Hl. rewrite flatten_value_scalar by exact Hs.
    apply lookup_insert_is_Some'. left.
    inversion Hl; subst; try discriminate Hs. reflexivity.
Qed.

Lemma list_fine (l : list (json float)) : Forall fine l -> fine (JList l).
Proof.
  intros Hall.
  assert (Hs : Forall sound_at l)
    by (eapply Forall_impl; [exact Hall|intros x Hx; apply Hx]).
  assert (Hm : Forall monotone_at l)
    by (eapply Forall_impl; [exact Hall|intros x Hx; apply Hx]).
  assert (Hc : Forall complete_at l)
    by (eapply Forall_impl; [exact Hall|intros x Hx; apply Hx]).
  split; (split; [|split]).
  - intros prefix out col txt H. rewrite flatten_json_list in H.
    destruct (forallb is_dict l) eqn:E.
    + apply (elements_sound _ Hs) in H as [H|(j & el & Hj & Hl)].
      * left. exact H.
      * right. eapply leaf_element; eassumption.
    + apply lookup_insert_Some in H as [[<- <-]|[_ H]].
      * right. apply leaf_joined. exact E.
      * left. exact H.
  - intros prefix out col H. rewrite flatten_json_list.
    destruct (forallb is_dict l).
    + apply (elements_monotone _ Hm), H.
    + apply lookup_insert_is_Some'. right. exact H.
  - intros prefix out col txt Hl. rewrite flatten_json_list.
    inversion Hl as [v p Hsc|l' p E|l' p j el c t E Hj Hel|]; subst.
    + discriminate Hsc.
    + rewrite E. apply lookup_insert_is_Some'. left. reflexivity.
    + rewrite E. eapply (elements_complete _ Hm Hc); eassumption.
  - intros key out col txt H. cbn [flatten_value] in H.
    destruct (forallb is_dict l) eqn:E.
    + apply (elements_sound _ Hs) in H as [H|(j & el & Hj & Hl)].
      * left. exact H.
      * right. eapply member_element; eassumption.
    + apply lookup_insert_Some in H as [[<- <-]|[_ H]].
      * right. apply member_joined. exact E.
      * left. exact H.
  - intros key out col H. cbn [flatten_value].
    destruct (forallb is_dict l).
    + apply (elements_monotone _ Hm), H.
    + apply lookup_insert_is_Some'. right. exact H.
  - intros key out col txt Hl. cbn [flatten_value].
    inversion Hl as [v p Hsc|l' p E|l' p j el c t E Hj Hel|]; subst.
    + discriminate Hsc.
    + rewrite E. apply lookup_insert_is_Some'. left. reflexivity.
    + rewrite E. eapply (elements_complete _ Hm Hc); eassumption.
Qed.

Lemma obj_fine (kvs : list (string * json float)) :
  Forall (fun kv => fine kv.2) kvs -> fine (JObj kvs).
Proof.
  intros Hall.
  assert (Hs : Forall (fun kv => member_sound float str_float json_dumps kv.2)
                 kvs)
    by (eapply Forall_impl; [exact Hall|intros x Hx; apply Hx]).
  assert (Hm : Forall (fun kv => member_monotone float str_float json_dumps
                                   kv.2) kvs)
    by (eapply Forall_impl; [exact Hall|intros x Hx; apply Hx]).
  assert (Hc : Forall (fun kv => member_complete float str_float json_dumps
                                   kv.2) kvs)
    by (eapply Forall_impl; [exact Hall|intros x Hx; apply Hx]).
  assert (Hsound : sound_at (JObj kvs)).
  { intros prefix out col txt H. rewrite flatten_json_obj in H.
    apply (members_sound _ Hs) in H as [H|(i & k & v & Hi & Hl)].
    - left. exact H.
    - right. eapply leaf_member; eassumption. }
  assert (Hmono : monotone_at (JObj kvs)).
  { intros prefix out col H. rewrite flatten_json_obj.
    apply (members_monotone _ Hm), H. }
  assert (Hcompl : complete_at (JObj kvs)).
  { intros prefix out col txt Hl. rewrite flatten_json_obj.
    inversion Hl as [v p Hsc| | |kvs' p i k v c t Hi Hml]; subst.
    - discriminate Hsc.
    - eapply (members_complete _ Hm Hc); eassumption. }
  split; (split; [|split]); try assumption.
  - intros key out col txt H. cbn [flatten_value] in H.
    apply Hsound in H as [H|H]; [left; exact H|].
    right. apply member_object. exact H.
  - intros key out col txt Hl. cbn [flatten_value].
    inversion Hl as [v p Hsc| | |kvs' p c t Hleaf]; subst.
    + discriminate Hsc.
    + exact (Hcompl key out col txt Hleaf).
Qed.

Lemma every_value_fine (v : json float) : fine v.
Proof.
  revert v. apply (json_nested_ind float).
  - apply scalar_fine.
  - apply list_fine.
  - apply obj_fine.
Qed.

(** C6, as the code has it. The columns of the flat row of a record are
    exactly the columns of its leaves, a leaf being a scalar or a list
    that is joined because not all of its elements are objects; a list of
    objects is exploded under index-suffixed keys and an empty list or
    object yields no column. Every column holds the text of a leaf with
    that column, and holds the text of a given leaf whenever no leaf with
    another text has the same column. *)
Theorem flatten_json_columns (obj : json float) :
  let row := flatten obj "" ∅ in
  (forall col txt, row !! col = Some txt -> leaf_of obj "" col txt)
  /\ (forall col txt, leaf_of obj "" col txt -> is_Some (row !! col))
  /\ (forall col txt,
        leaf_of obj "" col txt ->
        (forall txt', leaf_of obj "" col txt' -> txt' = txt) ->
        row !! col = Some txt)
  /\ (forall k l,
        flatten (JObj [(k, JList l)]) "" ∅
        = if forallb is_dict l
          then elements_of (member_index_key k) O l ∅
          else {[ k := joined_of l ]}).
Proof.
  intros row. destruct (every_value_fine obj) as ((Hs & _ & Hc) & _).
  assert (H1 : forall col txt, row !! col = Some txt -> leaf_of obj "" col txt).
  { intros col txt H. apply Hs in H as [H|H]; [|exact H].
    rewrite lookup_empty in H. discriminate H. }
  assert (H2 : forall col txt, leaf_of obj "" col txt -> is_Some (row !! col)).
  { intros col txt H. apply (Hc _ _ _ _ H). }
  split; [exact H1|]. split; [exact H2|]. split.
  - intros col txt Hl Huniq. destruct (H2 _ _ Hl) as [txt' Hrow].
    rewrite Hrow. f_equal. apply Huniq, H1, Hrow.
  - intros k l. rewrite flatten_json_obj. cbn [fold_left].
    unfold flatten_member, flatten_value, child_key. cbn [fst snd Py.is_empty].
    destruct (forallb is_dict l); reflexivity.
Qed.

End FlattenFacts.

Lemma flatten_json_columns_witness :
  leaf no_float str_no_float (fun _ => "") sample_record ""
    "societies_1__url" "u1"
  /\ leaf no_float str_no_float (fun _ => "") sample_record ""
       "issn" "1234-5678||3".
Proof.
  split;
    apply (proj1 (flatten_json_columns no_float str_no_float (fun _ => "")
                    sample_record));
    vm_compute; reflexivity.
Defined.

(** C6 fails when two leaves are given the same column: the record has
    the scalar leaves 1 (under [a], [b]) and 2 (under [a__b]), both for
    column [a__b]; the row has that single column, holding "2". A member
    that is an empty list gets no column at all. *)
Lemma flatten_json_colliding_columns :
  let row :=
    flatten_json no_float str_no_float (fun _ => "") colliding_record "" ∅ in
  leaf no_float str_no_float (fun _ => "") colliding_record "" "a__b" "1"
  /\ leaf no_float str_no_float (fun _ => "") colliding_record "" "a__b" "2"
  /\ row = {[ "a__b" := "2" ]}
  /\ row !! "a__b" <> Some "1"
  /\ flatten_json no_float str_no_float (fun _ => "")
       (JObj [("alternate_titles", JList [])]) "" ∅ = ∅.
Proof.
  intros row. split; [|split; [|split; [|split]]].
  - eapply leaf_member with (i := 0%nat); [reflexivity|].
    apply member_object.
    eapply leaf_member with (i := 0%nat); [reflexivity|].
    apply (member_scalar no_float str_no_float _ (JInt 1)). reflexivity.
  - eapply leaf_member with (i := 1%nat); [reflexivity|].
    apply (member_scalar no_float str_no_float _ (JInt 2)). reflexivity.
  - vm_compute. reflexivity.
  - vm_compute. discriminate.
  - vm_compute. reflexivity.
Qed.

(** ** The paging loop always finishes

    [Unfinished] marks an unfolding of [while True] that ran out of
    turns. Every turn of the paging loop takes at least one scripted
    outcome, so with the bound chosen by [iter_works_for_source] the mark
    is never produced: a build returns or raises a Python exception. *)

Lemma api_get_loop_progress (u : string) (sleep_s : Q) :
  forall (n : nat) (b : Q) (r0 : option response) (w : world),
    (api_get_loop n u sleep_s b r0 w).1 <> Raise Unfinished
    /\ (length (pending (api_get_loop n u sleep_s b r0 w).2)
        <= length (pending w))%nat
    /\ (r0 = None ->
        is_ok (api_get_loop n u sleep_s b r0 w).1 = true ->
        (length (pending (api_get_loop n u sleep_s b r0 w).2)
         < length (pending w))%nat).
Proof.
  induction n as [|n IH]; intros b r0 w.
  - destruct r0 as [r|]; simpl.
    + rewrite M_bind_unfold. unfold raise_for_status.
      destruct (_ && _); simpl; repeat split;
        (discriminate || lia || intros H; discriminate H).
    + repeat split; (discriminate || lia || intros _ H; discriminate H).
  - simpl. rewrite M_bind_unfold.
    unfold requests_get. rewrite M_bind_unfold. simpl.
    destruct (pending w) as [|[r|e] rest] eqn:Ew; simpl.
    + repeat split;
        (discriminate || (simpl; lia) || (intros _ H; discriminate H)).
    + destruct (status_code r =? 200).
      * rewrite M_bind_unfold. destruct (Qltb 0 sleep_s); simpl.
        -- unfold time_sleep. destruct (Qltb sleep_s 0); simpl;
             repeat split; (discriminate || lia).
        -- repeat split; (discriminate || lia).
      * destruct (retryable (status_code r)).
        -- rewrite M_bind_unfold. unfold time_sleep.
           destruct (Qltb b 0); simpl.
           ++ repeat split; (discriminate || lia).
           ++ match goal with
              | |- context [api_get_loop n u sleep_s ?b' ?r' ?w'] =>
                  destruct (IH b' r' w') as (H1 & H2 & _)
              end.
              simpl in H2. repeat split; [exact H1|lia|intros _ _; lia].
        -- rewrite M_bind_unfold. unfold raise_for_status.
           destruct (_ && _); simpl.
           ++ repeat split; (discriminate || lia).
           ++ match goal with
              | |- context [api_get_loop n u sleep_s ?b' ?r' ?w'] =>
                  destruct (IH b' r' w') as (H1 & H2 & _)
              end.
              simpl in H2. repeat split; [exact H1|lia|intros _ _; lia].
    + repeat split;
        (destruct e; discriminate || lia || intros _ H; discriminate H).
Qed.

Lemma api_get_progress (url : string) (sleep_s : Q) (mailto : option string)
    (w : world) :
  (api_get url sleep_s default_max_retries mailto w).1 <> Raise Unfinished
  /\ (length (pending (api_get url sleep_s default_max_retries mailto w).2)
      <= length (pending w))%nat
  /\ (is_ok (api_get url sleep_s default_max_retries mailto w).1 = true ->
      (length (pending (api_get url sleep_s default_max_retries mailto w).2)
       < length (pending w))%nat).
Proof.
  unfold api_get.
  destruct (api_get_loop_progress (with_mailto url mailto) sleep_s
              (Z.to_nat default_max_retries) sleep_s None w) as (H1 & H2 & H3).
  repeat split; [exact H1|exact H2|exact (H3 eq_refl)].
Qed.

(** The only exception [iso_to_year_month] lets escape is the one of
    [int()]. *)
Lemma iso_to_year_month_raises (parser : string -> option datetime)
    (d : option string) (e : exn) :
  iso_to_year_month parser d = Raise e -> e = Py.int_error.
Proof.
  unfold iso_to_year_month.
  destruct d as [s|]; [|discriminate].
  destruct (Py.is_empty s); [discriminate|].
  destruct (parser s); [discriminate|].
  destruct (Py.split "-" s) as [|y [|m [|x parts]]]; try discriminate.
  - destruct (Py.isdigit y); [|discriminate].
    destruct (Py.int y) as [v|e'] eqn:E; cbn [mbind result_bind];
      [discriminate|].
    intros H. injection H as <-. exact (int_raises _ _ E).
  - destruct (Py.int y) as [v|e'] eqn:E; cbn [mbind result_bind].
    + destruct (Py.int m) as [v'|e'] eqn:E'; cbn [mbind result_bind];
        [discriminate|].
      intros H. injection H as <-. exact (int_raises _ _ E').
    + intros H. injection H as <-. exact (int_raises _ _ E).
Qed.

Lemma monthly_works_raises (parser : string -> option datetime)
    (source_id : string) (ws : list work) :
  forall (a : accumulators) (e : exn),
    monthly_works parser source_id ws a = Raise e -> e = Py.int_error.
Proof.
  induction ws as [|w ws IH]; intros a e H; [discriminate H|].
  unfold monthly_works in *. cbn [for_each] in H. unfold monthly_step in H.
  destruct (iso_to_year_month parser (publication_date w)) as [ym|e'] eqn:E;
    cbn [mbind result_bind] in H.
  - destruct ym as [k|]; [destruct (Py.is_empty k)|];
      cbn [mbind result_bind] in H; exact (IH _ _ H).
  - injection H as <-. exact (iso_to_year_month_raises _ _ _ E).
Qed.

Section Finishes.

Variable parser : string -> option datetime.
Variables (sleep_s : Q) (mailto date_from date_to : option string).
Variables (use_primary_location use_host_venue monthly_enabled : bool).

Lemma iter_pages_finishes (source_id base_url : string) :
  forall (fuel : nat) (next_url : string) (a : accumulators) (w : world),
    (length (pending w) < fuel)%nat ->
    (iter_pages fuel base_url next_url sleep_s mailto
       (monthly_step parser source_id) a w).1
    <> Raise Unfinished.
Proof.
  induction fuel as [|fuel IH]; intros next_url a w Hfuel; [lia|].
  cbn [iter_pages]. rewrite M_bind_unfold.
  destruct (api_get_progress next_url sleep_s mailto w) as (H1 & _ & H3).
  destruct (api_get next_url sleep_s default_max_retries mailto w)
    as [[r|e] w1]; simpl in H1, H3;
    [|simpl; intros Hq; injection Hq as ->; apply H1; reflexivity].
  specialize (H3 eq_refl).
  rewrite M_bind_unfold. unfold response_json.
  destruct (body r) as [p|]; simpl; [|discriminate].
  rewrite M_bind_unfold. unfold lift.
  fold (monthly_works parser source_id (page_results (as_works_page p)) a).
  destruct (monthly_works parser source_id (page_results (as_works_page p)) a)
    as [a'|e'] eqn:Ew.
  - destruct (truthy (next_cursor (as_works_page p))) as [nxt|].
    + apply IH. lia.
    + discriminate.
  - apply monthly_works_raises in Ew. subst e'. discriminate.
Qed.

Lemma process_source_finishes (a : accumulators) (sid : string) (w : world) :
  (process_source parser sleep_s mailto date_from date_to
     use_primary_location use_host_venue monthly_enabled a sid w).1
  <> Raise Unfinished.
Proof.
  unfold process_source, fetch_source. rewrite !M_bind_unfold.
  match goal with
  | |- context [api_get ?u sleep_s default_max_retries mailto w] =>
      destruct (api_get_progress u sleep_s mailto w) as (H1 & _ & _);
      destruct (api_get u sleep_s default_max_retries mailto w)
        as [[r|e] w1]; simpl in H1;
        [|simpl; intros Hq; injection Hq as ->; apply H1; reflexivity]
  end.
  rewrite M_bind_unfold. unfold response_json.
  destruct (body r) as [p|]; simpl; [|discriminate].
  destruct monthly_enabled; [|discriminate].
  unfold iter_works_for_source. apply iter_pages_finishes. lia.
Qed.

Lemma process_all_finishes (sids : list string) :
  forall (a : accumulators) (w : world),
    (process_all parser sleep_s mailto date_from date_to
       use_primary_location use_host_venue monthly_enabled sids a w).1
    <> Raise Unfinished.
Proof.
  induction sids as [|sid sids IH]; intros a w; [discriminate|].
  cbn [process_all]. rewrite M_bind_unfold.
  pose proof (process_source_finishes a sid w) as H.
  destruct (process_source _ _ _ _ _ _ _ _ a sid w) as [[a'|e] w1];
    simpl in H; [apply IH|exact H].
Qed.

Lemma mapM_int_raises (l : list string) (e : exn) :
  mapM Py.int l = Raise e -> e = Py.int_error.
Proof.
  induction l as [|x l IH]; [discriminate|].
  cbn [mapM]. destruct (Py.int x) as [v|e'] eqn:E; cbn [mbind result_bind].
  - destruct (mapM Py.int l) as [vs|e''];
      cbn [mbind result_bind]; [discriminate|].
    intros H. injection H as <-. apply IH. reflexivity.
  - intros H. injection H as <-. exact (int_raises _ _ E).
Qed.

(** A build never runs out of turns. *)
Theorem build_always_finishes
    (sel : list (string * list string)) (w : world) :
  (build_zip_from_selection parser sleep_s mailto date_from date_to
     use_primary_location use_host_venue monthly_enabled sel w).1
  <> Raise Unfinished.
Proof.
  unfold build_zip_from_selection.
  destruct (chosen_sids sel) as [|sid sids]; [discriminate|].
  rewrite M_bind_unfold.
  pose proof (process_all_finishes (sid :: sids) empty_acc w) as H.
  destruct (process_all _ _ _ _ _ _ _ _ (sid :: sids) empty_acc w)
    as [[a|e] w1]; simpl in H;
    [|simpl; intros Hq; injection Hq as ->; apply H; reflexivity].
  rewrite M_bind_unfold. unfold lift, years_keys.
  destruct (mapM Py.int (elements (years_seen a))) as [ys|e] eqn:E.
  - discriminate.
  - apply mapM_int_raises in E. subst e. discriminate.
Qed.

End Finishes.

(** * Further properties *)

(** ** The HTTP client, for any script *)

Lemma sleeps_in_app (t1 t2 : list event) :
  sleeps_in (t1 ++ t2) = (sleeps_in t1 + sleeps_in t2)%nat.
Proof.
  induction t1 as [|[u|k d] t1 IH]; simpl; [reflexivity|assumption|].
  rewrite IH. reflexivity.
Qed.

Lemma api_get_loop_trace (u : string) (sleep_s : Q) :
  forall (n : nat) (b : Q) (r0 : option response) (w : world),
    exists (tr' : list event) (used : list outcome),
      trace (api_get_loop n u sleep_s b r0 w).2 = trace w ++ tr'
      /\ (requests_in tr' <= n)%nat
      /\ Forall (own_event u) tr'
      /\ pending w = used ++ pending (api_get_loop n u sleep_s b r0 w).2
      /\ (length used <= requests_in tr')%nat.
Proof.
  induction n as [|n IH]; intros b r0 w.
  - exists [], []. destruct r0 as [r|]; simpl.
    + rewrite M_bind_unfold. unfold raise_for_status.
      destruct (_ && _); simpl; rewrite app_nil_r; repeat split;
        (reflexivity || lia || constructor).
    + rewrite app_nil_r. repeat split; (reflexivity || lia || constructor).
  - simpl. rewrite M_bind_unfold.
    unfold requests_get. rewrite M_bind_unfold. simpl.
    destruct (pending w) as [|[r|e] rest] eqn:Ew; simpl.
    + exists [Request u], []. simpl.
      repeat split; (reflexivity || lia || (repeat constructor)).
    + destruct (status_code r =? 200).
      * rewrite M_bind_unfold. destruct (Qltb 0 sleep_s); simpl.
        -- unfold time_sleep. destruct (Qltb sleep_s 0); simpl.
           ++ exists [Request u], [Respond r]. simpl.
              repeat split; (reflexivity || lia || (repeat constructor)).
           ++ exists [Request u; Sleep Polite sleep_s], [Respond r]. simpl.
              rewrite <- app_assoc.
              repeat split; (reflexivity || lia || (repeat constructor)).
        -- exists [Request u], [Respond r]. simpl.
           repeat split; (reflexivity || lia || (repeat constructor)).
      * destruct (retryable (status_code r)).
        -- rewrite M_bind_unfold. unfold time_sleep.
           destruct (Qltb b 0); simpl.
           ++ exists [Request u], [Respond r]. simpl.
              repeat split; (reflexivity || lia || (repeat constructor)).
           ++ match goal with
              | |- context [api_get_loop n u sleep_s ?b' ?r' ?w'] =>
                  destruct (IH b' r' w') as (tr' & used & H1 & H2 & H3 & H4 & H5)
              end.
              simpl in H1, H4.
              exists (Request u :: Sleep Backoff b :: tr'), (Respond r :: used).
              split; [rewrite H1, <- !app_assoc; reflexivity|].
              simpl. split; [lia|].
              split; [repeat constructor; exact H3|].
              split; [f_equal; exact H4|lia].
        -- rewrite M_bind_unfold. unfold raise_for_status.
           destruct (_ && _); simpl.
           ++ exists [Request u], [Respond r]. simpl.
              repeat split; (reflexivity || lia || (repeat constructor)).
           ++ match goal with
              | |- context [api_get_loop n u sleep_s ?b' ?r' ?w'] =>
                  destruct (IH b' r' w') as (tr' & used & H1 & H2 & H3 & H4 & H5)
              end.
              simpl in H1, H4.
              exists (Request u :: tr'), (Respond r :: used).
              split; [rewrite H1, <- !app_assoc; reflexivity|].
              simpl. split; [lia|].
              split; [repeat constructor; exact H3|].
              split; [f_equal; exact H4|lia].
    + exists [Request u], [Fail e]. simpl.
      repeat split; (reflexivity || lia || (repeat constructor)).
Qed.

(** X1. Whatever the server does, a call of [api_get] only appends to
    the trace, sends at most [max_retries] requests, all of them for its
    own URL (with the contact parameter), and takes at most one scripted
    outcome per request. *)
Theorem api_get_request_bound
    (url : string) (sleep_s : Q) (max_retries : Z) (mailto : option string)
    (w : world) :
  exists (tr' : list event) (used : list outcome),
    trace (api_get url sleep_s max_retries mailto w).2 = trace w ++ tr'
    /\ (requests_in tr' <= Z.to_nat max_retries)%nat
    /\ Forall (own_event (with_mailto url mailto)) tr'
    /\ pending w = used ++ pending (api_get url sleep_s max_retries mailto w).2
    /\ (length used <= requests_in tr')%nat.
Proof. unfold api_get. apply api_get_loop_trace. Qed.

Lemma api_get_loop_ok_status (u : string) (sleep_s : Q) :
  forall (n : nat) (b : Q) (r0 : option response) (w w' : world)
         (r : response),
    api_get_loop n u sleep_s b r0 w = (Ok r, w') ->
    status_code r = 200 \/ unhandled_status (status_code r) = true.
Proof.
  induction n as [|n IH]; intros b r0 w w' r H.
  - destruct r0 as [r1|]; simpl in H; [|discriminate H].
    rewrite M_bind_unfold in H. unfold raise_for_status in H.
    destruct ((400 <=? status_code r1) && (status_code r1 <? 600)) eqn:E;
      simpl in H; [discriminate H|].
    injection H as <- _. unfold unhandled_status. rewrite E.
    destruct (status_code r1 =? 200) eqn:E2.
    + left. apply Z.eqb_eq. exact E2.
    + right. reflexivity.
  - simpl in H. rewrite M_bind_unfold in H.
    unfold requests_get in H. rewrite M_bind_unfold in H. simpl in H.
    destruct (pending w) as [|[r1|e] rest]; simpl in H; try discriminate H.
    destruct (status_code r1 =? 200) eqn:E200.
    + rewrite M_bind_unfold in H.
      destruct (Qltb 0 sleep_s); simpl in H.
      * unfold time_sleep in H. destruct (Qltb sleep_s 0); simpl in H;
          [discriminate H|].
        injection H as <- _. left. apply Z.eqb_eq. exact E200.
      * injection H as <- _. left. apply Z.eqb_eq. exact E200.
    + destruct (retryable (status_code r1)).
      * rewrite M_bind_unfold in H. unfold time_sleep in H.
        destruct (Qltb b 0); simpl in H; [discriminate H|].
        exact (IH _ _ _ _ _ H).
      * rewrite M_bind_unfold in H. unfold raise_for_status in H.
        destruct (_ && _); simpl in H; [discriminate H|].
        exact (IH _ _ _ _ _ H).
Qed.

(** X2. A response that [api_get] returns is never an error response:
    its status is 200, or one the function does not handle at all
    (neither 200 nor in 400..599); in particular it is none of the
    retryable statuses. *)
Theorem api_get_returns_no_error_response
    (url : string) (sleep_s : Q) (max_retries : Z) (mailto : option string)
    (w w' : world) (r : response) :
  api_get url sleep_s max_retries mailto w = (Ok r, w') ->
  (status_code r = 200 \/ unhandled_status (status_code r) = true)
  /\ ~ (400 <= status_code r < 600)
  /\ retryable (status_code r) = false.
Proof.
  intros H. apply api_get_loop_ok_status in H.
  assert (Hne : ~ (400 <= status_code r < 600)).
  { destruct H as [H|H]; [lia|].
    unfold unhandled_status in H. apply andb_true_iff in H as [_ H].
    apply negb_true_iff, andb_false_iff in H.
    destruct H as [H|H]; [apply Z.leb_gt in H|apply Z.ltb_ge in H]; lia. }
  split; [exact H|]. split; [exact Hne|].
  destruct (retryable (status_code r)) eqn:E; [|reflexivity].
  exfalso. apply Hne. apply retryable_is_error in E.
  apply andb_true_iff in E as [E1 E2].
  apply Z.leb_le in E1. apply Z.ltb_lt in E2. lia.
Qed.

Lemma api_get_returns_no_error_response_witness :
  retryable
    (status_code
       (match (api_get "https://api.openalex.org/sources/S1" (6 # 10) 5 None
                 (mk_world [status_only 503; status_only 200] [])).1 with
        | Ok r => r
        | Raise _ => mk_response 503 None
        end)) = false.
Proof.
  refine (proj2 (proj2 (api_get_returns_no_error_response
            "https://api.openalex.org/sources/S1" (6 # 10) 5 None
            (mk_world [status_only 503; status_only 200] []) _ _ _))).
  vm_compute. reflexivity.
Defined.

Lemma unhandled_not_200 (status : Z) :
  unhandled_status status = true ->
  (status =? 200) = false /\ retryable status = false
  /\ (400 <=? status) && (status <? 600) = false.
Proof.
  unfold unhandled_status. intros H. apply andb_true_iff in H as [H1 H2].
  apply negb_true_iff in H1. apply negb_true_iff in H2.
  split; [exact H1|]. split; [|exact H2].
  destruct (retryable status) eqn:E; [|reflexivity].
  apply retryable_is_error in E. congruence.
Qed.

Lemma api_get_loop_unhandled u sleep_s rest :
  forall (pre : list response) (b : Q) (r0 : option response)
         (tr : list event) (r : response),
    Forall (fun x => unhandled_status (status_code x) = true) pre ->
    (forall x, r0 = Some x -> unhandled_status (status_code x) = true) ->
    last (option_list r0 ++ pre) = Some r ->
    api_get_loop (length pre) u sleep_s b r0
      (mk_world (map Respond pre ++ rest) tr)
    = (Ok r, mk_world rest (tr ++ repeat (Request u) (length pre))).
Proof.
  induction pre as [|x pre IH]; intros b r0 tr r Hpre Hr0 Hlast.
  - destruct r0 as [x|]; [|discriminate Hlast].
    simpl in Hlast. injection Hlast as ->.
    simpl. rewrite M_bind_unfold. unfold raise_for_status.
    destruct (unhandled_not_200 _ (Hr0 r eq_refl)) as (_ & _ & ->).
    simpl. rewrite app_nil_r. reflexivity.
  - inversion Hpre as [|? ? Hx Hpre']; subst.
    destruct (unhandled_not_200 _ Hx) as (H200 & Hretry & Herr).
    cbn [length map]. rewrite <- app_comm_cons.
    cbn [api_get_loop]. rewrite M_bind_unfold, requests_get_respond.
    rewrite H200, Hretry, M_bind_unfold. unfold raise_for_status.
    rewrite Herr. simpl.
    rewrite (IH b (Some x) (tr ++ [Request u]) r Hpre').
    + rewrite <- app_assoc. reflexivity.
    + intros y Hy. injection Hy as <-. exact Hx.
    + simpl. destruct r0 as [y|]; simpl in Hlast.
      * destruct pre; [exact Hlast|exact Hlast].
      * exact Hlast.
Qed.

(** X3. A status that is neither 200, nor retryable, nor in 400..599
    (204 or 302, say) is neither accepted nor waited for: when every
    answer has such a status, [api_get] sends all [max_retries] requests
    back to back, sleeps not once, and hands back the last response as
    if it had succeeded. *)
Theorem api_get_unhandled_status
    (url : string) (sleep_s : Q) (max_retries : Z) (mailto : option string)
    (pre : list response) (r : response) (rest : list outcome)
    (tr : list event) :
  Forall (fun x => unhandled_status (status_code x) = true) pre ->
  Z.of_nat (length pre) = max_retries ->
  last pre = Some r ->
  api_get url sleep_s max_retries mailto
    (mk_world (map Respond pre ++ rest) tr)
  = (Ok r,
     mk_world rest
       (tr ++ repeat (Request (with_mailto url mailto)) (length pre)))
  /\ sleeps_in (repeat (Request (with_mailto url mailto)) (length pre)) = O.
Proof.
  intros Hpre Hlen Hlast. split.
  - unfold api_get. replace (Z.to_nat max_retries) with (length pre) by lia.
    apply api_get_loop_unhandled; [exact Hpre|discriminate|exact Hlast].
  - clear. induction (length pre) as [|k IH]; [reflexivity|exact IH].
Qed.

Lemma api_get_unhandled_status_witness :
  api_get "https://api.openalex.org/sources/S1" (6 # 10) 2 None
    (mk_world [status_only 204; status_only 302; status_only 200] [])
  = (Ok (mk_response 302 None),
     mk_world [status_only 200]
       [Request "https://api.openalex.org/sources/S1";
        Request "https://api.openalex.org/sources/S1"]).
Proof.
  apply (proj1 (api_get_unhandled_status
                  "https://api.openalex.org/sources/S1" (6 # 10) 2 None
                  [mk_response 204 None; mk_response 302 None]
                  (mk_response 302 None) [status_only 200] []
                  ltac:(repeat constructor) eq_refl eq_refl)).
Defined.

Lemma retries_then_transport_failure u sleep_s rest (e : transport_error) :
  forall (pre : list response) (n : nat) (b : Q) (r0 : option response)
         (tr : list event),
    Forall (fun x => retryable (status_code x) = true) pre ->
    (length pre < n)%nat ->
    (0 <= b)%Q ->
    exists tr',
      api_get_loop n u sleep_s b r0
        (mk_world (map Respond pre ++ Fail e :: rest) tr)
      = (Raise (transport_exn e), mk_world rest tr')
      /\ requests_in tr' = (requests_in tr + length pre + 1)%nat.
Proof.
  induction pre as [|x pre IH]; intros n b r0 tr Hpre Hn Hb.
  - destruct n as [|n]; [simpl in Hn; lia|].
    exists (tr ++ [Request u]). split; [reflexivity|].
    rewrite requests_in_app. simpl. lia.
  - destruct n as [|n]; [simpl in Hn; lia|].
    inversion Hpre as [|? ? Hx Hpre']; subst.
    simpl map. rewrite <- app_comm_cons.
    rewrite (api_get_loop_retry _ _ _ _ _ _ _ _ Hx Hb).
    destruct (IH n (Float64.mul b Float64.one_point_six) (Some x)
                ((tr ++ [Request u]) ++ [Sleep Backoff b]) Hpre')
      as (tr' & Heq & Hreq).
    + simpl in Hn. lia.
    + apply mul_one_point_six_nonneg. exact Hb.
    + exists tr'. rewrite Heq. split; [reflexivity|].
      rewrite Hreq, !requests_in_app. simpl. lia.
Qed.

(** X4. A failure of the transport (no connection, timeout) is never
    retried: after any number of retryable answers, fewer than
    [max_retries], the exception of the failed request escapes at once,
    after one request per outcome, and the rest of the script is left
    alone. *)
Theorem api_get_transport_failure_not_retried
    (url : string) (sleep_s : Q) (max_retries : Z) (mailto : option string)
    (pre : list response) (e : transport_error) (rest : list outcome)
    (tr : list event) :
  (0 <= sleep_s)%Q ->
  Forall (fun x => retryable (status_code x) = true) pre ->
  Z.of_nat (length pre) < max_retries ->
  exists tr',
    api_get url sleep_s max_retries mailto
      (mk_world (map Respond pre ++ Fail e :: rest) tr)
    = (Raise (transport_exn e), mk_world rest tr')
    /\ requests_in tr' = (requests_in tr + length pre + 1)%nat.
Proof.
  intros Hs Hpre Hlen. unfold api_get.
  apply retries_then_transport_failure; [exact Hpre|lia|exact Hs].
Qed.

Lemma api_get_transport_failure_not_retried_witness :
  (api_get "https://api.openalex.org/sources/S1" (6 # 10) 5 None
     (mk_world [status_only 503; Fail TimedOut; status_only 200] [])).1
  = Raise Timeout.
Proof.
  assert (H0 : (0 <= 6 # 10)%Q) by (unfold Qle; simpl; lia).
  destruct (api_get_transport_failure_not_retried
              "https://api.openalex.org/sources/S1" (6 # 10) 5 None
              [mk_response 503 None] TimedOut [status_only 200] [] H0
              ltac:(repeat constructor) ltac:(simpl; lia))
    as (tr' & Heq & _).
  simpl map in Heq. simpl app in Heq. unfold status_only in *.
  rewrite Heq. reflexivity.
Defined.



(** ** The paginated work iterator *)

Lemma for_each_app {A X} (body : A -> X -> result A) (xs ys : list X) :
  forall a : A,
    for_each body (xs ++ ys) a
    = match for_each body xs a with
      | Ok a' => for_each body ys a'
      | Raise e => Raise e
      end.
Proof.
  induction xs as [|x xs IH]; intros a; [reflexivity|].
  cbn [app for_each]. destruct (body a x) as [a'|e]; cbn [mbind result_bind].
  - apply IH.
  - reflexivity.
Qed.

(** One turn of [while True] on a page served with status 200. *)
Lemma iter_pages_step {A} (fuel : nat) (base_url next_url : string)
    (sleep_s : Q) (mailto : option string) (step : A -> work -> result A)
    (a : A) (p : works_page) (tail : list outcome) (tr : list event) :
  iter_pages (S fuel) base_url next_url sleep_s mailto step a
    (mk_world (page_response p :: tail) tr)
  = match for_each step (page_results p) a with
    | Raise e =>
        (Raise e, mk_world tail (tr ++ page_events sleep_s mailto next_url))
    | Ok a' =>
        match truthy (next_cursor p) with
        | None =>
            (Ok a', mk_world tail (tr ++ page_events sleep_s mailto next_url))
        | Some nxt =>
            iter_pages fuel base_url (cursor_url base_url nxt) sleep_s mailto
              step a'
              (mk_world tail (tr ++ page_events sleep_s mailto next_url))
        end
    end.
Proof.
  cbn [iter_pages]. rewrite M_bind_unfold. unfold api_get, page_response.
  change (Z.to_nat default_max_retries) with 5%nat.
  rewrite api_get_loop_success by reflexivity.
  rewrite <- app_assoc. cbn [app].
  rewrite M_bind_unfold. unfold response_json. cbn [body].
  unfold mret, M_ret. cbn [as_works_page]. rewrite M_bind_unfold.
  unfold lift.
  destruct (for_each step (page_results p) a) as [a'|e]; [|reflexivity].
  destruct (truthy (next_cursor p)); reflexivity.
Qed.

Lemma chained_urls (base_url : string) :
  forall (pages : list works_page) (next_url : string),
    chained pages = true ->
    length (page_urls base_url next_url pages) = length pages.
Proof.
  induction pages as [|p pages IH]; intros next_url H; [discriminate H|].
  cbn [chained] in H. cbn [page_urls length]. f_equal.
  destruct pages as [|q ps].
  - destruct (truthy (next_cursor p)) eqn:E; [|reflexivity].
    unfold has_next in H. rewrite E in H. discriminate H.
  - apply andb_true_iff in H as [H1 H2]. unfold has_next in H1.
    destruct (truthy (next_cursor p)) as [nxt|]; [|discriminate H1].
    apply IH. exact H2.
Qed.

Lemma requests_in_page_events (sleep_s : Q) (mailto : option string)
    (urls : list string) :
  requests_in (flat_map (page_events sleep_s mailto) urls) = length urls.
Proof.
  induction urls as [|u urls IH]; [reflexivity|].
  cbn [flat_map]. rewrite requests_in_app, IH. unfold page_events.
  destruct (Qltb 0 sleep_s); reflexivity.
Qed.

Lemma iter_pages_chain {A} (base_url : string) (sleep_s : Q)
    (mailto : option string) (body : A -> work -> result A)
    (rest : list outcome) :
  forall (pages : list works_page) (fuel : nat) (next_url : string) (a : A)
         (tr : list event),
    chained pages = true ->
    (length pages <= fuel)%nat ->
    (iter_pages fuel base_url next_url sleep_s mailto body a
       (mk_world (map page_response pages ++ rest) tr)).1
    = for_each body (concat (map page_results pages)) a
    /\ (is_ok (for_each body (concat (map page_results pages)) a) = true ->
        (iter_pages fuel base_url next_url sleep_s mailto body a
           (mk_world (map page_response pages ++ rest) tr)).2
        = mk_world rest
            (tr ++ flat_map (page_events sleep_s mailto)
                     (page_urls base_url next_url pages))).
Proof.
  induction pages as [|p pages IH]; intros fuel next_url a tr Hc Hfuel;
    [discriminate Hc|].
  destruct fuel as [|fuel]; [simpl in Hfuel; lia|].
  cbn [map app concat]. rewrite iter_pages_step, for_each_app.
  cbn [chained] in Hc. cbn [page_urls flat_map].
  destruct (for_each body (page_results p) a) as [a'|e];
    [|split; [reflexivity|intros H; discriminate H]].
  destruct pages as [|q ps].
  - unfold has_next in Hc.
    destruct (truthy (next_cursor p)); [discriminate Hc|].
    cbn [map concat for_each flat_map]. rewrite app_nil_r.
    split; reflexivity.
  - apply andb_true_iff in Hc as [H1 H2]. unfold has_next in H1.
    destruct (truthy (next_cursor p)) as [nxt|]; [|discriminate H1].
    destruct (IH fuel (cursor_url base_url nxt) a'
                (tr ++ page_events sleep_s mailto next_url) H2)
      as [E1 E2]; [simpl in Hfuel |- *; lia|].
    split; [exact E1|].
    intros Hok. rewrite (E2 Hok), <- app_assoc. reflexivity.
Qed.

(** X6. Served a complete cursor walk (pages with status 200, all but the
    last naming a next cursor), the loop over [iter_works_for_source]
    gives the loop body every work of every page, in page order; when the
    body raises nowhere it sends exactly one request per page, the first
    for the base URL and each later one for the base URL with the
    previous page's cursor spliced in, and leaves the rest of the script
    untouched. *)
Theorem iter_works_for_source_walks_the_pages {A : Type}
    (sid : string) (date_from date_to : option string) (sleep_s : Q)
    (mailto : option string) (select_fields : string)
    (use_primary_location use_host_venue : bool)
    (body : A -> work -> result A) (a : A)
    (pages : list works_page) (rest : list outcome) (tr : list event) :
  chained pages = true ->
  (iter_works_for_source sid date_from date_to sleep_s mailto select_fields
     use_primary_location use_host_venue body a
     (mk_world (map page_response pages ++ rest) tr)).1
  = for_each body (concat (map page_results pages)) a
  /\ (forall a' : A,
        for_each body (concat (map page_results pages)) a = Ok a' ->
        exists urls : list string,
          urls = page_urls
                   (works_base_url sid date_from date_to select_fields
                      use_primary_location use_host_venue)
                   (works_base_url sid date_from date_to select_fields
                      use_primary_location use_host_venue) pages
          /\ length urls = length pages
          /\ iter_works_for_source sid date_from date_to sleep_s mailto
               select_fields use_primary_location use_host_venue body a
               (mk_world (map page_response pages ++ rest) tr)
             = (Ok a',
                mk_world rest
                  (tr ++ flat_map (page_events sleep_s mailto) urls))
          /\ requests_in (flat_map (page_events sleep_s mailto) urls)
             = length pages).
Proof.
  intros Hc. unfold iter_works_for_source. cbn [pending].
  set (base := works_base_url _ _ _ _ _ _).
  destruct (iter_pages_chain base sleep_s mailto body rest pages
              (S (length (map page_response pages ++ rest))) base a tr Hc)
    as [E1 E2].
  { rewrite length_app, length_map. lia. }
  split; [exact E1|].
  intros a' Ha. exists (page_urls base base pages).
  split; [reflexivity|]. split; [apply chained_urls; exact Hc|].
  rewrite Ha in E1, E2. specialize (E2 eq_refl).
  split.
  - destruct (iter_pages _ _ _ _ _ _ _ _) as [res w1].
    simpl in E1, E2. subst. reflexivity.
  - rewrite requests_in_page_events. apply chained_urls. exact Hc.
Qed.

Lemma iter_works_for_source_walks_the_pages_witness :
  (iter_works_for_source "S1" None None (0 # 1) None
     "publication_date,cited_by_count" true false
     (monthly_step IsoDate.fromisoformat "S1") empty_acc
     (mk_world
        (map page_response
           [mk_page [mk_work (Some "2021-03-04") (Some 2)] (Some "c1");
            mk_page [mk_work (Some "2021-03") None] None]
         ++ [])
        [])).1
  = for_each (monthly_step IsoDate.fromisoformat "S1")
      [mk_work (Some "2021-03-04") (Some 2); mk_work (Some "2021-03") None]
      empty_acc.
Proof.
  apply (proj1 (iter_works_for_source_walks_the_pages
                  "S1" None None (0 # 1) None
                  "publication_date,cited_by_count" true false
                  (monthly_step IsoDate.fromisoformat "S1") empty_acc
                  [mk_page [mk_work (Some "2021-03-04") (Some 2)] (Some "c1");
                   mk_page [mk_work (Some "2021-03") None] None]
                  [] [] eq_refl)).
Defined.

Lemma iter_pages_abort {A} (base_url : string) (sleep_s : Q)
    (mailto : option string) (body : A -> work -> result A)
    (p : works_page) (tail : list outcome) (e : exn) :
  forall (pre : list works_page) (fuel : nat) (next_url : string)
         (a a1 : A) (tr : list event),
    Forall (fun q => has_next q = true) pre ->
    (length pre < fuel)%nat ->
    for_each body (concat (map page_results pre)) a = Ok a1 ->
    for_each body (page_results p) a1 = Raise e ->
    iter_pages fuel base_url next_url sleep_s mailto body a
      (mk_world (map page_response (pre ++ [p]) ++ tail) tr)
    = (Raise e,
       mk_world tail
         (tr ++ flat_map (page_events sleep_s mailto)
                  (page_urls base_url next_url (pre ++ [p])))).
Proof.
  induction pre as [|q pre IH]; intros fuel next_url a a1 tr Hpre Hfuel Ha Hp;
    (destruct fuel as [|fuel]; [simpl in Hfuel; lia|]).
  - simpl in Ha. injection Ha as <-.
    cbn [map app]. rewrite iter_pages_step, Hp.
    cbn [page_urls flat_map].
    destruct (truthy (next_cursor p)); cbn [flat_map];
      rewrite app_nil_r; reflexivity.
  - inversion Hpre as [|? ? Hq Hpre']; subst.
    cbn [map app concat] in *. rewrite for_each_app in Ha.
    rewrite iter_pages_step. cbn [page_urls flat_map].
    destruct (for_each body (page_results q) a) as [a'|e'];
      [|discriminate Ha].
    unfold has_next in Hq.
    destruct (truthy (next_cursor q)) as [nxt|]; [|discriminate Hq].
    rewrite (IH fuel (cursor_url base_url nxt) a' a1
               (tr ++ page_events sleep_s mailto next_url) Hpre');
      [|simpl in Hfuel; lia|exact Ha|exact Hp].
    rewrite <- app_assoc. reflexivity.
Qed.

Lemma has_next_urls (base_url : string) (p : works_page) :
  forall (pre : list works_page) (next_url : string),
    Forall (fun q => has_next q = true) pre ->
    length (page_urls base_url next_url (pre ++ [p])) = S (length pre).
Proof.
  induction pre as [|q pre IH]; intros next_url Hpre.
  - cbn [app page_urls]. destruct (truthy (next_cursor p)); reflexivity.
  - inversion Hpre as [|? ? Hq Hpre']; subst.
    cbn [app page_urls length]. unfold has_next in Hq.
    destruct (truthy (next_cursor q)) as [nxt|]; [|discriminate Hq].
    f_equal. apply IH. exact Hpre'.
Qed.

(** X7. The works are streamed: when the loop body raises on a work of
    some page, that exception escapes, the pages after it are never
    requested (their answers stay in the script), and the requests sent
    are exactly one per page up to the failing one. *)
Theorem iter_works_for_source_stops_at_exception {A : Type}
    (sid : string) (date_from date_to : option string) (sleep_s : Q)
    (mailto : option string) (select_fields : string)
    (use_primary_location use_host_venue : bool)
    (body : A -> work -> result A) (a a1 : A) (e : exn)
    (pre : list works_page) (p : works_page) (post : list works_page)
    (rest : list outcome) (tr : list event) :
  Forall (fun q => has_next q = true) pre ->
  for_each body (concat (map page_results pre)) a = Ok a1 ->
  for_each body (page_results p) a1 = Raise e ->
  exists urls : list string,
    urls = page_urls
             (works_base_url sid date_from date_to select_fields
                use_primary_location use_host_venue)
             (works_base_url sid date_from date_to select_fields
                use_primary_location use_host_venue) (pre ++ [p])
    /\ length urls = S (length pre)
    /\ iter_works_for_source sid date_from date_to sleep_s mailto
         select_fields use_primary_location use_host_venue body a
         (mk_world (map page_response (pre ++ p :: post) ++ rest) tr)
       = (Raise e,
          mk_world (map page_response post ++ rest)
            (tr ++ flat_map (page_events sleep_s mailto) urls)).
Proof.
  intros Hpre Ha Hp. unfold iter_works_for_source. cbn [pending].
  set (base := works_base_url _ _ _ _ _ _).
  exists (page_urls base base (pre ++ [p])).
  split; [reflexivity|]. split; [apply has_next_urls; exact Hpre|].
  replace (map page_response (pre ++ p :: post) ++ rest)
    with (map page_response (pre ++ [p]) ++ (map page_response post ++ rest)).
  - apply (iter_pages_abort base sleep_s mailto body p _ e pre _ base a a1 tr
             Hpre); [|exact Ha|exact Hp].
    rewrite length_app, length_map, length_app. simpl. lia.
  - rewrite !map_app, <- !app_assoc. reflexivity.
Qed.

Lemma iter_works_for_source_stops_at_exception_witness :
  exists tr' : list event,
    iter_works_for_source "S1" None None (0 # 1) None
      "publication_date,cited_by_count" true false
      (monthly_step IsoDate.fromisoformat "S1") empty_acc
      (mk_world
         (map page_response
            ([mk_page [mk_work (Some "2021-03-04") (Some 2)] (Some "c1")]
             ++ mk_page [mk_work (Some "2021-xx") None] (Some "c2")
             :: [mk_page [mk_work (Some "2021-05") None] None])
          ++ [])
         [])
    = (Raise Py.int_error,
       mk_world
         (map page_response [mk_page [mk_work (Some "2021-05") None] None]
          ++ [])
         ([] ++ tr')).
Proof.
  destruct (iter_works_for_source_stops_at_exception
              "S1" None None (0 # 1) None
              "publication_date,cited_by_count" true false
              (monthly_step IsoDate.fromisoformat "S1") empty_acc
              (match monthly_step IsoDate.fromisoformat "S1" empty_acc
                       (mk_work (Some "2021-03-04") (Some 2)) with
               | Ok x => x
               | Raise _ => empty_acc
               end) Py.int_error
              [mk_page [mk_work (Some "2021-03-04") (Some 2)] (Some "c1")]
              (mk_page [mk_work (Some "2021-xx") None] (Some "c2"))
              [mk_page [mk_work (Some "2021-05") None] None]
              [] [] ltac:(repeat constructor) ltac:(vm_compute; reflexivity)
              ltac:(vm_compute; reflexivity))
    as (urls & _ & _ & H).
  eexists. exact H.
Defined.

(** ** What the accumulators keep *)

Lemma upsert_fst {V} (k : string) (d : V) (f : V -> V)
    (l : list (string * V)) :
  map fst (ODict.upsert k d f l)
  = if bool_decide (k ∈ map fst l) then map fst l else map fst l ++ [k].
Proof.
  induction l as [|[k' v] l IH]; [reflexivity|].
  cbn [ODict.upsert map fst].
  destruct (String.eqb k k') eqn:E.
  - apply String.eqb_eq in E. subst k'.
    rewrite bool_decide_eq_true_2 by left. reflexivity.
  - apply String.eqb_neq in E. cbn [map fst]. rewrite IH.
    destruct (bool_decide (k ∈ map fst l)) eqn:B.
    + apply bool_decide_eq_true_1 in B.
      rewrite bool_decide_eq_true_2 by (right; exact B). reflexivity.
    + apply bool_decide_eq_false_1 in B.
      rewrite bool_decide_eq_false_2; [reflexivity|].
      intros H. apply elem_of_cons in H as [H|H]; [congruence|auto].
Qed.

Lemma upsert_NoDup {V} (k : string) (d : V) (f : V -> V)
    (l : list (string * V)) :
  NoDup (map fst l) -> NoDup (map fst (ODict.upsert k d f l)).
Proof.
  intros H. rewrite upsert_fst.
  destruct (bool_decide (k ∈ map fst l)) eqn:B; [exact H|].
  apply bool_decide_eq_false_1 in B.
  apply NoDup_app. split; [exact H|]. split.
  - intros x Hx Hk. apply list_elem_of_singleton in Hk. subst x. auto.
  - apply NoDup_singleton.
Qed.

(** Where an entry of an updated dict comes from. *)
Lemma upsert_elem_inv {V} (k : string) (d : V) (f : V -> V)
    (l : list (string * V)) (k' : string) (v' : V) :
  (k', v') ∈ ODict.upsert k d f l ->
  (k', v') ∈ l
  \/ (k' = k /\ exists v, v' = f v /\ (v = d \/ (k, v) ∈ l)).
Proof.
  induction l as [|[k0 v0] l IH]; cbn [ODict.upsert]; intros H.
  - apply list_elem_of_singleton in H. injection H as -> ->.
    right. split; [reflexivity|]. exists d. auto.
  - destruct (String.eqb k k0) eqn:E.
    + apply String.eqb_eq in E. subst k0.
      apply elem_of_cons in H as [H|H].
      * injection H as -> ->. right. split; [reflexivity|].
        exists v0. split; [reflexivity|]. right. left.
      * left. right. exact H.
    + apply elem_of_cons in H as [H|H].
      * injection H as -> ->. left. left.
      * destruct (IH H) as [Hl|(-> & v & -> & [->|Hv])].
        -- left. right. exact Hl.
        -- right. split; [reflexivity|]. exists d. auto.
        -- right. split; [reflexivity|]. exists v.
           split; [reflexivity|]. right. right. exact Hv.
Qed.

Lemma upsert_elem_other {V} (k : string) (d : V) (f : V -> V)
    (l : list (string * V)) (k' : string) (v' : V) :
  k' <> k -> (k', v') ∈ l -> (k', v') ∈ ODict.upsert k d f l.
Proof.
  intros Hne. induction l as [|[k0 v0] l IH]; intros H; [inversion H|].
  cbn [ODict.upsert]. destruct (String.eqb k k0) eqn:E.
  - apply String.eqb_eq in E. subst k0.
    apply elem_of_cons in H as [H|H]; [congruence|right; exact H].
  - apply elem_of_cons in H as [H|H]; [rewrite H; left|right; auto].
Qed.

Lemma upsert_elem_same {V} (k : string) (d : V) (f : V -> V)
    (l : list (string * V)) (v : V) :
  NoDup (map fst l) -> (k, v) ∈ l -> (k, f v) ∈ ODict.upsert k d f l.
Proof.
  induction l as [|[k0 v0] l IH]; intros Hnd H; [inversion H|].
  cbn [map fst] in Hnd. apply NoDup_cons in Hnd as [Hk0 Hnd].
  cbn [ODict.upsert]. destruct (String.eqb k k0) eqn:E.
  - apply String.eqb_eq in E. subst k0.
    apply elem_of_cons in H as [H|H].
    + injection H as ->. left.
    + exfalso. apply Hk0. apply list_elem_of_fmap. exists (k, v).
      split; [reflexivity|exact H].
  - apply String.eqb_neq in E.
    apply elem_of_cons in H as [H|H]; [congruence|right; auto].
Qed.

Lemma upsert_elem_new {V} (k : string) (d : V) (f : V -> V)
    (l : list (string * V)) :
  exists v, (k, f v) ∈ ODict.upsert k d f l.
Proof.
  induction l as [|[k0 v0] l IH]; cbn [ODict.upsert].
  - exists d. left.
  - destruct (String.eqb k k0) eqn:E.
    + apply String.eqb_eq in E. subst k0. exists v0. left.
    + destruct IH as [v Hv]. exists v. right. exact Hv.
Qed.

Lemma get_elem {V} (k : string) (v : V) (l : list (string * V)) :
  ODict.get k l = Some v -> (k, v) ∈ l.
Proof.
  induction l as [|[k0 v0] l IH]; cbn [ODict.get]; intros H;
    [discriminate H|].
  destruct (String.eqb k k0) eqn:E.
  - apply String.eqb_eq in E. subst k0. injection H as ->. left.
  - right. auto.
Qed.

Lemma get_of_elem {V} (k : string) (v : V) (l : list (string * V)) :
  NoDup (map fst l) -> (k, v) ∈ l -> ODict.get k l = Some v.
Proof.
  induction l as [|[k0 v0] l IH]; intros Hnd H; [inversion H|].
  cbn [map fst] in Hnd. apply NoDup_cons in Hnd as [Hk0 Hnd].
  cbn [ODict.get]. destruct (String.eqb k k0) eqn:E.
  - apply String.eqb_eq in E. subst k0.
    apply elem_of_cons in H as [H|H]; [injection H as ->; reflexivity|].
    exfalso. apply Hk0. apply list_elem_of_fmap. exists (k, v).
    split; [reflexivity|exact H].
  - apply String.eqb_neq in E.
    apply elem_of_cons in H as [H|H]; [congruence|auto].
Qed.

(** Writing one cell for a named source keeps a dict tidy. *)
Lemma tidy_upsert (data : list (string * gmap string bucket))
    (names : gmap string string) (seen : gset string)
    (sid k : string) (g : gmap string bucket -> bucket) :
  tidy data names seen ->
  is_Some (names !! sid) ->
  tidy (ODict.upsert sid ∅ (fun m => <[k := g m]> m) data) names
       ({[ k ]} ∪ seen).
Proof.
  intros (Hnd & Hin & Hseen) Hname. split; [|split].
  - apply upsert_NoDup. exact Hnd.
  - intros s m Hm.
    apply upsert_elem_inv in Hm as [Hm|(-> & v & -> & Hv)].
    + destruct (Hin s m Hm) as (H1 & H2 & H3).
      split; [exact H1|]. split; [exact H2|].
      intros j Hj. apply elem_of_union_r. exact (H3 j Hj).
    + split; [exact Hname|]. split.
      * intros He. apply (f_equal (fun x => x !! k)) in He.
        rewrite lookup_insert_eq, lookup_empty in He. discriminate He.
      * intros j Hj. destruct (decide (j = k)) as [->|Hne];
          [apply elem_of_union_l, elem_of_singleton; reflexivity|].
        rewrite lookup_insert_ne in Hj by congruence.
        apply elem_of_union_r.
        destruct Hv as [->|Hv].
        -- rewrite lookup_empty in Hj. destruct Hj as [? Hj].
           discriminate Hj.
        -- destruct (Hin sid v Hv) as (_ & _ & H3). exact (H3 j Hj).
  - intros j Hj. apply elem_of_union in Hj as [Hj|Hj].
    + apply elem_of_singleton in Hj. subst j.
      destruct (upsert_elem_new sid ∅ (fun m => <[k := g m]> m) data)
        as [v Hv].
      exists sid, (<[k := g v]> v). split; [exact Hv|].
      rewrite lookup_insert_eq. eauto.
    + destruct (Hseen j Hj) as (s & m & Hm & Hmj).
      destruct (decide (s = sid)) as [->|Hne].
      * exists sid, (<[k := g m]> m). split.
        -- apply (upsert_elem_same sid ∅ (fun m => <[k := g m]> m) data m
                    Hnd Hm).
        -- destruct (decide (j = k)) as [->|Hjk];
             [rewrite lookup_insert_eq; eauto|].
           rewrite lookup_insert_ne by congruence. exact Hmj.
      * exists s, m. split; [|exact Hmj].
        apply upsert_elem_other; assumption.
Qed.

Lemma tidy_named (data : list (string * gmap string bucket))
    (names : gmap string string) (seen : gset string) (sid name : string) :
  tidy data names seen -> tidy data (<[sid := name]> names) seen.
Proof.
  intros (Hnd & Hin & Hseen). split; [exact Hnd|]. split; [|exact Hseen].
  intros s m Hm. destruct (Hin s m Hm) as (H1 & H2 & H3).
  split; [|split; assumption].
  destruct (decide (s = sid)) as [->|Hne].
  - rewrite lookup_insert_eq. eauto.
  - rewrite lookup_insert_ne by congruence. exact H1.
Qed.

Lemma yearly_row_consistent (source_id : string) (a : accumulators)
    (row : count_row) :
  consistent a -> is_Some (sid_to_name a !! source_id) ->
  consistent (yearly_row source_id a row)
  /\ sid_to_name (yearly_row source_id a row) = sid_to_name a.
Proof.
  intros [Hy Hm] Hname. unfold yearly_row.
  destruct (Py.isdigit (str_year (row_year row)));
    [|split; [split; assumption|reflexivity]].
  split; [|reflexivity]. split; [|exact Hm].
  cbn [yearly_data sid_to_name years_seen].
  rewrite (upsert_ext _ _ _
             (fun m => <[str_year (row_year row)
                         := mk_bucket (int_or_0 (row_works_count row))
                              (int_or_0 (row_cited_by_count row))]> m))
    by (intros m; apply write_year_insert).
  apply (tidy_upsert _ _ _ _ _ (fun _ => mk_bucket _ _) Hy Hname).
Qed.

Lemma yearly_update_consistent (source_id : string) (rows : list count_row) :
  forall a : accumulators,
    consistent a -> is_Some (sid_to_name a !! source_id) ->
    consistent (yearly_update source_id rows a)
    /\ sid_to_name (yearly_update source_id rows a) = sid_to_name a.
Proof.
  unfold yearly_update.
  induction rows as [|row rows IH]; intros a Ha Hname; [split; auto|].
  cbn [fold_left].
  destruct (yearly_row_consistent source_id a row Ha Hname) as [H1 H2].
  destruct (IH (yearly_row source_id a row) H1) as [H3 H4];
    [rewrite H2; exact Hname|].
  split; [exact H3|]. rewrite H4. exact H2.
Qed.

Lemma monthly_step_consistent (parser : string -> option datetime)
    (source_id : string) (a a' : accumulators) (w : work) :
  consistent a /\ is_Some (sid_to_name a !! source_id) ->
  monthly_step parser source_id a w = Ok a' ->
  consistent a' /\ is_Some (sid_to_name a' !! source_id).
Proof.
  intros [[Hy Hm] Hname]. unfold monthly_step.
  destruct (iso_to_year_month parser (publication_date w)) as [[k|]|e];
    cbn [mbind result_bind]; intros H; try discriminate H.
  - destruct (Py.is_empty k); injection H as <-;
      [split; [split; assumption|exact Hname]|].
    split; [|exact Hname]. split; [exact Hy|].
    cbn [monthly_data sid_to_name months_seen].
    rewrite (upsert_ext _ _ _
               (fun m => <[k := bump (int_or_0 (cited_by_count w))
                                  (default zero_bucket (m !! k))]> m))
      by (intros m; apply setdefault_alter_tick).
    apply (tidy_upsert _ _ _ _ _
             (fun m => bump _ (default zero_bucket (m !! k))) Hm Hname).
  - injection H as <-. split; [split; assumption|exact Hname].
Qed.

Lemma for_each_invariant {A X} (P : A -> Prop) (body : A -> X -> result A) :
  (forall a x a', P a -> body a x = Ok a' -> P a') ->
  forall (xs : list X) (a a' : A),
    P a -> for_each body xs a = Ok a' -> P a'.
Proof.
  intros Hbody. induction xs as [|x xs IH]; intros a a' Ha H.
  - injection H as <-. exact Ha.
  - cbn [for_each] in H. destruct (body a x) as [a1|e] eqn:E;
      cbn [mbind result_bind] in H; [|discriminate H].
    exact (IH a1 a' (Hbody a x a1 Ha E) H).
Qed.

(** Whatever the loop body keeps true, the whole walk keeps true. *)
Lemma iter_pages_invariant {A} (P : A -> Prop)
    (step : A -> work -> result A) (base_url : string) (sleep_s : Q)
    (mailto : option string) :
  (forall a x a', P a -> step a x = Ok a' -> P a') ->
  forall (fuel : nat) (next_url : string) (a a' : A) (w w' : world),
    P a ->
    iter_pages fuel base_url next_url sleep_s mailto step a w = (Ok a', w') ->
    P a'.
Proof.
  intros Hstep. induction fuel as [|fuel IH];
    intros next_url a a' w w' Ha H; [discriminate H|].
  cbn [iter_pages] in H.
  apply M_bind_ok_inv in H as (r & w1 & _ & H).
  apply M_bind_ok_inv in H as (p & w2 & _ & H).
  apply M_bind_ok_inv in H as (a1 & w3 & Hloop & H).
  unfold lift in Hloop.
  destruct (for_each step (page_results (as_works_page p)) a) as [a2|e] eqn:E;
    [|discriminate Hloop].
  injection Hloop as -> _.
  pose proof (for_each_invariant P step Hstep _ _ _ Ha E) as Ha1.
  destruct (truthy (next_cursor (as_works_page p))) as [nxt|].
  - exact (IH _ _ _ _ _ Ha1 H).
  - injection H as <- _. exact Ha1.
Qed.

Section Kept.

Variable parser : string -> option datetime.
Variables (sleep_s : Q) (mailto date_from date_to : option string).
Variables (use_primary_location use_host_venue monthly_enabled : bool).

Lemma process_source_consistent (a a' : accumulators) (sid : string)
    (w w' : world) :
  consistent a ->
  process_source parser sleep_s mailto date_from date_to
    use_primary_location use_host_venue monthly_enabled a sid w = (Ok a', w') ->
  consistent a'.
Proof.
  intros [Hy Hm] H. unfold process_source in H.
  apply M_bind_ok_inv in H as (src & w1 & _ & H).
  set (source_id := source_id_of src) in *.
  set (a1 := mk_acc (yearly_data a) (monthly_data a)
               (<[source_id := src_display_name src]> (sid_to_name a))
               (years_seen a) (months_seen a)) in *.
  assert (H1 : consistent a1) by (split; apply tidy_named; assumption).
  assert (N1 : is_Some (sid_to_name a1 !! source_id))
    by (cbn [a1 sid_to_name]; rewrite lookup_insert_eq; eauto).
  destruct (yearly_update_consistent source_id (src_counts_by_year src) a1
              H1 N1) as [H2 N2].
  destruct monthly_enabled.
  - unfold iter_works_for_source in H.
    refine (proj1 (iter_pages_invariant
              (fun x => consistent x /\ is_Some (sid_to_name x !! source_id))
              (monthly_step parser source_id) _ sleep_s mailto
              (fun x y z => monthly_step_consistent parser source_id x z y)
              _ _ _ _ _ _ _ H)).
    split; [exact H2|]. rewrite N2. exact N1.
  - injection H as <- _. exact H2.
Qed.

Lemma process_all_consistent (sids : list string) :
  forall (a a' : accumulators) (w w' : world),
    consistent a ->
    process_all parser sleep_s mailto date_from date_to
      use_primary_location use_host_venue monthly_enabled sids a w
    = (Ok a', w') ->
    consistent a'.
Proof.
  induction sids as [|sid sids IH]; intros a a' w w' Ha H.
  - injection H as <- _. exact Ha.
  - cbn [process_all] in H.
    apply M_bind_ok_inv in H as (a1 & w1 & Hone & H).
    exact (IH _ _ _ _ (process_source_consistent _ _ _ _ _ Ha Hone) H).
Qed.

Lemma empty_acc_consistent : consistent empty_acc.
Proof.
  split; (split; [apply NoDup_nil_2|]; split;
          [intros s m H; inversion H|intros k H; set_solver]).
Qed.

(** X8. The accumulators of a build that completes are consistent. The
    yearly and the monthly dict each hold one entry per source; every
    such source has its display name recorded, so the empty default of
    the name lookup of the wide tables is never used; no source has an
    empty inner dict; and a year (month) is a column of the wide table
    exactly when some source has a bucket for it. *)
Theorem build_keeps_accumulators_consistent
    (sel : list (string * list string)) (w w' : world) (out : build_output) :
  build_zip_from_selection parser sleep_s mailto date_from date_to
    use_primary_location use_host_venue monthly_enabled sel w = (Ok out, w') ->
  consistent (final out)
  /\ (forall sid m, (sid, m) ∈ monthly_data (final out) ->
        exists name, sid_to_name (final out) !! sid = Some name)
  /\ (forall k, In k (months_sorted (final out)) <->
        exists sid b, bucket_at (monthly_data (final out)) sid k = Some b).
Proof.
  intros H. apply build_ok_inv in H as (_ & a & Hall & ->). cbn [final].
  pose proof (process_all_consistent _ _ _ _ _ empty_acc_consistent Hall)
    as Ha.
  split; [exact Ha|]. destruct Ha as [_ (Hnd & Hin & Hseen)].
  split.
  - intros sid m Hm. destruct (Hin sid m Hm) as ([name Hn] & _). eauto.
  - intros k. rewrite months_sorted_In. split.
    + intros Hk. destruct (Hseen k Hk) as (sid & m & Hm & [b Hb]).
      exists sid, b. unfold bucket_at.
      rewrite (get_of_elem _ _ _ Hnd Hm). exact Hb.
    + intros (sid & b & Hb). unfold bucket_at in Hb.
      destruct (ODict.get sid (monthly_data a)) as [m|] eqn:E;
        [|discriminate Hb].
      apply get_elem in E. destruct (Hin sid m E) as (_ & _ & H3).
      apply H3. cbn in Hb. eauto.
Qed.

End Kept.

Lemma build_keeps_accumulators_consistent_witness :
  consistent (final (output_of (sample_run world_with_works))).
Proof.
  assert (Hrun : sample_run world_with_works
                 = (Ok (output_of (sample_run world_with_works)),
                    (sample_run world_with_works).2))
    by (vm_compute; reflexivity).
  exact (proj1 (build_keeps_accumulators_consistent
                  _ _ _ _ _ _ _ _ _ _ _ _ Hrun)).
Defined.

(** ** Counting the works of a month *)

Lemma bucket_at_default (data : list (string * gmap string bucket))
    (sid k : string) :
  default ∅ (ODict.get sid data) !! k = bucket_at data sid k.
Proof.
  unfold bucket_at. destruct (ODict.get sid data); [reflexivity|].
  apply lookup_empty.
Qed.

Lemma monthly_step_bucket (parser : string -> option datetime)
    (sid : string) (a a' : accumulators) (w : work) (k : string) :
  k <> "" ->
  monthly_step parser sid a w = Ok a' ->
  bucket_at (monthly_data a') sid k
  = (if dated parser k w
     then Some (bump (int_or_0 (cited_by_count w))
                  (default zero_bucket (bucket_at (monthly_data a) sid k)))
     else bucket_at (monthly_data a) sid k)
  /\ forall s j, s <> sid ->
       bucket_at (monthly_data a') s j = bucket_at (monthly_data a) s j.
Proof.
  intros Hk. unfold monthly_step, dated.
  destruct (iso_to_year_month parser (publication_date w)) as [[k'|]|e];
    cbn [mbind result_bind]; intros H; try discriminate H.
  - destruct (Py.is_empty k') eqn:Ee.
    + injection H as <-. apply is_empty_true in Ee. subst k'.
      replace (String.eqb "" k) with false
        by (symmetry; apply String.eqb_neq; congruence).
      split; reflexivity.
    + injection H as <-. cbn [monthly_data]. split.
      * unfold bucket_at at 1. rewrite get_upsert. cbn [mbind option_bind].
        rewrite setdefault_alter_tick. unfold tick.
        destruct (String.eqb k' k) eqn:E.
        -- apply String.eqb_eq in E. subst k'.
           rewrite lookup_insert_eq, bucket_at_default. reflexivity.
        -- apply String.eqb_neq in E.
           rewrite lookup_insert_ne by exact E. apply bucket_at_default.
      * intros s j Hs. unfold bucket_at.
        rewrite get_upsert_ne by exact Hs. reflexivity.
  - injection H as <-. split; reflexivity.
Qed.

(** X9. The monthly loop counts every dated work once. After the loop
    over a stream of works has completed for a source, the bucket of a
    month holds what it held before plus the number of works whose date
    normalises to that month and the sum of their citation counts
    ([null] as 0); a month without such a work keeps its bucket, or stays
    without one; the buckets of all other sources are untouched. *)
Theorem monthly_works_counts_each_work
    (parser : string -> option datetime) (sid : string) (k : string)
    (ws : list work) (a a' : accumulators) :
  k <> "" ->
  monthly_works parser sid ws a = Ok a' ->
  bucket_at (monthly_data a') sid k
  = counted (List.filter (dated parser k) ws)
      (bucket_at (monthly_data a) sid k)
  /\ forall s j, s <> sid ->
       bucket_at (monthly_data a') s j = bucket_at (monthly_data a) s j.
Proof.
  intros Hk. revert a. unfold monthly_works.
  induction ws as [|w ws IH]; intros a H.
  - injection H as <-. split; reflexivity.
  - cbn [for_each] in H.
    destruct (monthly_step parser sid a w) as [a1|e] eqn:E1;
      cbn [mbind result_bind] in H; [|discriminate H].
    destruct (monthly_step_bucket parser sid a a1 w k Hk E1) as [B1 O1].
    destruct (IH a1 H) as [B2 O2].
    split; [|intros s j Hs; rewrite (O2 s j Hs); apply (O1 s j Hs)].
    rewrite B2, B1. cbn [List.filter].
    destruct (dated parser k w); [|reflexivity].
    destruct (List.filter (dated parser k) ws) as [|h hits];
      unfold counted, bump; cbn [default length citations fold_right];
      unfold id; cbn [b_works_count b_cited_by_count];
      apply (f_equal Some); apply f_equal2; lia.
Qed.

Lemma monthly_works_counts_each_work_witness :
  bucket_at
    (monthly_data
       (match monthly_works IsoDate.fromisoformat "S1"
                [mk_work (Some "2021-03-15") (Some 3);
                 mk_work (Some "2021-03") None;
                 mk_work (Some "2020") (Some 5)] empty_acc with
        | Ok x => x
        | Raise _ => empty_acc
        end)) "S1" "2021-03"
  = Some (mk_bucket 2 3).
Proof.
  refine (proj1 (monthly_works_counts_each_work IsoDate.fromisoformat
                   "S1" "2021-03"
                   [mk_work (Some "2021-03-15") (Some 3);
                    mk_work (Some "2021-03") None;
                    mk_work (Some "2020") (Some 5)] empty_acc _ _ _)).
  - discriminate.
  - vm_compute. reflexivity.
Defined.

(** ** Requests for source records *)

Section SourcesOnly.

Variable parser : string -> option datetime.
Variables (sleep_s : Q) (mailto date_from date_to : option string).
Variables (use_primary_location use_host_venue : bool).

Lemma process_source_disabled_trace (a : accumulators) (sid : string)
    (w : world) :
  exists tr' : list event,
    trace (process_source parser sleep_s mailto date_from date_to
             use_primary_location use_host_venue false a sid w).2
    = trace w ++ tr'
    /\ Forall (source_event mailto [sid]) tr'
    /\ (requests_in tr' <= 5)%nat.
Proof.
  unfold process_source, fetch_source. rewrite !M_bind_unfold.
  unfold api_get.
  destruct (api_get_loop_trace
              (with_mailto (OPENALEX_BASE +:+ "/sources/" +:+ sid) mailto)
              sleep_s (Z.to_nat default_max_retries) sleep_s None w)
    as (tr' & used & H1 & H2 & H3 & _).
  exists tr'.
  assert (Hev : Forall (source_event mailto [sid]) tr').
  { eapply Forall_impl; [exact H3|]. intros [u|k d] Hu; [|exact I].
    exists sid. split; [left|exact Hu]. }
  destruct (api_get_loop _ _ _ _ _ w) as [[r|e] w1]; cbn [snd] in *;
    [|split; [exact H1|split; [exact Hev|exact H2]]].
  unfold response_json. destruct (body r) as [p|];
    (split; [exact H1|split; [exact Hev|exact H2]]).
Qed.

Lemma process_all_disabled_trace (sids : list string) :
  forall (a : accumulators) (w : world),
  exists tr' : list event,
    trace (process_all parser sleep_s mailto date_from date_to
             use_primary_location use_host_venue false sids a w).2
    = trace w ++ tr'
    /\ Forall (source_event mailto sids) tr'
    /\ (requests_in tr' <= 5 * length sids)%nat.
Proof.
  induction sids as [|sid sids IH]; intros a w.
  - exists []. cbn. rewrite app_nil_r. repeat split; [constructor|lia].
  - cbn [process_all]. rewrite M_bind_unfold.
    destruct (process_source_disabled_trace a sid w) as (t1 & H1 & H2 & H3).
    assert (Hev : Forall (source_event mailto (sid :: sids)) t1).
    { eapply Forall_impl; [exact H2|]. intros [u|k d] Hu; [|exact I].
      destruct Hu as (s & Hs & ->). exists s. split; [|reflexivity].
      apply list_elem_of_singleton in Hs. subst s. left. }
    destruct (process_source _ _ _ _ _ _ _ _ a sid w) as [[a1|e] w1];
      cbn [snd] in *.
    + destruct (IH a1 w1) as (t2 & G1 & G2 & G3).
      exists (t1 ++ t2). rewrite G1, H1, <- app_assoc.
      split; [reflexivity|]. split.
      * apply Forall_app. split; [exact Hev|].
        eapply Forall_impl; [exact G2|]. intros [u|k d] Hu; [|exact I].
        destruct Hu as (s & Hs & ->). exists s. split; [right; exact Hs|].
        reflexivity.
      * rewrite requests_in_app. cbn [length]. lia.
    + exists t1. split; [exact H1|]. split; [exact Hev|].
      cbn [length]. lia.
Qed.

(** X10. With monthly aggregation disabled a build never asks for works:
    however the server answers and however the build ends, every request
    it sends is for the record of one of the selected sources (with the
    contact parameter), and there are at most five requests per selected
    source. *)
Theorem build_without_monthly_requests_sources_only
    (sel : list (string * list string)) (w : world) :
  exists tr' : list event,
    trace (build_zip_from_selection parser sleep_s mailto date_from date_to
             use_primary_location use_host_venue false sel w).2
    = trace w ++ tr'
    /\ Forall (source_event mailto (chosen_sids sel)) tr'
    /\ (requests_in tr' <= 5 * length (chosen_sids sel))%nat.
Proof.
  unfold build_zip_from_selection.
  destruct (chosen_sids sel) as [|sid sids] eqn:E.
  - exists []. cbn. rewrite app_nil_r. repeat split; [constructor|lia].
  - rewrite M_bind_unfold.
    destruct (process_all_disabled_trace (sid :: sids) empty_acc w)
      as (tr' & H1 & H2 & H3).
    exists tr'.
    destruct (process_all _ _ _ _ _ _ _ _ (sid :: sids) empty_acc w)
      as [[a|e] w1]; cbn [snd] in *;
      [|split; [exact H1|split; [exact H2|exact H3]]].
    rewrite M_bind_unfold. unfold lift.
    destruct (years_keys a);
      (split; [exact H1|split; [exact H2|exact H3]]).
Qed.

End SourcesOnly.

(** ** The years of the yearly table *)

Lemma mapM_int_ok (l : list string) :
  (forall x, x ∈ l -> is_ok (Py.int x) = true) ->
  is_ok (mapM Py.int l) = true.
Proof.
  induction l as [|z l IH]; intros H; [reflexivity|].
  cbn [mapM]. pose proof (H z ltac:(left)) as Hz.
  destruct (Py.int z) as [v|e]; [|discriminate Hz].
  cbn [mbind result_bind].
  assert (Hl : is_ok (mapM Py.int l) = true)
    by (apply IH; intros x Hx; apply H; right; exact Hx).
  destruct (mapM Py.int l); [reflexivity|discriminate Hl].
Qed.

(** X11. The [isdigit] guard of the yearly loop does not protect the
    [int()] of the column sort: a snapshot entry whose year string passes
    [isdigit] but is no integer literal (a superscript digit) is recorded
    as a year, and sorting the years then raises [ValueError]. *)
Theorem yearly_digit_year_breaks_sort
    (source_id : string) (rows : list count_row) (a : accumulators)
    (row : count_row) (e : exn) :
  In row rows ->
  Py.isdigit (str_year (row_year row)) = true ->
  Py.int (str_year (row_year row)) = Raise e ->
  str_year (row_year row) ∈ years_seen (yearly_update source_id rows a)
  /\ years_keys (yearly_update source_id rows a) = Raise Py.int_error.
Proof.
  intros Hin Hd He.
  assert (Hy : str_year (row_year row)
               ∈ years_seen (yearly_update source_id rows a)).
  { apply yearly_update_years_seen. right. exists row. auto. }
  split; [exact Hy|]. unfold years_keys.
  apply (mapM_int_fails _ (str_year (row_year row)) e); [|exact He].
  apply elem_of_elements. exact Hy.
Qed.

Lemma yearly_digit_year_breaks_sort_witness :
  years_keys
    (yearly_update "S1"
       [mk_count_row (YearInt 2020) (Some 1) None;
        mk_count_row (YearStr (String (ascii_of_nat 178) "")) (Some 1) None]
       empty_acc)
  = Raise Py.int_error.
Proof.
  refine (proj2 (yearly_digit_year_breaks_sort "S1"
                   [mk_count_row (YearInt 2020) (Some 1) None;
                    mk_count_row (YearStr (String (ascii_of_nat 178) ""))
                      (Some 1) None]
                   empty_acc
                   (mk_count_row (YearStr (String (ascii_of_nat 178) ""))
                      (Some 1) None)
                   Py.int_error _ _ _)).
  - right. left. reflexivity.
  - vm_compute. reflexivity.
  - vm_compute. reflexivity.
Defined.

Lemma string_of_uint_decimal (d : Decimal.uint) :
  Py.all_chars Py.is_decimal (NilEmpty.string_of_uint d) = true.
Proof. induction d; cbn [NilEmpty.string_of_uint Py.all_chars]; auto. Qed.

Lemma decimal_all_decimal (n : N) : all_decimal (Py.decimal n) = true.
Proof.
  unfold all_decimal, Py.decimal, NilZero.string_of_uint.
  destruct (N.to_uint n) eqn:E; try reflexivity;
    rewrite string_of_uint_decimal; reflexivity.
Qed.

Lemma str_int_nonneg (z : Z) : 0 <= z -> all_decimal (Py.str_int z) = true.
Proof.
  intros Hz. unfold Py.str_int, Py.format_0d.
  replace (z <? 0) with false by (symmetry; apply Z.ltb_ge; exact Hz).
  cbn [String.length Nat.sub Py.zeros]. rewrite !append_empty.
  apply decimal_all_decimal.
Qed.

Lemma str_int_neg (z : Z) : z < 0 -> Py.isdigit (Py.str_int z) = false.
Proof.
  intros Hz. unfold Py.str_int, Py.format_0d.
  replace (z <? 0) with true by (symmetry; apply Z.ltb_lt; exact Hz).
  reflexivity.
Qed.

Lemma all_decimal_isdigit (s : string) :
  all_decimal s = true -> Py.isdigit s = true.
Proof.
  unfold all_decimal, Py.isdigit. intros H.
  apply andb_true_iff in H as [H1 H2]. rewrite H1. cbn [andb].
  clear H1. induction s as [|c s IH]; [reflexivity|].
  cbn [Py.all_chars] in *. apply andb_true_iff in H2 as [Hc Hs].
  rewrite (IH Hs), andb_true_r. unfold Py.is_digit_char. rewrite Hc.
  reflexivity.
Qed.

Lemma int_year_digit (row : count_row) :
  int_year row ->
  Py.isdigit (str_year (row_year row)) = true ->
  exists z, row_year row = YearInt z /\ 0 <= z.
Proof.
  unfold int_year. destruct (row_year row) as [| |z|s]; cbn [str_year];
    intros Hi Hd; try discriminate Hd; [|contradiction].
  exists z. split; [reflexivity|].
  destruct (Z.lt_ge_cases z 0) as [Hneg|Hpos]; [|exact Hpos].
  rewrite (str_int_neg z Hneg) in Hd. discriminate Hd.
Qed.

(** X12. When no snapshot entry gives its year as a JSON string, the
    years recorded by the yearly loop are the decimal renderings of the
    non-negative integer years (entries with a negative, null or missing
    year are skipped), and sorting the years cannot raise. The integer
    years are those of a parsed JSON document, of at most 4300 digits,
    which is also what [int()] reads back. *)
Theorem yearly_integer_years_sort
    (source_id : string) (rows : list count_row) (a : accumulators) :
  Forall int_year rows ->
  (forall row z, In row rows -> row_year row = YearInt z -> 0 <= z ->
     (String.length (Py.str_int z) <= Py.max_str_digits)%nat) ->
  (forall y, y ∈ years_seen a ->
     all_decimal y = true
     /\ (String.length y <= Py.max_str_digits)%nat) ->
  (forall y, y ∈ years_seen (yearly_update source_id rows a)
     <-> y ∈ years_seen a
         \/ exists row z, In row rows /\ row_year row = YearInt z
              /\ 0 <= z /\ y = Py.str_int z)
  /\ is_ok (years_keys (yearly_update source_id rows a)) = true.
Proof.
  intros Hrows Hlen Ha.
  assert (Hiff : forall y, y ∈ years_seen (yearly_update source_id rows a)
     <-> y ∈ years_seen a
         \/ exists row z, In row rows /\ row_year row = YearInt z
              /\ 0 <= z /\ y = Py.str_int z).
  { intros y. rewrite yearly_update_years_seen. split.
    - intros [H|(row & Hin & Hd & ->)]; [left; exact H|right].
      rewrite List.Forall_forall in Hrows.
      destruct (int_year_digit row (Hrows row Hin) Hd) as (z & Hz & Hpos).
      exists row, z. rewrite Hz. auto.
    - intros [H|(row & z & Hin & Hz & Hpos & ->)]; [left; exact H|right].
      exists row. rewrite Hz. cbn [str_year].
      split; [exact Hin|]. split; [|reflexivity].
      apply all_decimal_isdigit, str_int_nonneg, Hpos. }
  split; [exact Hiff|].
  unfold years_keys. apply mapM_int_ok. intros x Hx.
  apply elem_of_elements, Hiff in Hx.
  assert (Hd : all_decimal x = true
               /\ (String.length x <= Py.max_str_digits)%nat).
  { destruct Hx as [Hx|(row & z & Hin & Hz & Hpos & ->)];
      [apply Ha, Hx|].
    split; [apply str_int_nonneg, Hpos|exact (Hlen row z Hin Hz Hpos)]. }
  destruct Hd as [Hd Hl]. rewrite (int_of_decimal x Hd Hl). reflexivity.
Qed.

Lemma yearly_integer_years_sort_witness :
  is_ok (years_keys
           (yearly_update "S1" (src_counts_by_year sample_source) empty_acc))
  = true.
Proof.
  refine (proj2 (yearly_integer_years_sort "S1"
                   (src_counts_by_year sample_source) empty_acc _ _ _)).
  - repeat constructor.
  - intros row z Hin Hz _. apply Nat.leb_le.
    cbn [sample_source src_counts_by_year In] in Hin.
    repeat (destruct Hin as [<-|Hin];
            [cbn [row_year] in Hz; inversion Hz; subst z;
             vm_compute; reflexivity|]).
    destruct Hin.
  - intros y Hy. exfalso. revert Hy. apply not_elem_of_empty.
Defined.

(** ** Flattening into a dict that is already filled *)

Section FlattenInto.

Variable float : Type.
Variable str_float : float -> string.
Variable json_dumps : json float -> string.

Local Abbreviation flatten := (flatten_json float str_float json_dumps).
Local Abbreviation elements_of :=
  (flatten_elements float str_float json_dumps).
Local Abbreviation value_of := (flatten_value float str_float json_dumps).
Local Abbreviation member_of := (flatten_member float str_float json_dumps).

(** Flattening [v] into [out] is flattening it into an empty dict and
    laying the result over [out]; the same for a member value. *)
Local Abbreviation layered := (fun v : json float =>
  (forall p out, flatten v p out = flatten v p ∅ ∪ out)
  /\ (forall key out, value_of key v out = value_of key v ∅ ∪ out)).

Lemma insert_layered (k t : string) (out : gmap string string) :
  <[k := t]> out = <[k := t]> (∅ : gmap string string) ∪ out.
Proof. rewrite insert_empty. apply insert_union_singleton_l. Qed.

Lemma elements_layered (l : list (json float)) :
  Forall layered l ->
  forall (name : nat -> string) (i : nat) (out : gmap string string),
    elements_of name i l out = elements_of name i l ∅ ∪ out.
Proof.
  induction 1 as [|el l [Hel _] _ IH]; intros name i out;
    cbn [flatten_elements].
  - symmetry. apply (left_id_L ∅ (∪)).
  - rewrite (IH name (S i) (flatten el (name i) out)).
    rewrite (IH name (S i) (flatten el (name i) ∅)).
    rewrite (Hel (name i) out). apply (assoc_L (∪)).
Qed.

Lemma members_layered (kvs : list (string * json float)) (p : string) :
  Forall (fun kv => layered kv.2) kvs ->
  forall out : gmap string string,
    fold_left (member_of p) kvs out = fold_left (member_of p) kvs ∅ ∪ out.
Proof.
  induction 1 as [|kv kvs [_ Hkv] _ IH]; intros out; cbn [fold_left].
  - symmetry. apply (left_id_L ∅ (∪)).
  - rewrite (IH (member_of p out kv)), (IH (member_of p ∅ kv)).
    unfold flatten_member. rewrite (Hkv (child_key p kv.1) out).
    apply (assoc_L (∪)).
Qed.

Lemma every_value_layered (v : json float) : layered v.
Proof.
  revert v. apply (json_nested_ind float).
  - intros v Hv. split.
    + intros p out. rewrite !flatten_json_scalar by exact Hv.
      apply insert_layered.
    + intros key out. rewrite !flatten_value_scalar by exact Hv.
      apply insert_layered.
  - intros l Hl. split.
    + intros p out. rewrite !flatten_json_list.
      destruct (forallb is_dict l);
        [apply elements_layered; exact Hl|apply insert_layered].
    + intros key out. cbn [flatten_value].
      destruct (forallb is_dict l);
        [apply elements_layered; exact Hl|apply insert_layered].
  - intros kvs Hkvs.
    assert (H : forall p out,
               flatten (JObj kvs) p out = flatten (JObj kvs) p ∅ ∪ out).
    { intros p out. rewrite !flatten_json_obj.
      apply members_layered. exact Hkvs. }
    split; [exact H|]. intros key out. apply H.
Qed.

(** X13. The [out] argument of [flatten_json] is only laid under the
    result: flattening into a dict that is already filled gives the
    columns of the record, flattened on its own, and keeps every other
    entry of the dict; an entry of the dict is lost only to a column of
    the record with the same name. *)
Theorem flatten_json_into_filled_dict
    (obj : json float) (prefix : string) (out : gmap string string) :
  flatten obj prefix out = flatten obj prefix ∅ ∪ out
  /\ (forall col,
        flatten obj prefix out !! col
        = match flatten obj prefix ∅ !! col with
          | Some txt => Some txt
          | None => out !! col
          end).
Proof.
  destruct (every_value_layered obj) as [H _].
  split; [apply H|].
  intros col. rewrite (H prefix out), lookup_union.
  destruct (flatten obj prefix ∅ !! col) as [txt|]; [|apply (left_id_L None _)].
  destruct (out !! col); reflexivity.
Qed.

(** *** Where the columns of a nested value lie *)

Lemma prefix_refl (p : string) : String.prefix p p = true.
Proof.
  induction p as [|c p IH]; [reflexivity|].
  cbn [String.prefix]. destruct (ascii_dec c c); [exact IH|congruence].
Qed.

Lemma prefix_append (p s : string) : String.prefix p (p +:+ s) = true.
Proof.
  induction p as [|c p IH]; [destruct s; reflexivity|].
  rewrite append_String. cbn [String.prefix].
  destruct (ascii_dec c c); [exact IH|congruence].
Qed.

Lemma prefix_trans (p q k : string) :
  String.prefix p q = true -> String.prefix q k = true ->
  String.prefix p k = true.
Proof.
  revert q k. induction p as [|c p IH]; intros q k Hpq Hqk;
    [destruct k; reflexivity|].
  destruct q as [|d q]; [discriminate Hpq|].
  destruct k as [|e k]; [discriminate Hqk|].
  cbn [String.prefix] in *.
  destruct (ascii_dec c d) as [->|]; [|discriminate Hpq].
  destruct (ascii_dec d e) as [->|]; [|discriminate Hqk].
  exact (IH q k Hpq Hqk).
Qed.

(** The columns of a value lie under its prefix, those of a member
    value under its key. *)
Local Abbreviation nested := (fun v : json float =>
  (forall p col, p <> "" -> is_Some (flatten v p ∅ !! col) ->
     String.prefix p col = true)
  /\ (forall key col, is_Some (value_of key v ∅ !! col) ->
        String.prefix key col = true)).

Lemma or_value_prefix (p : string) : p <> "" -> or_value p = p.
Proof. destruct p; [congruence|reflexivity]. Qed.

Lemma singleton_column (k t col : string) :
  is_Some (<[k := t]> (∅ : gmap string string) !! col) -> col = k.
Proof.
  intros H. destruct (decide (col = k)) as [->|Hne]; [reflexivity|].
  rewrite lookup_insert_ne, lookup_empty in H by congruence.
  destruct H as [? H]. discriminate H.
Qed.

Lemma elements_nested (l : list (json float)) :
  Forall nested l ->
  forall (name : nat -> string) (key : string) (i : nat) (col : string),
    (forall j, name j <> "" /\ String.prefix key (name j) = true) ->
    is_Some (elements_of name i l ∅ !! col) ->
    String.prefix key col = true.
Proof.
  induction 1 as [|el l [Hel _] Hl IH]; intros name key i col Hname H;
    cbn [flatten_elements] in H.
  - rewrite lookup_empty in H. destruct H as [? H]. discriminate H.
  - rewrite (elements_layered l) in H
      by (eapply Forall_impl; [exact Hl|]; intros; apply every_value_layered).
    rewrite lookup_union_is_Some in H. destruct H as [H|H].
    + exact (IH name key (S i) col Hname H).
    + destruct (Hname i) as [Hne Hpre].
      exact (prefix_trans _ _ _ Hpre (Hel (name i) col Hne H)).
Qed.

Lemma member_index_key_prefix (key : string) (j : nat) :
  member_index_key key j <> ""
  /\ String.prefix key (member_index_key key j) = true.
Proof.
  unfold member_index_key. split; [|apply prefix_append].
  destruct key; [rewrite append_empty|rewrite append_String]; discriminate.
Qed.

Lemma index_key_prefix (p : string) (j : nat) :
  p <> "" ->
  index_key p j <> "" /\ String.prefix p (index_key p j) = true.
Proof.
  intros Hp. unfold index_key. destruct p as [|c p]; [congruence|].
  cbn [Py.is_empty]. split; [rewrite append_String; discriminate|].
  apply prefix_append.
Qed.

Lemma child_key_prefix (p k : string) :
  p <> "" ->
  child_key p k <> "" /\ String.prefix p (child_key p k) = true.
Proof.
  intros Hp. unfold child_key. destruct p as [|c p]; [congruence|].
  cbn [Py.is_empty]. split; [rewrite append_String; discriminate|].
  apply prefix_append.
Qed.

Lemma members_columns (kvs : list (string * json float)) (p : string) :
  Forall (fun kv => nested kv.2) kvs ->
  forall col,
    is_Some (fold_left (member_of p) kvs ∅ !! col) ->
    exists kv, kv ∈ kvs /\ String.prefix (child_key p kv.1) col = true.
Proof.
  induction 1 as [|kv kvs [_ Hkv] Hkvs IH]; intros col H; cbn [fold_left] in H.
  - rewrite lookup_empty in H. destruct H as [? H]. discriminate H.
  - rewrite (members_layered kvs p) in H
      by (eapply Forall_impl; [exact Hkvs|]; intros; apply every_value_layered).
    rewrite lookup_union_is_Some in H. destruct H as [H|H].
    + destruct (IH col H) as (kv' & Hin & Hpre).
      exists kv'. split; [right; exact Hin|exact Hpre].
    + exists kv. split; [left|]. exact (Hkv _ col H).
Qed.

Lemma every_value_nested (v : json float) : nested v.
Proof.
  revert v. apply (json_nested_ind float).
  - intros v Hv. split.
    + intros p col Hp H. rewrite flatten_json_scalar in H by exact Hv.
      apply singleton_column in H. subst col.
      rewrite (or_value_prefix p Hp). apply prefix_refl.
    + intros key col H. rewrite flatten_value_scalar in H by exact Hv.
      apply singleton_column in H. subst col. apply prefix_refl.
  - intros l Hl. split.
    + intros p col Hp H. rewrite flatten_json_list in H.
      destruct (forallb is_dict l).
      * apply (elements_nested l Hl (index_key p) p O col); [|exact H].
        intros j. apply index_key_prefix. exact Hp.
      * apply singleton_column in H. subst col.
        rewrite (or_value_prefix p Hp). apply prefix_refl.
    + intros key col H. cbn [flatten_value] in H.
      destruct (forallb is_dict l).
      * apply (elements_nested l Hl (member_index_key key) key O col);
          [|exact H].
        intros j. apply member_index_key_prefix.
      * apply singleton_column in H. subst col. apply prefix_refl.
  - intros kvs Hkvs.
    assert (H : forall p col, p <> "" ->
               is_Some (flatten (JObj kvs) p ∅ !! col) ->
               String.prefix p col = true).
    { intros p col Hp H. rewrite flatten_json_obj in H.
      destruct (members_columns kvs p Hkvs col H) as (kv & _ & Hpre).
      exact (prefix_trans _ _ _ (proj2 (child_key_prefix p kv.1 Hp)) Hpre). }
    split; [exact H|]. intros key col Hc. cbn [flatten_value] in Hc.
    destruct key as [|c key]; [destruct col; reflexivity|].
    apply H; [discriminate|exact Hc].
Qed.

(** X14. The columns of a nested value lie under its key: flattened
    under a non-empty prefix, a value yields only columns that start with
    that prefix, and every column of the flat row of a record starts with
    the name of one of the record's members. *)
Theorem flatten_json_columns_under_prefix :
  (forall (obj : json float) (prefix col : string),
     prefix <> "" ->
     is_Some (flatten obj prefix ∅ !! col) ->
     String.prefix prefix col = true)
  /\ (forall (kvs : list (string * json float)) (col : string),
        is_Some (flatten (JObj kvs) "" ∅ !! col) ->
        exists k v, (k, v) ∈ kvs /\ String.prefix k col = true).
Proof.
  split.
  - intros obj. apply (every_value_nested obj).
  - intros kvs col H. rewrite flatten_json_obj in H.
    destruct (members_columns kvs "" ltac:(apply Forall_forall; intros;
                                            apply every_value_nested) col H)
      as ([k v] & Hin & Hpre).
    exists k, v. split; [exact Hin|exact Hpre].
Qed.

End FlattenInto.

(** ** Names typed or uploaded by the user *)

Lemma append_empty_r (s : string) : s +:+ "" = s.
Proof.
  induction s as [|c s IH]; [reflexivity|].
  rewrite append_String, IH. reflexivity.
Qed.

Lemma split_whitespace_space (c : ascii) (s : string) :
  PyStr.is_space c = true ->
  PyStr.split_whitespace (String c s) = PyStr.split_whitespace s.
Proof. intros H. cbn [PyStr.split_whitespace]. rewrite H. reflexivity. Qed.

Lemma split_whitespace_lstrip (s : string) :
  PyStr.split_whitespace (Py.lstrip PyStr.is_space s)
  = PyStr.split_whitespace s.
Proof.
  induction s as [|c s IH]; [reflexivity|].
  cbn [Py.lstrip]. destruct (PyStr.is_space c) eqn:E; [|reflexivity].
  rewrite IH, split_whitespace_space by exact E. reflexivity.
Qed.

Lemma split_whitespace_blank (s : string) :
  PyStr.split_whitespace s = [] <-> Py.all_chars PyStr.is_space s = true.
Proof.
  induction s as [|c s IH]; [split; reflexivity|].
  cbn [PyStr.split_whitespace Py.all_chars].
  destruct (PyStr.is_space c); cbn [andb]; [exact IH|].
  split; [|discriminate].
  destruct s as [|d s]; [discriminate|].
  destruct (PyStr.is_space d); [discriminate|].
  destruct (PyStr.split_whitespace (String d s)); discriminate.
Qed.

Lemma rstrip_blank (s : string) :
  Py.rstrip PyStr.is_space s = "" <-> Py.all_chars PyStr.is_space s = true.
Proof.
  induction s as [|c s IH]; [split; reflexivity|].
  cbn [Py.rstrip Py.all_chars].
  destruct (PyStr.is_space c); cbn [andb].
  - destruct (Py.rstrip PyStr.is_space s) eqn:E; cbn [Py.is_empty].
    + split; [intros _; apply IH; reflexivity|reflexivity].
    + split; [discriminate|]. intros H. apply IH in H. discriminate H.
  - split; discriminate.
Qed.

Lemma rstrip_head (c : ascii) (s : string) :
  Py.rstrip PyStr.is_space (String c s) = ""
  \/ exists t, Py.rstrip PyStr.is_space (String c s) = String c t
               /\ Py.rstrip PyStr.is_space s = t.
Proof.
  cbn [Py.rstrip].
  destruct (PyStr.is_space c && Py.is_empty (Py.rstrip PyStr.is_space s));
    [left; reflexivity|right; eauto].
Qed.

Lemma split_whitespace_rstrip (s : string) :
  PyStr.split_whitespace (Py.rstrip PyStr.is_space s)
  = PyStr.split_whitespace s.
Proof.
  induction s as [|c s IH]; [reflexivity|].
  destruct (rstrip_head c s) as [E|(t & E & Et)].
  - rewrite E. symmetry. apply split_whitespace_blank, rstrip_blank, E.
  - rewrite E. subst t.
    destruct (PyStr.is_space c) eqn:Ec.
    + rewrite !split_whitespace_space by exact Ec. exact IH.
    + cbn [PyStr.split_whitespace]. rewrite Ec.
      destruct s as [|d s]; [reflexivity|].
      destruct (rstrip_head d s) as [Ed|(t & Ed & Et)].
      * rewrite Ed in *.
        assert (Hd : PyStr.is_space d = true).
        { apply rstrip_blank in Ed. cbn [Py.all_chars] in Ed.
          apply andb_true_iff in Ed as [Ed _]. exact Ed. }
        rewrite Hd, <- IH. reflexivity.
      * rewrite Ed in *. rewrite IH. reflexivity.
Qed.

Lemma split_whitespace_strip (s : string) :
  PyStr.split_whitespace (PyStr.strip s) = PyStr.split_whitespace s.
Proof.
  unfold PyStr.strip.
  rewrite split_whitespace_rstrip. apply split_whitespace_lstrip.
Qed.

Lemma cons_head_words (c : ascii) (l : list string) :
  PyStr.is_space c = false ->
  Forall (fun w => is_word w = true) l ->
  Forall (fun w => is_word w = true) (PyStr.cons_head c l).
Proof.
  intros Hc Hl. destruct Hl as [|w ws Hw Hws]; cbn [PyStr.cons_head].
  - constructor; [|constructor]. unfold is_word. cbn. rewrite Hc. reflexivity.
  - constructor; [|exact Hws]. unfold is_word in *.
    cbn [Py.is_empty negb andb Py.all_chars]. rewrite Hc. cbn [negb andb].
    apply andb_true_iff in Hw as [_ Hw]. exact Hw.
Qed.

Lemma split_whitespace_words (s : string) :
  Forall (fun w => is_word w = true) (PyStr.split_whitespace s).
Proof.
  induction s as [|c s IH]; [constructor|].
  cbn [PyStr.split_whitespace].
  destruct (PyStr.is_space c) eqn:Ec; [exact IH|].
  assert (H1 : is_word (String c "") = true)
    by (unfold is_word; cbn; rewrite Ec; reflexivity).
  destruct s as [|d s]; [constructor; [exact H1|constructor]|].
  destruct (PyStr.is_space d) eqn:Ed.
  - constructor; [exact H1|exact IH].
  - apply cons_head_words; assumption.
Qed.

(** A word followed by nothing, or by white space, is split off. *)
Lemma split_whitespace_word (w rest : string) :
  is_word w = true ->
  (rest = "" \/ exists d t, rest = String d t /\ PyStr.is_space d = true) ->
  PyStr.split_whitespace (w +:+ rest) = w :: PyStr.split_whitespace rest.
Proof.
  intros Hw Hrest. induction w as [|c w IH]; [discriminate Hw|].
  unfold is_word in Hw. cbn [Py.is_empty negb andb Py.all_chars] in Hw.
  apply andb_true_iff in Hw as [Hc Hw]. apply negb_true_iff in Hc.
  rewrite append_String. cbn [PyStr.split_whitespace]. rewrite Hc.
  destruct w as [|c2 w].
  - rewrite append_empty.
    destruct Hrest as [->|(d & t & -> & Hd)]; [reflexivity|].
    rewrite Hd. reflexivity.
  - rewrite append_String.
    pose proof Hw as Hw2. cbn [Py.all_chars] in Hw2.
    apply andb_true_iff in Hw2 as [Hc2 _]. apply negb_true_iff in Hc2.
    rewrite Hc2. rewrite <- append_String, IH; [reflexivity|].
    unfold is_word. cbn [Py.is_empty negb andb]. exact Hw.
Qed.

Lemma split_whitespace_join (ws : list string) :
  Forall (fun w => is_word w = true) ws ->
  PyStr.split_whitespace (Py.join " " ws) = ws.
Proof.
  induction 1 as [|w ws Hw Hws IH]; [reflexivity|].
  cbn [Py.join]. destruct ws as [|w2 ws].
  - rewrite <- (append_empty_r w) at 1.
    rewrite split_whitespace_word by (auto). reflexivity.
  - rewrite split_whitespace_word; [|exact Hw|].
    + f_equal. rewrite append_String, append_empty.
      rewrite split_whitespace_space by reflexivity. exact IH.
    + right. exists " "%char, (Py.join " " (w2 :: ws)).
      split; [|reflexivity]. rewrite append_String, append_empty.
      reflexivity.
Qed.

Lemma join_words_empty (ws : list string) :
  Forall (fun w => is_word w = true) ws ->
  Py.join " " ws = "" -> ws = [].
Proof.
  intros Hws H. destruct Hws as [|w ws Hw _]; [reflexivity|].
  destruct w as [|c w]; [discriminate Hw|].
  cbn [Py.join] in H. destruct ws; [discriminate H|].
  rewrite append_String in H. discriminate H.
Qed.

Lemma norm_name_words (s : option string) :
  norm_name s = Py.join " " (PyStr.split_whitespace (default "" s)).
Proof. unfold norm_name. rewrite split_whitespace_strip. reflexivity. Qed.

Lemma norm_name_idem (s : option string) :
  norm_name (Some (norm_name s)) = norm_name s.
Proof.
  rewrite (norm_name_words (Some _)). cbn [default from_option].
  unfold id. rewrite (norm_name_words s).
  rewrite split_whitespace_join by apply split_whitespace_words.
  reflexivity.
Qed.

Lemma norm_name_blank (s : option string) :
  norm_name s = "" <-> Py.all_chars PyStr.is_space (default "" s) = true.
Proof.
  rewrite norm_name_words, <- split_whitespace_blank. split.
  - apply join_words_empty, split_whitespace_words.
  - intros ->. reflexivity.
Qed.

(** X15. [norm_name] joins the words of its argument (the maximal runs
    free of white space) with single spaces, so the [strip] before the
    [split] changes nothing. The result is a normal form: normalising it
    again gives it back, and splitting it gives the same words. It is
    empty exactly when the argument is [None] or holds white space
    only. *)
Theorem norm_name_normal_form (s : option string) :
  norm_name s = Py.join " " (PyStr.split_whitespace (default "" s))
  /\ Forall (fun w => is_word w = true)
       (PyStr.split_whitespace (default "" s))
  /\ PyStr.split_whitespace (norm_name s)
     = PyStr.split_whitespace (default "" s)
  /\ norm_name (Some (norm_name s)) = norm_name s
  /\ (norm_name s = ""
      <-> Py.all_chars PyStr.is_space (default "" s) = true).
Proof.
  split; [apply norm_name_words|].
  split; [apply split_whitespace_words|].
  split; [|split; [apply norm_name_idem|apply norm_name_blank]].
  rewrite norm_name_words.
  apply split_whitespace_join, split_whitespace_words.
Qed.

Lemma unique_loop_first_seen (ns : list string) :
  forall seen : gset string,
    unique_loop seen ns = filter (fun x => x ∉ seen) (first_seen ns).
Proof.
  induction ns as [|x ns IH]; intros seen; [reflexivity|].
  cbn [unique_loop first_seen]. case_bool_decide as Hin.
  - rewrite filter_cons_False by (intros H; apply H; exact Hin).
    rewrite list_filter_filter_l by (intros y Hy ->; apply Hy; exact Hin).
    apply IH.
  - rewrite filter_cons_True by exact Hin. f_equal.
    rewrite IH, list_filter_filter.
    apply list_filter_iff. intros y. set_solver.
Qed.

Lemma normalised_elem (xs : list string) (n : string) :
  n ∈ normalised xs
  <-> n <> "" /\ exists x, x ∈ xs /\ n = norm_name (Some x).
Proof.
  unfold normalised. rewrite list_elem_of_In, List.filter_In.
  rewrite <- list_elem_of_In, list_elem_of_fmap, negb_true_iff.
  rewrite is_empty_false. split.
  - intros [(x & -> & Hx) Hne]. split; [exact Hne|]. eauto.
  - intros [Hne (x & Hx & ->)]. split; [eauto|exact Hne].
Qed.

Lemma cons_head_blank (c : ascii) (l : list string) :
  PyStr.is_space c = true ->
  Forall (fun x => Py.all_chars PyStr.is_space x = true) l ->
  Forall (fun x => Py.all_chars PyStr.is_space x = true)
    (PyStr.cons_head c l).
Proof.
  intros Hc Hl. destruct Hl as [|w ws Hw Hws]; cbn [PyStr.cons_head].
  - constructor; [|constructor]. cbn. rewrite Hc. reflexivity.
  - constructor; [|exact Hws]. cbn [Py.all_chars]. rewrite Hc. exact Hw.
Qed.

Lemma splitlines_blank (s : string) :
  Py.all_chars PyStr.is_space s = true ->
  forall skip : bool,
    Forall (fun x => Py.all_chars PyStr.is_space x = true)
      (PyStr.splitlines_go skip s).
Proof.
  induction s as [|c s IH]; intros H skip; [constructor|].
  cbn [Py.all_chars] in H. apply andb_true_iff in H as [Hc Hs].
  cbn [PyStr.splitlines_go].
  destruct (skip && Nat.eqb (Py.code c) 10); [apply IH; exact Hs|].
  destruct (PyStr.is_line_break c).
  - constructor; [reflexivity|apply IH; exact Hs].
  - apply cons_head_blank; [exact Hc|apply IH; exact Hs].
Qed.

Lemma strip_blank (s : string) :
  Py.is_empty (PyStr.strip s) = true
  <-> Py.all_chars PyStr.is_space s = true.
Proof.
  rewrite is_empty_true. unfold PyStr.strip. rewrite rstrip_blank.
  rewrite <- !split_whitespace_blank. rewrite split_whitespace_lstrip.
  reflexivity.
Qed.

(** The test of the text area before its lines are read is redundant. *)
Lemma names_unguarded (cells : list string) (manual_input : string) :
  names cells manual_input
  = normalised cells ++ normalised (PyStr.splitlines manual_input).
Proof.
  unfold names. destruct (Py.is_empty (PyStr.strip manual_input)) eqn:E;
    [|reflexivity].
  f_equal. apply strip_blank in E.
  pose proof (splitlines_blank manual_input E false) as Hl.
  unfold PyStr.splitlines, normalised.
  induction Hl as [|x l Hx _ IH]; [reflexivity|].
  cbn [map List.filter].
  rewrite (proj2 (norm_name_blank (Some x)) Hx). cbn [Py.is_empty negb].
  exact IH.
Qed.

(** X16. The server names detected on the page: every name is the
    normal form of a CSV cell or of a line of the text area, is not
    empty, is its own normal form, and is listed once, in the order of
    its first occurrence (CSV cells first). The test that the text area
    is not blank changes nothing. *)
Theorem unique_names_normalised (cells : list string) (manual_input : string) :
  NoDup (unique_names cells manual_input)
  /\ (forall n, n ∈ unique_names cells manual_input
        <-> n <> ""
            /\ exists x, (x ∈ cells \/ x ∈ PyStr.splitlines manual_input)
                 /\ n = norm_name (Some x))
  /\ (forall n, n ∈ unique_names cells manual_input ->
        norm_name (Some n) = n)
  /\ unique_names cells manual_input
     = first_seen (normalised cells
                   ++ normalised (PyStr.splitlines manual_input)).
Proof.
  assert (Hu : unique_names cells manual_input
     = first_seen (normalised cells
                   ++ normalised (PyStr.splitlines manual_input))).
  { unfold unique_names. rewrite unique_loop_first_seen, names_unguarded.
    induction (first_seen _) as [|y l IH]; [reflexivity|].
    rewrite filter_cons_True by apply not_elem_of_empty.
    f_equal. exact IH. }
  assert (He : forall n, n ∈ unique_names cells manual_input
        <-> n <> ""
            /\ exists x, (x ∈ cells \/ x ∈ PyStr.splitlines manual_input)
                 /\ n = norm_name (Some x)).
  { intros n. rewrite Hu, first_seen_elem, elem_of_app, !normalised_elem.
    split.
    - intros [[Hne (x & Hx & ->)]|[Hne (x & Hx & ->)]]; split; eauto.
    - intros [Hne (x & [Hx|Hx] & ->)]; [left|right]; split; eauto. }
  split; [rewrite Hu; apply first_seen_NoDup|].
  split; [exact He|]. split; [|exact Hu].
  intros n Hn. apply He in Hn as [_ (x & _ & ->)]. apply norm_name_idem.
Qed.

Lemma flatten_json_columns_under_prefix_witness :
  String.prefix "ids" "ids__openalex" = true.
Proof.
  apply (proj1 (flatten_json_columns_under_prefix no_float str_no_float
                  (fun _ => ""))
           (JObj [("openalex", JStr "https://openalex.org/S1")])
           "ids" "ids__openalex").
  - discriminate.
  - vm_compute. eexists. reflexivity.
Defined.

(** ** The header of [servers.csv] *)

Lemma preferred_first_NoDup : NoDup preferred_first.
Proof. apply (bool_decide_unpack _). vm_compute. exact I. Qed.

Lemma raw_json_not_preferred : "raw_json" ∉ preferred_first.
Proof. apply (bool_decide_unpack _). vm_compute. exact I. Qed.

Lemma remaining_elem (cols : gset string) (c : string) :
  c ∈ remaining cols
  <-> c ∈ cols /\ (c ∉ preferred_first) /\ c <> "raw_json".
Proof.
  unfold remaining. rewrite merge_sort_Permutation, list_elem_of_filter.
  rewrite elem_of_elements. tauto.
Qed.

Lemma remaining_NoDup (cols : gset string) : NoDup (remaining cols).
Proof.
  unfold remaining. rewrite merge_sort_Permutation.
  apply NoDup_filter, NoDup_elements.
Qed.

Lemma servers_header_NoDup (cols : gset string) :
  NoDup (servers_header cols).
Proof.
  unfold servers_header. apply NoDup_app. split; [|split].
  - apply NoDup_filter, preferred_first_NoDup.
  - intros c Hc Hr. apply list_elem_of_filter in Hc as [_ Hp].
    apply elem_of_app in Hr as [Hr|Hr].
    + apply remaining_elem in Hr as (_ & Hn & _). exact (Hn Hp).
    + apply list_elem_of_singleton in Hr. subst c.
      exact (raw_json_not_preferred Hp).
  - apply NoDup_app. split; [apply remaining_NoDup|]. split.
    + intros c Hc Hr. apply remaining_elem in Hc as (_ & _ & Hne).
      apply list_elem_of_singleton in Hr. exact (Hne Hr).
    + apply NoDup_singleton.
Qed.

Lemma servers_header_elem (cols : gset string) (c : string) :
  c ∈ servers_header cols <-> c ∈ cols \/ c = "raw_json".
Proof.
  unfold servers_header.
  rewrite !elem_of_app, list_elem_of_filter, remaining_elem,
    list_elem_of_singleton.
  split; [tauto|].
  intros [Hc|Hr]; [|tauto].
  destruct (decide (c ∈ preferred_first)); [tauto|].
  destruct (decide (c = "raw_json")); tauto.
Qed.

Lemma all_columns_elem (servers_rows : list (gmap string string))
    (c : string) :
  c ∈ all_columns servers_rows
  <-> exists row, row ∈ servers_rows /\ is_Some (row !! c).
Proof.
  unfold all_columns. rewrite elem_of_union_list. split.
  - intros (X & HX & Hc). apply list_elem_of_fmap in HX as (row & -> & Hrow).
    exists row. split; [exact Hrow|]. apply elem_of_dom. exact Hc.
  - intros (row & Hrow & Hc). exists (dom row). split.
    + apply list_elem_of_fmap. eauto.
    + apply elem_of_dom. exact Hc.
Qed.

(** X17. The header of [servers.csv] lists every column of every flat
    row exactly once and nothing else but [raw_json], which comes last
    and only there; the columns outside the preferred ones are in
    ascending order; and the table has one row per source, each with one
    cell per column. *)
Theorem servers_df_header (servers_rows : list (gmap string string)) :
  NoDup (columns (servers_df servers_rows))
  /\ last (columns (servers_df servers_rows)) = Some "raw_json"
  /\ (forall c, c ∈ columns (servers_df servers_rows)
        <-> c = "raw_json"
            \/ exists row, row ∈ servers_rows /\ is_Some (row !! c))
  /\ (exists known rest,
        columns (servers_df servers_rows) = known ++ rest ++ ["raw_json"]
        /\ known `sublist_of` preferred_first
        /\ StronglySorted String.le rest
        /\ forall c, c ∈ rest -> c ∉ preferred_first)
  /\ length (rows (servers_df servers_rows)) = length servers_rows
  /\ Forall (fun r => length r = length (columns (servers_df servers_rows)))
       (rows (servers_df servers_rows)).
Proof.
  cbn [servers_df columns rows].
  split; [apply servers_header_NoDup|].
  split.
  { unfold servers_header. rewrite !(assoc_L (++)). apply last_snoc. }
  split.
  { intros c. rewrite servers_header_elem, all_columns_elem. tauto. }
  split.
  { exists (filter (fun c => c ∈ all_columns servers_rows) preferred_first),
      (remaining (all_columns servers_rows)).
    split; [reflexivity|]. split; [apply sublist_filter|].
    split; [apply StronglySorted_merge_sort; apply _|].
    intros c Hc. apply remaining_elem in Hc. tauto. }
  split; [apply length_map|].
  apply Forall_forall. intros r Hr.
  apply list_elem_of_fmap in Hr as (row & -> & _). apply length_map.
Qed.

(** ** The rolling logs *)

Lemma slice_from_last {A} (k : Z) (l : list A) :
  0 < k -> PyStr.slice_from (- k) l = drop (length l - Z.to_nat k) l.
Proof.
  intros Hk. unfold PyStr.slice_from.
  replace (- k <? 0) with true by (symmetry; apply Z.ltb_lt; lia).
  f_equal. lia.
Qed.

Lemma slice_from_zero {A} (l : list A) : PyStr.slice_from (- 0) l = l.
Proof.
  unfold PyStr.slice_from. change (- 0 <? 0) with false.
  change (- 0) with 0. cbv iota.
  replace (Z.to_nat (Z.min 0 (Z.of_nat (length l)))) with 0%nat by lia.
  reflexivity.
Qed.

Lemma push_compact_step (keep : Z) (ls : list string) (x : string) :
  0 < keep ->
  push_compact true keep (drop (length ls - Z.to_nat keep) ls) x
  = drop (length (ls ++ [x]) - Z.to_nat keep) (ls ++ [x]).
Proof.
  intros Hk. unfold push_compact.
  remember (length ls) as n eqn:En. remember (Z.to_nat keep) as k eqn:Ek.
  assert (Hlen : length (drop (n - k) ls ++ [x]) = S (n - (n - k)))
    by (rewrite length_app, length_drop; cbn [length]; lia).
  rewrite Hlen. rewrite (length_app ls). cbn [length]. rewrite <- En.
  destruct (Z.gtb_spec (Z.of_nat (S (n - (n - k)))) keep) as [Hgt|Hle].
  - rewrite slice_from_last by exact Hk. rewrite Hlen, <- Ek.
    replace (S (n - (n - k)) - k)%nat with 1%nat by lia.
    replace (n + 1 - k)%nat with (S (n - k)) by lia.
    rewrite <- (drop_app_le ls [x] (n - k)) by lia.
    rewrite drop_drop. f_equal. lia.
  - replace (n - k)%nat with 0%nat by lia.
    replace (n + 1 - k)%nat with 0%nat by lia. reflexivity.
Qed.

(** X18. The compact log after the lines [ls] were pushed, starting
    empty: with a positive [compact_log_keep] it holds the last
    [compact_log_keep] lines pushed (all of them while there are fewer);
    with 0 nothing is ever dropped, because the slice [[-0:]] is the whole
    list; with a negative value it is empty after every push; and when no
    compact log is shown nothing is recorded. *)
Theorem push_compact_keeps_last (compact_log_keep : Z) (ls : list string) :
  fold_left (push_compact true compact_log_keep) ls []
  = (if compact_log_keep <? 0 then []
     else if compact_log_keep =? 0 then ls
     else drop (length ls - Z.to_nat compact_log_keep) ls)
  /\ fold_left (push_compact false compact_log_keep) ls [] = []
  /\ (0 < compact_log_keep ->
      (length (fold_left (push_compact true compact_log_keep) ls [])
       <= Z.to_nat compact_log_keep)%nat).
Proof.
  assert (H : fold_left (push_compact true compact_log_keep) ls []
    = (if compact_log_keep <? 0 then []
       else if compact_log_keep =? 0 then ls
       else drop (length ls - Z.to_nat compact_log_keep) ls)).
  { induction ls as [|x ls IH] using rev_ind.
    - cbn [fold_left length drop].
      destruct (compact_log_keep <? 0); [reflexivity|].
      destruct (compact_log_keep =? 0); reflexivity.
    - rewrite fold_left_app, IH. cbn [fold_left].
      destruct (Z.ltb_spec compact_log_keep 0) as [Hneg|Hnn].
      + unfold push_compact. cbn [app length].
        replace (Z.of_nat 1 >? compact_log_keep) with true
          by (symmetry; apply Z.gtb_lt; lia).
        unfold PyStr.slice_from. cbn [length].
        replace (- compact_log_keep <? 0) with false
          by (symmetry; apply Z.ltb_ge; lia).
        replace (Z.to_nat (Z.min (- compact_log_keep) (Z.of_nat 1)))
          with 1%nat by lia.
        reflexivity.
      + destruct (Z.eqb_spec compact_log_keep 0) as [->|Hne].
        * unfold push_compact.
          replace (Z.of_nat (length (ls ++ [x])) >? 0) with true
            by (symmetry; apply Z.gtb_lt; rewrite length_app; cbn; lia).
          apply slice_from_zero.
        * apply push_compact_step. lia. }
  split; [exact H|]. split.
  - clear H. induction ls as [|x ls IH]; [reflexivity|exact IH].
  - intros Hk. rewrite H.
    replace (compact_log_keep <? 0) with false
      by (symmetry; apply Z.ltb_ge; lia).
    replace (compact_log_keep =? 0) with false
      by (symmetry; apply Z.eqb_neq; lia).
    rewrite length_drop. lia.
Qed.

(** X19. The session log never holds more than 400 lines: after any
    number of messages it is the last 400 lines of what was there with
    the messages appended, the newest message last. *)
Theorem log_overall_keeps_last_400 (log_lines ls : list string) :
  (length log_lines <= 400)%nat ->
  fold_left log_overall ls log_lines
  = drop (length (log_lines ++ ls) - 400) (log_lines ++ ls)
  /\ (length (fold_left log_overall ls log_lines) <= 400)%nat
  /\ (forall x, last ls = Some x ->
        last (fold_left log_overall ls log_lines) = Some x).
Proof.
  intros Hinit.
  assert (H : fold_left log_overall ls log_lines
              = drop (length (log_lines ++ ls) - 400) (log_lines ++ ls)).
  { induction ls as [|x ls IH] using rev_ind.
    - cbn [fold_left]. rewrite app_nil_r.
      replace (length log_lines - 400)%nat with 0%nat by lia. reflexivity.
    - rewrite fold_left_app, IH. cbn [fold_left]. unfold log_overall.
      change (-400) with (Z.opp 400).
      rewrite slice_from_last by lia.
      change (Z.to_nat 400) with 400%nat.
      set (all := log_lines ++ ls).
      rewrite (assoc_L (++)). fold all.
      rewrite length_app, length_drop. cbn [length].
      rewrite <- (drop_app_le all [x] (length all - 400)) by lia.
      rewrite drop_drop, length_app. cbn [length]. f_equal. lia. }
  split; [exact H|]. split.
  - rewrite H, length_drop. lia.
  - intros x Hx. rewrite H.
    destruct ls as [|y ls'] using rev_ind; [discriminate Hx|].
    rewrite last_snoc in Hx. injection Hx as ->.
    rewrite (assoc_L (++)).
    set (all := log_lines ++ ls').
    rewrite drop_app_le by (rewrite length_app; cbn [length]; lia).
    apply last_snoc.
Qed.

Lemma log_overall_keeps_last_400_witness :
  fold_left log_overall ["[10:00:01] Fetching source S1"] []
  = ["[10:00:01] Fetching source S1"].
Proof.
  apply (proj1 (log_overall_keeps_last_400 []
                  ["[10:00:01] Fetching source S1"] ltac:(cbn; lia))).
Defined.

(** ** Identifiers and URLs *)

Lemma replace_go_skip (old new : string) (t s : string) :
  Py.replace_go old new (String.length t) (t +:+ s)
  = Py.replace_go old new 0 s.
Proof.
  induction t as [|c t IH]; [rewrite append_empty; reflexivity|].
  rewrite append_String. cbn [String.length Py.replace_go]. exact IH.
Qed.

Lemma replace_leading (c : ascii) (old' new s : string) :
  Py.replace (String c old') new (String c old' +:+ s)
  = new +:+ Py.replace (String c old') new s.
Proof.
  unfold Py.replace. cbn [Py.is_empty].
  rewrite append_String. cbn [Py.replace_go].
  rewrite <- append_String, prefix_append.
  cbn [String.length].
  replace (S (String.length old') - 1)%nat with (String.length old') by lia.
  f_equal.
  apply replace_go_skip.
Qed.

Lemma prefix_contains (c : ascii) (old s : string) :
  String.prefix old s = true -> Py.contains c old = true ->
  Py.contains c s = true.
Proof.
  revert s. induction old as [|a old IH]; intros s Hp Hc;
    [discriminate Hc|].
  destruct s as [|b s]; [discriminate Hp|].
  cbn [String.prefix] in Hp.
  destruct (ascii_dec a b) as [->|]; [|discriminate Hp].
  cbn [Py.contains] in *. apply orb_true_iff in Hc as [Hc|Hc].
  - rewrite Hc. reflexivity.
  - rewrite (IH s Hp Hc). apply orb_true_r.
Qed.

Lemma replace_go_absent (c : ascii) (old new s : string) :
  Py.contains c old = true -> Py.contains c s = false ->
  Py.replace_go old new 0 s = s.
Proof.
  intros Hold. induction s as [|d s IH]; intros Hs; [reflexivity|].
  cbn [Py.replace_go].
  destruct (String.prefix old (String d s)) eqn:Hp.
  - rewrite (prefix_contains c old _ Hp Hold) in Hs. discriminate Hs.
  - cbn [Py.contains] in Hs. apply orb_false_iff in Hs as [_ Hs].
    rewrite (IH Hs). reflexivity.
Qed.

(** X20. The short identifier of a source record: the OpenAlex URL
    prefix is cut from the record's [id], so a record whose [id] is the
    prefix followed by a short identifier without a colon gives that
    identifier back; an [id] that is already short is kept, and a missing
    or null [id] gives the empty string. *)
Theorem source_id_of_strips_prefix
    (sid name : string) (counts : list count_row) :
  Py.contains ":" sid = false ->
  source_id_of (mk_source (Some (openalex_prefix +:+ sid)) name counts) = sid
  /\ source_id_of (mk_source (Some sid) name counts) = sid
  /\ source_id_of (mk_source None name counts) = "".
Proof.
  intros Hsid. unfold source_id_of. cbn [src_id default from_option].
  unfold id.
  assert (H : Py.replace "https://openalex.org/" "" sid = sid).
  { unfold Py.replace. cbn [Py.is_empty].
    apply (replace_go_absent ":"); [reflexivity|exact Hsid]. }
  split; [|split; [exact H|reflexivity]].
  unfold openalex_prefix. rewrite replace_leading, append_empty. exact H.
Qed.

Lemma source_id_of_strips_prefix_witness :
  source_id_of sample_source = "S1".
Proof.
  apply (proj1 (source_id_of_strips_prefix "S1" "bioRxiv"
                  (src_counts_by_year sample_source) eq_refl)).
Defined.

Lemma all_chars_app (p : ascii -> bool) (s t : string) :
  Py.all_chars p (s +:+ t) = Py.all_chars p s && Py.all_chars p t.
Proof.
  induction s as [|c s IH]; [rewrite append_empty; reflexivity|].
  rewrite append_String. cbn [Py.all_chars]. rewrite IH.
  apply andb_assoc.
Qed.

Lemma all_chars_absent (p : ascii -> bool) (c : ascii) (s : string) :
  Py.all_chars p s = true -> p c = false -> Py.contains c s = false.
Proof.
  intros Hs Hc. induction s as [|d s IH]; [reflexivity|].
  cbn [Py.all_chars Py.contains] in *.
  apply andb_true_iff in Hs as [Hd Hs]. rewrite (IH Hs), orb_false_r.
  destruct (Ascii.eqb_spec c d) as [->|]; [congruence|reflexivity].
Qed.

Lemma hex_digit_safe (n : nat) :
  (n < 16)%nat -> Py.quote_safe (Py.hex_digit n) = true.
Proof.
  intros Hn. do 16 (destruct n as [|n]; [reflexivity|]). lia.
Qed.

Lemma percent_chars (byte : nat) :
  (byte < 256)%nat -> Py.all_chars url_char (Py.percent byte) = true.
Proof.
  intros Hb. unfold Py.percent. cbn [Py.all_chars]. unfold url_char at 2 3.
  rewrite !hex_digit_safe.
  - reflexivity.
  - apply Nat.mod_upper_bound. discriminate.
  - apply Nat.Div0.div_lt_upper_bound. exact Hb.
Qed.

Lemma code_bound (c : ascii) : (Py.code c < 256)%nat.
Proof. apply nat_ascii_bounded. Qed.

Lemma quote_chars (s : string) : Py.all_chars url_char (Py.quote s) = true.
Proof.
  induction s as [|c s IH]; [reflexivity|].
  cbn [Py.quote]. rewrite all_chars_app, IH, andb_true_r.
  destruct (Py.quote_safe c) eqn:Ec.
  - cbn [Py.all_chars]. unfold url_char. rewrite Ec. reflexivity.
  - pose proof (code_bound c) as Hc.
    destruct (Nat.ltb_spec (Py.code c) 128) as [Hlt|Hge].
    + apply percent_chars. lia.
    + rewrite all_chars_app, !percent_chars; [reflexivity| |].
      * pose proof (Nat.mod_upper_bound (Py.code c) 64). lia.
      * assert (Py.code c / 64 < 4)%nat
          by (apply Nat.Div0.div_lt_upper_bound; lia).
        lia.
Qed.

(** X21. The contact address cannot disturb the query string: when a
    non-empty [mailto] is given, [api_get] requests the URL followed by
    one separator ([&] if the URL already has a query, [?] otherwise)
    and [mailto=] with a value made of unreserved characters, [/] and
    percent escapes only, so free of [&], [=], [?], [#] and spaces; with
    no or an empty [mailto] the URL is requested as it is. *)
Theorem with_mailto_adds_one_parameter (url m : string) :
  m <> "" ->
  (exists v,
     with_mailto url (Some m)
     = url +:+ (if Py.contains "?" url then "&" else "?")
           +:+ "mailto=" +:+ v
     /\ v = Py.quote m
     /\ Py.all_chars url_char v = true
     /\ Py.contains "&" v = false /\ Py.contains "=" v = false
     /\ Py.contains "?" v = false /\ Py.contains "#" v = false
     /\ Py.contains " " v = false)
  /\ with_mailto url (Some "") = url
  /\ with_mailto url None = url.
Proof.
  intros Hm. split; [|split; reflexivity].
  exists (Py.quote m). unfold with_mailto.
  rewrite (proj2 (is_empty_false m) Hm).
  pose proof (quote_chars m) as Hq.
  split; [reflexivity|]. split; [reflexivity|]. split; [exact Hq|].
  repeat split; apply (all_chars_absent url_char _ _ Hq); reflexivity.
Qed.

Lemma with_mailto_adds_one_parameter_witness :
  with_mailto "https://api.openalex.org/works?per-page=200" (Some "a b@c.org")
  = "https://api.openalex.org/works?per-page=200&mailto=a%20b%40c.org".
Proof.
  destruct (proj1 (with_mailto_adds_one_parameter
                     "https://api.openalex.org/works?per-page=200"
                     "a b@c.org" ltac:(discriminate)))
    as (v & Hv & -> & _).
  rewrite Hv. vm_compute. reflexivity.
Defined.

(** ** Month keys in calendar order *)

Lemma ascend_step (text : Z -> string) (len : nat) (n : nat) :
  forall i j : Z,
    ascend text len n i = true -> i <= j < i + Z.of_nat n ->
    String.le (text j) (text (j + 1)) /\ text j <> text (j + 1).
Proof.
  induction n as [|n IH]; intros i j H Hj; [lia|].
  cbn [ascend] in H.
  apply andb_true_iff in H as [H H3]. apply andb_true_iff in H as [H H2].
  apply andb_true_iff in H as [_ H1].
  destruct (Z.eq_dec j i) as [->|Hne].
  - split; [unfold String.le; rewrite H1; exact I|].
    apply negb_true_iff in H2. apply String.eqb_neq. exact H2.
  - apply (IH (i + 1) j H3). lia.
Qed.

Lemma ascend_length (text : Z -> string) (len : nat) (n : nat) :
  forall i j : Z,
    ascend text len n i = true -> i <= j <= i + Z.of_nat n ->
    String.length (text j) = len.
Proof.
  induction n as [|n IH]; intros i j H Hj; cbn [ascend] in H.
  - replace j with i by lia. apply Nat.eqb_eq. exact H.
  - apply andb_true_iff in H as [H H3]. apply andb_true_iff in H as [H _].
    apply andb_true_iff in H as [H0 _].
    destruct (Z.eq_dec j i) as [->|Hne]; [apply Nat.eqb_eq; exact H0|].
    apply (IH (i + 1) j H3). lia.
Qed.

Lemma ascend_mono (text : Z -> string) (len : nat) (n : nat) (i0 : Z) :
  ascend text len n i0 = true ->
  forall (d : nat) (i : Z),
    i0 <= i -> i + Z.of_nat d <= i0 + Z.of_nat n ->
    String.le (text i) (text (i + Z.of_nat d)).
Proof.
  intros H. induction d as [|d IH]; intros i Hi Hd.
  - rewrite Z.add_0_r. reflexivity.
  - etransitivity; [apply (IH i Hi); lia|].
    replace (i + Z.of_nat (S d)) with (i + Z.of_nat d + 1) by lia.
    apply (ascend_step text len n i0 _ H). lia.
Qed.

(** On a range checked by [ascend], a smaller number has a smaller
    text. *)
Lemma ascend_lt (text : Z -> string) (len : nat) (n : nat) (i0 i j : Z) :
  ascend text len n i0 = true ->
  i0 <= i -> i < j -> j <= i0 + Z.of_nat n ->
  String.compare (text i) (text j) = Lt.
Proof.
  intros H Hi Hij Hj.
  assert (Hle : String.le (text i) (text j)).
  { replace j with (i + Z.of_nat (Z.to_nat (j - i))) by lia.
    apply (ascend_mono text len n i0 H); lia. }
  assert (Hne : text i <> text j).
  { intros Heq.
    destruct (ascend_step text len n i0 i H ltac:(lia)) as [H1 H2].
    apply H2. apply (anti_symm String.le); [exact H1|].
    rewrite Heq.
    replace j with (i + 1 + Z.of_nat (Z.to_nat (j - i - 1))) by lia.
    apply (ascend_mono text len n i0 H); lia. }
  unfold String.le, String.leb in Hle.
  destruct (String.compare (text i) (text j)) eqn:E;
    [|reflexivity|contradiction].
  apply String.compare_eq_iff in E. contradiction.
Qed.

Lemma compare_refl (s : string) : String.compare s s = Eq.
Proof.
  induction s as [|c s IH]; [reflexivity|].
  cbn [String.compare]. unfold Ascii.compare. rewrite N.compare_refl.
  exact IH.
Qed.

(** Strings that begin with parts of equal length compare by these
    parts first. *)
Lemma compare_app (a a' s s' : string) :
  String.length a = String.length a' ->
  String.compare (a +:+ s) (a' +:+ s')
  = match String.compare a a' with
    | Eq => String.compare s s'
    | r => r
    end.
Proof.
  revert a'. induction a as [|c a IH]; intros [|c' a'] Hlen;
    try discriminate Hlen.
  - rewrite !append_empty. reflexivity.
  - rewrite !append_String. cbn [String.compare].
    destruct (Ascii.compare c c'); [|reflexivity|reflexivity].
    apply IH. injection Hlen as Hlen. exact Hlen.
Qed.

Lemma years_ascend : ascend (Py.format_0d 4) 4 (Z.to_nat 9999) 0 = true.
Proof. vm_compute. reflexivity. Qed.

Lemma months_ascend : ascend (Py.format_0d 2) 2 11 1 = true.
Proof. vm_compute. reflexivity. Qed.

Lemma year_month_key_compare (y m y' m' : Z) :
  0 <= y <= 9999 -> 0 <= y' <= 9999 ->
  String.compare (year_month_key y m) (year_month_key y' m')
  = match String.compare (Py.format_0d 4 y) (Py.format_0d 4 y') with
    | Eq => String.compare (Py.format_0d 2 m) (Py.format_0d 2 m')
    | r => r
    end.
Proof.
  intros Hy Hy'. unfold year_month_key. rewrite compare_app.
  - destruct (String.compare (Py.format_0d 4 y) (Py.format_0d 4 y'));
      reflexivity.
  - rewrite (ascend_length _ _ _ 0 y years_ascend) by lia.
    rewrite (ascend_length _ _ _ 0 y' years_ascend) by lia. reflexivity.
Qed.

Lemma compare_gt (text : Z -> string) (len : nat) (n : nat) (i0 i j : Z) :
  ascend text len n i0 = true ->
  i0 <= j -> j < i -> i <= i0 + Z.of_nat n ->
  String.compare (text i) (text j) = Gt.
Proof.
  intros H Hj Hji Hi. rewrite String.compare_antisym.
  rewrite (ascend_lt text len n i0 j i H) by lia. reflexivity.
Qed.

(** X22. Sorting month keys as strings is sorting the months by date,
    as long as years have at most four digits: for years 0..9999 and
    months 1..12 the key of one month is at most the key of another
    exactly when the month is not later, and different months have
    different keys. A five-digit year breaks this: its key sorts before
    the key of the year 9999. *)
Theorem month_keys_sort_by_date (y m y' m' : Z) :
  0 <= y <= 9999 -> 1 <= m <= 12 ->
  0 <= y' <= 9999 -> 1 <= m' <= 12 ->
  (String.le (year_month_key y m) (year_month_key y' m')
   <-> y < y' \/ (y = y' /\ m <= m'))
  /\ (year_month_key y m = year_month_key y' m' -> y = y' /\ m = m')
  /\ String.le (year_month_key 10000 1) (year_month_key 9999 12).
Proof.
  intros Hy Hm Hy' Hm'.
  assert (Hc : String.compare (year_month_key y m) (year_month_key y' m')
               = if y <? y' then Lt
                 else if y' <? y then Gt
                 else if m <? m' then Lt
                 else if m' <? m then Gt else Eq).
  { rewrite year_month_key_compare by lia.
    destruct (Z.ltb_spec y y') as [H|H].
    - rewrite (ascend_lt _ _ _ 0 y y' years_ascend) by lia. reflexivity.
    - destruct (Z.ltb_spec y' y) as [H'|H'].
      + rewrite (compare_gt _ _ _ 0 y y' years_ascend) by lia. reflexivity.
      + replace y' with y by lia. rewrite compare_refl.
        destruct (Z.ltb_spec m m') as [G|G].
        * apply (ascend_lt _ _ _ 1 m m' months_ascend); lia.
        * destruct (Z.ltb_spec m' m) as [G'|G'].
          -- apply (compare_gt _ _ _ 1 m m' months_ascend); lia.
          -- replace m' with m by lia. apply compare_refl. }
  split; [|split].
  - unfold String.le, String.leb. rewrite Hc.
    destruct (Z.ltb_spec y y'); [cbn; split; [lia|exact (fun _ => I)]|].
    destruct (Z.ltb_spec y' y); [cbn; split; [contradiction|lia]|].
    destruct (Z.ltb_spec m m'); [cbn; split; [lia|exact (fun _ => I)]|].
    destruct (Z.ltb_spec m' m); [cbn; split; [contradiction|lia]|].
    cbn. split; [lia|exact (fun _ => I)].
  - intros Hk. rewrite Hk, compare_refl in Hc.
    destruct (Z.ltb_spec y y'); [discriminate Hc|].
    destruct (Z.ltb_spec y' y); [discriminate Hc|].
    destruct (Z.ltb_spec m m'); [discriminate Hc|].
    destruct (Z.ltb_spec m' m); [discriminate Hc|]. lia.
  - vm_compute. exact I.
Qed.

Lemma month_keys_sort_by_date_witness :
  String.le (year_month_key 2020 12) (year_month_key 2021 3).
Proof.
  apply (proj1 (month_keys_sort_by_date 2020 12 2021 3
                  ltac:(lia) ltac:(lia) ltac:(lia) ltac:(lia))).
  left. lia.
Defined.

(** ** The yearly wide table *)

Lemma insert_by_Permutation (key : string -> Z) (x : string)
    (l : list string) :
  insert_by key x l ≡ₚ x :: l.
Proof.
  induction l as [|y l IH]; [reflexivity|].
  cbn [insert_by]. destruct (key x <? key y); [reflexivity|].
  rewrite IH. apply Permutation_swap.
Qed.

Lemma fold_insert_Permutation (key : string -> Z) (xs : list string) :
  forall acc : list string,
    fold_left (fun acc x => insert_by key x acc) xs acc ≡ₚ acc ++ xs.
Proof.
  induction xs as [|x xs IH]; intros acc; cbn [fold_left].
  - rewrite app_nil_r. reflexivity.
  - rewrite IH, insert_by_Permutation. apply Permutation_middle.
Qed.

Lemma sorted_by_Permutation (key : string -> Z) (xs : list string) :
  sorted_by key xs ≡ₚ xs.
Proof. unfold sorted_by. apply (fold_insert_Permutation key xs []). Qed.

Lemma insert_by_sorted (key : string -> Z) (x : string) (l : list string) :
  StronglySorted (fun a b => key a <= key b) l ->
  StronglySorted (fun a b => key a <= key b) (insert_by key x l).
Proof.
  induction 1 as [|y l Hl IH Hy]; cbn [insert_by].
  - repeat constructor.
  - destruct (Z.ltb_spec (key x) (key y)) as [Hlt|Hge].
    + constructor; [constructor; assumption|].
      constructor; [lia|].
      eapply Forall_impl; [exact Hy|]. cbn. intros z Hz. lia.
    + constructor; [exact IH|].
      rewrite insert_by_Permutation. constructor; [exact Hge|exact Hy].
Qed.

Lemma sorted_by_sorted (key : string -> Z) (xs : list string) :
  StronglySorted (fun a b => key a <= key b) (sorted_by key xs).
Proof.
  unfold sorted_by.
  assert (H : forall acc,
             StronglySorted (fun a b => key a <= key b) acc ->
             StronglySorted (fun a b => key a <= key b)
               (fold_left (fun acc x => insert_by key x acc) xs acc)).
  { induction xs as [|x xs IH]; intros acc Hacc; [exact Hacc|].
    cbn [fold_left]. apply IH, insert_by_sorted, Hacc. }
  apply H. constructor.
Qed.

Lemma sorted_strictly (key : string -> Z) (l : list string) :
  (forall x y, x ∈ l -> y ∈ l -> key x = key y -> x = y) ->
  NoDup l ->
  StronglySorted (fun a b => key a <= key b) l ->
  StronglySorted (fun a b => key a < key b) l.
Proof.
  intros Hinj Hnd Hs. induction Hs as [|x l Hl IH Hx]; [constructor|].
  apply NoDup_cons in Hnd as [Hxl Hnd].
  constructor.
  - apply IH; [|exact Hnd]. intros a b Ha Hb. apply Hinj; right; assumption.
  - rewrite Forall_forall in Hx |- *. intros y Hy.
    pose proof (Hx y Hy) as Hle.
    destruct (Z.eq_dec (key x) (key y)) as [He|Hne]; [|lia].
    exfalso. apply Hxl.
    rewrite (Hinj x y ltac:(left) ltac:(right; exact Hy) He). exact Hy.
Qed.

(** X23. The columns of the yearly table. When every year seen converts
    with [int()] and no two of them denote the same number, the table is
    built, its year columns are the years seen, each once, in strictly
    ascending order of their value, whatever the order in which the
    interpreter iterates the set; and the table has two rows for every
    source with a yearly bucket. *)
Theorem yearly_df_columns (a : accumulators) (order : list string) :
  order ≡ₚ elements (years_seen a) ->
  (forall y, y ∈ years_seen a -> is_ok (Py.int y) = true) ->
  (forall x y, x ∈ years_seen a -> y ∈ years_seen a ->
     year_value x = year_value y -> x = y) ->
  exists years : list string,
    yearly_df a order
    = Ok (mk_table (key_columns ++ years) (yearly_rows a years))
    /\ years ≡ₚ elements (years_seen a)
    /\ StronglySorted (fun x y => year_value x < year_value y) years
    /\ (forall order', order' ≡ₚ elements (years_seen a) ->
          yearly_df a order' = yearly_df a order)
    /\ length (yearly_rows a years) = (2 * length (yearly_data a))%nat.
Proof.
  intros Hperm Hok Hinj.
  assert (Hrun : forall o, o ≡ₚ elements (years_seen a) ->
            years_sorted o = Ok (sorted_by year_value o)).
  { intros o Ho. unfold years_sorted. destruct o as [|x o]; [reflexivity|].
    assert (H : is_ok (mapM Py.int (x :: o)) = true).
    { apply mapM_int_ok. intros y Hy. apply Hok.
      apply elem_of_elements. rewrite <- Ho. exact Hy. }
    destruct (mapM Py.int (x :: o)); [reflexivity|discriminate H]. }
  assert (Hin : forall o, o ≡ₚ elements (years_seen a) ->
            forall x, x ∈ sorted_by year_value o -> x ∈ years_seen a).
  { intros o Ho x Hx. rewrite sorted_by_Permutation, Ho in Hx.
    apply elem_of_elements. exact Hx. }
  exists (sorted_by year_value order).
  split; [unfold yearly_df; rewrite (Hrun order Hperm); reflexivity|].
  split; [rewrite sorted_by_Permutation; exact Hperm|].
  split.
  { apply sorted_strictly.
    - intros x y Hx Hy. apply Hinj; apply (Hin order Hperm); assumption.
    - rewrite sorted_by_Permutation, Hperm. apply NoDup_elements.
    - apply sorted_by_sorted. }
  split.
  { intros order' Hperm'. unfold yearly_df.
    rewrite (Hrun order Hperm), (Hrun order' Hperm').
    replace (sorted_by year_value order')
      with (sorted_by year_value order); [reflexivity|].
    apply (StronglySorted_unique_strong
             (fun x y => year_value x <= year_value y)).
    - intros x y Hx Hy H1 H2.
      apply Hinj; [apply (Hin order Hperm x Hx)
                  |apply (Hin order' Hperm' y Hy)|lia].
    - apply sorted_by_sorted.
    - apply sorted_by_sorted.
    - rewrite !sorted_by_Permutation, Hperm, Hperm'. reflexivity. }
  unfold yearly_rows. induction (yearly_data a) as [|e l IH];
    [reflexivity|].
  cbn [flat_map app length]. rewrite IH. lia.
Qed.

Lemma yearly_df_columns_witness :
  exists years : list string,
    yearly_df (yearly_update "S1" (src_counts_by_year sample_source)
                 empty_acc)
      ["2021"; "2020"]
    = Ok (mk_table (key_columns ++ years)
            (yearly_rows
               (yearly_update "S1" (src_counts_by_year sample_source)
                  empty_acc) years))
    /\ StronglySorted (fun x y => year_value x < year_value y) years.
Proof.
  assert (He : elements
                 (years_seen
                    (yearly_update "S1" (src_counts_by_year sample_source)
                       empty_acc))
               ≡ₚ ["2021"; "2020"]).
  { apply NoDup_Permutation.
    - apply NoDup_elements.
    - apply (bool_decide_unpack _). vm_compute. exact I.
    - intros x. rewrite elem_of_elements.
      rewrite yearly_update_years_seen. cbn. split.
      + intros [H|(row & Hrow & Hd & ->)]; [set_solver|].
        destruct Hrow as [<-|[<-|[<-|[]]]]; try discriminate Hd.
        * right. left.
        * left.
      + intros H. right. apply elem_of_cons in H as [->|H].
        * exists (mk_count_row (YearInt 2021) (Some 12) None).
          split; [right; left; reflexivity|]. split; reflexivity.
        * apply list_elem_of_singleton in H. subst x.
          exists (mk_count_row (YearInt 2020) (Some 10) (Some 4)).
          split; [left; reflexivity|]. split; reflexivity. }
  assert (Hm : forall y,
            y ∈ years_seen
                  (yearly_update "S1" (src_counts_by_year sample_source)
                     empty_acc) -> y = "2021" \/ y = "2020").
  { intros y Hy. apply elem_of_elements in Hy. rewrite He in Hy.
    apply elem_of_cons in Hy as [->|Hy]; [left; reflexivity|].
    apply list_elem_of_singleton in Hy. right. exact Hy. }
  destruct (yearly_df_columns
              (yearly_update "S1" (src_counts_by_year sample_source)
                 empty_acc)
              ["2021"; "2020"]) as (years & H1 & _ & H3 & _).
  - symmetry. exact He.
  - intros y Hy. destruct (Hm y Hy) as [->| ->]; reflexivity.
  - intros x y Hx Hy.
    destruct (Hm x Hx) as [->| ->]; destruct (Hm y Hy) as [->| ->];
      (reflexivity || (vm_compute; discriminate)).
  - exists years. split; assumption.
Defined.

(** Two year strings for the same number come out in the order in which
    the set happens to be iterated. *)
Example years_sorted_ties :
  years_sorted ["2020"; "02020"] = Ok ["2020"; "02020"]
  /\ years_sorted ["02020"; "2020"] = Ok ["02020"; "2020"].
Proof. vm_compute. split; reflexivity. Qed.

(** ** Topic columns *)

Section TopicFacts.

Variable float : Type.
Variable str_float : float -> string.
Variable float_nonzero : float -> bool.
Variable py_repr : json float -> string.

Local Abbreviation truthy_of := (truthy_value float float_nonzero).
Local Abbreviation str_of := (py_str float str_float py_repr).
Local Abbreviation name_of := (nested_name float float_nonzero).
Local Abbreviation step_of :=
  (topic_step float str_float float_nonzero py_repr).
Local Abbreviation loop_of :=
  (topics_loop float str_float float_nonzero py_repr).
Local Abbreviation columns_of :=
  (build_topics_columns float str_float float_nonzero py_repr).
Local Abbreviation plain := (plain_name float float_nonzero).
Local Abbreviation shaped_of := (shaped float float_nonzero).
Local Abbreviation shown_of := (shown float str_float py_repr).
Local Abbreviation bad := (bad_nested float float_nonzero).
Local Abbreviation strs := (fun l : list string => @JStr float <$> l).

Lemma append_plain (lst : list (json float)) (v : json float) :
  plain v = true ->
  append_if_truthy float float_nonzero lst v
  = lst ++ strs (option_list (name_text float v)).
Proof.
  unfold append_if_truthy. destruct v as [|b|z|f|s|l0|kvs0]; cbn;
    try (intros H; apply negb_true_iff in H; cbn in H; rewrite H;
         rewrite app_nil_r; reflexivity).
  - intros _. rewrite app_nil_r. reflexivity.
  - intros _. destruct (Py.is_empty s); cbn; [rewrite app_nil_r|];
      reflexivity.
Qed.

Lemma nested_name_plain (k : string) (kvs : list (string * json float)) :
  plain_nested float float_nonzero (dict_get float k kvs) = true ->
  exists v,
    name_of k kvs = Fine v /\ plain v = true
    /\ name_text float v = nested_text float k (JObj kvs).
Proof.
  unfold nested_name, nested_text.
  destruct (dict_get float k kvs) as [x|]; cbn [plain_nested].
  - destruct x as [|b|z|f|s|l0|kvs']; intros H;
      try (apply negb_true_iff in H; rewrite H;
           exists (JStr ""); repeat split; reflexivity).
    destruct kvs' as [|kv kvs']; cbn [truthy_value].
    + exists (JStr ""). repeat split; reflexivity.
    + eexists. split; [reflexivity|]. split; [exact H|reflexivity].
  - intros _. exists (JStr ""). repeat split; reflexivity.
Qed.

Lemma topic_step_shaped (t : json float) (d sf dm : list string) :
  shaped_of t = true ->
  step_of (mk_lists float (strs d) (strs sf) (strs dm)) t
  = Fine (mk_lists float
            (strs (d ++ option_list (shown_of t)))
            (strs (sf ++ option_list (nested_text float "subfield" t)))
            (strs (dm ++ option_list (nested_text float "domain" t)))).
Proof.
  destruct t as [|b|z|f|s|l0|kvs];
    try (intros _; cbn; rewrite !app_nil_r; reflexivity).
  cbn [shaped]. intros H.
  apply andb_true_iff in H as [H Hdom]. apply andb_true_iff in H as [Hn Hsub].
  destruct (nested_name_plain "subfield" kvs Hsub) as (vs & Es & Ps & Ts).
  destruct (nested_name_plain "domain" kvs Hdom) as (vd & Ed & Pd & Td).
  cbn [topic_step disp_list sub_list dom_list]. rewrite Es, Ed.
  rewrite !append_plain by assumption. rewrite Ts, Td.
  rewrite !fmap_app. do 2 f_equal.
  cbn [shown]. f_equal.
  destruct (get_or_empty float "display_name" kvs) as [|b|z|f|s|l0|kvs0];
    cbn in Hn |- *;
    try (rewrite app_nil_r; reflexivity);
    try (apply negb_true_iff in Hn; cbn in Hn; rewrite Hn, app_nil_r;
         reflexivity).
  destruct (Py.is_empty s); cbn; [rewrite app_nil_r; reflexivity|].
  destruct (not_empty_str float (get_or_empty float "count" kvs));
    reflexivity.
Qed.

Lemma topics_loop_shaped (l : list (json float)) :
  Forall (fun t => shaped_of t = true) l ->
  forall d sf dm : list string,
    loop_of l (mk_lists float (strs d) (strs sf) (strs dm))
    = Fine (mk_lists float
              (strs (d ++ omap shown_of l))
              (strs (sf ++ omap (nested_text float "subfield") l))
              (strs (dm ++ omap (nested_text float "domain") l))).
Proof.
  induction 1 as [|t l Ht _ IH]; intros d sf dm; cbn [topics_loop omap].
  - rewrite !app_nil_r. reflexivity.
  - rewrite (topic_step_shaped t d sf dm Ht), IH.
    cbn [omap list_omap].
    destruct (shown_of t), (nested_text float "subfield" t),
      (nested_text float "domain" t); cbn [option_list];
      rewrite <- ?app_assoc, ?app_nil_r; reflexivity.
Qed.

Lemma join_items_strs (l : list string) :
  join_items float (strs l) = Fine (Py.join "; " l).
Proof.
  unfold join_items.
  assert (H : strings_of float (strs l) = Some l).
  { induction l as [|x l IH]; [reflexivity|].
    cbn [fmap list_fmap strings_of]. cbn in IH. rewrite IH. reflexivity. }
  rewrite H. reflexivity.
Qed.

(** X24. For topics of the shape the API documents (every topic object
    has a string or falsy [display_name], and its [subfield] and
    [domain] are missing, falsy, or objects with such a name)
    [build_topics_columns] raises nothing and returns the three columns
    of the docstring: the named topics as [name (count)], or just the
    name when the count is missing or the empty string; the subfield
    names; the domain names; each joined with ["; "], in the order of the
    list. List entries that are no objects contribute nothing. *)
Theorem build_topics_columns_shaped (l : list (json float)) :
  Forall (fun t => shaped_of t = true) l ->
  columns_of (JList l)
  = Fine (Py.join "; " (omap shown_of l),
          Py.join "; " (omap (nested_text float "subfield") l),
          Py.join "; " (omap (nested_text float "domain") l)).
Proof.
  intros Hl. cbn [build_topics_columns].
  pose proof (topics_loop_shaped l Hl [] [] []) as H.
  change (loop_of l (mk_lists float [] [] [])
          = Fine (mk_lists float
                    (strs (omap shown_of l))
                    (strs (omap (nested_text float "subfield") l))
                    (strs (omap (nested_text float "domain") l)))) in H.
  rewrite H. cbn [disp_list sub_list dom_list].
  rewrite !join_items_strs. reflexivity.
Qed.

Lemma nested_name_no_get (k : string) (kvs : list (string * json float)) :
  if no_get float float_nonzero (dict_get float k kvs)
  then name_of k kvs = Wrong AttributeError
  else exists v, name_of k kvs = Fine v.
Proof.
  unfold nested_name, no_get.
  destruct (dict_get float k kvs) as [x|]; [|eauto].
  destruct x; cbn [truthy_value];
    try match goal with
        | |- context [if ?b then _ else _] => destruct b
        end; eauto.
Qed.

Lemma topic_step_bad (st : topic_lists float) (t : json float) :
  if bad t then step_of st t = Wrong AttributeError
  else exists st', step_of st t = Fine st'.
Proof.
  destruct t as [|b|z|f|s|l0|kvs]; cbn [bad_nested]; eauto.
  cbn [topic_step].
  pose proof (nested_name_no_get "subfield" kvs) as Hs.
  pose proof (nested_name_no_get "domain" kvs) as Hd.
  destruct (no_get float float_nonzero (dict_get float "subfield" kvs)).
  - rewrite Hs. reflexivity.
  - destruct Hs as [vs ->]. cbn [orb].
    destruct (no_get float float_nonzero (dict_get float "domain" kvs)).
    + rewrite Hd. reflexivity.
    + destruct Hd as [vd ->]. eauto.
Qed.

Lemma topics_loop_bad (l : list (json float)) :
  forall st : topic_lists float,
    if existsb bad l then loop_of l st = Wrong AttributeError
    else exists st', loop_of l st = Fine st'.
Proof.
  induction l as [|t l IH]; intros st; cbn [existsb topics_loop]; [eauto|].
  pose proof (topic_step_bad st t) as Ht.
  destruct (bad t); cbn [orb].
  - rewrite Ht. reflexivity.
  - destruct Ht as [st' ->]. apply IH.
Qed.

Lemma topics_loop_skips (l : list (json float)) :
  forall st : topic_lists float,
    loop_of (List.filter is_dict l) st = loop_of l st.
Proof.
  induction l as [|t l IH]; intros st; [reflexivity|].
  cbn [List.filter]. destruct t; cbn [is_dict topics_loop topic_step];
    try apply IH.
  destruct (nested_name _ _ _ _) as [vs|e]; [|reflexivity].
  destruct (nested_name _ _ _ _) as [vd|e]; [|reflexivity].
  apply IH.
Qed.

Lemma join_items_wrong (items : list (json float)) (e : topics_exn) :
  join_items float items = Wrong e -> e = TypeError.
Proof.
  unfold join_items. destruct (strings_of float items); congruence.
Qed.

(** X25. What [build_topics_columns] does with malformed input. A value
    that is no list gives three empty columns. Entries of the list that
    are no objects are skipped. [AttributeError] is raised exactly when
    some topic object has a [subfield] or [domain] that is truthy and no
    object; any other exception is a [TypeError] of the final joins. *)
Theorem build_topics_columns_malformed :
  (forall topics : json float,
     (forall l, topics <> JList l) ->
     columns_of topics = Fine ("", "", ""))
  /\ (forall l : list (json float),
        columns_of (JList (List.filter is_dict l)) = columns_of (JList l))
  /\ (forall l : list (json float),
        columns_of (JList l) = Wrong AttributeError
        <-> exists t, In t l /\ bad t = true).
Proof.
  split; [|split].
  - intros topics Hl. destruct topics; try reflexivity.
    exfalso. apply (Hl l). reflexivity.
  - intros l. cbn [build_topics_columns]. rewrite topics_loop_skips.
    reflexivity.
  - intros l. rewrite <- List.existsb_exists. cbn [build_topics_columns].
    pose proof (topics_loop_bad l (mk_lists float [] [] [])) as H.
    destruct (existsb bad l).
    + rewrite H. split; reflexivity.
    + destruct H as [st ->]. split; [|discriminate].
      destruct (join_items float (disp_list float st)) as [d|e] eqn:E1;
        [|apply join_items_wrong in E1; subst e; discriminate].
      destruct (join_items float (sub_list float st)) as [sf|e] eqn:E2;
        [|apply join_items_wrong in E2; subst e; discriminate].
      destruct (join_items float (dom_list float st)) as [dm|e] eqn:E3;
        [|apply join_items_wrong in E3; subst e; discriminate].
      discriminate.
Qed.

End TopicFacts.

Lemma build_topics_columns_shaped_witness :
  build_topics_columns no_float str_no_float (fun _ => true) (fun _ => "")
    (JList sample_topics)
  = Fine ("Virology (12); Genetics", "Immunology", "Life Sciences").
Proof.
  rewrite (build_topics_columns_shaped no_float str_no_float
             (fun _ => true) (fun _ => "") sample_topics
             ltac:(repeat constructor)).
  vm_compute. reflexivity.
Defined.

(** ** The query of a works request *)

Lemma append_assoc (a b c : string) : (a +:+ b) +:+ c = a +:+ (b +:+ c).
Proof.
  induction a as [|x a IH]; [rewrite !append_empty; reflexivity|].
  rewrite !append_String, IH. reflexivity.
Qed.

Lemma contains_app (c : ascii) (a b : string) :
  Py.contains c (a +:+ b) = Py.contains c a || Py.contains c b.
Proof.
  induction a as [|x a IH]; [rewrite append_empty; reflexivity|].
  rewrite append_String. cbn [Py.contains]. rewrite IH. apply orb_assoc.
Qed.

Lemma quote_no_star (s : string) : Py.contains "*" (Py.quote s) = false.
Proof. apply (all_chars_absent url_char); [apply quote_chars|reflexivity]. Qed.

Lemma prefix_head_differs (a c : ascii) (old' s : string) :
  a <> c -> String.prefix (String a old') (String c s) = false.
Proof.
  intros Hne. cbn [String.prefix].
  destruct (ascii_dec a c); [contradiction|reflexivity].
Qed.

(** Text in front of the first character of [old] is copied. *)
Lemma replace_after_head (c0 : ascii) (old' new pre s : string) :
  Py.contains c0 pre = false ->
  Py.replace (String c0 old') new (pre +:+ s)
  = pre +:+ Py.replace (String c0 old') new s.
Proof.
  unfold Py.replace. cbn [Py.is_empty].
  induction pre as [|d pre IH]; intros H;
    [rewrite !append_empty; reflexivity|].
  cbn [Py.contains] in H. apply orb_false_iff in H as [Hd Hpre].
  rewrite !append_String. cbn [Py.replace_go].
  rewrite prefix_head_differs
    by (intros ->; rewrite Ascii.eqb_refl in Hd; discriminate Hd).
  rewrite (IH Hpre). reflexivity.
Qed.

Lemma works_base_url_tail (sid : string) (date_from date_to : option string)
    (select_fields : string) (use_primary_location use_host_venue : bool) :
  works_base_url sid date_from date_to select_fields
    use_primary_location use_host_venue
  = (OPENALEX_BASE +:+ "/works?per-page=200&cursor=*")
    +:+ query_tail sid date_from date_to select_fields
          use_primary_location use_host_venue.
Proof.
  unfold works_base_url, query_tail. cbv zeta.
  destruct (Py.is_empty (Py.join "," _)), (Py.is_empty select_fields);
    rewrite ?append_empty, ?append_empty_r, ?append_assoc; reflexivity.
Qed.

Lemma query_tail_no_star (sid : string) (date_from date_to : option string)
    (select_fields : string) (use_primary_location use_host_venue : bool) :
  Py.contains "*"
    (query_tail sid date_from date_to select_fields
       use_primary_location use_host_venue) = false.
Proof.
  unfold query_tail. cbv zeta. rewrite contains_app.
  destruct (Py.is_empty (Py.join "," _)), (Py.is_empty select_fields);
    rewrite ?contains_app, ?quote_no_star; reflexivity.
Qed.

(** X26. The cursor is spliced into the URL of a works request exactly
    once. The URL is the fixed head ending in [cursor=*] followed by the
    filter and select parameters, whose values are quoted and therefore
    free of [*]; replacing [cursor=*] puts the quoted cursor in the head
    and leaves the parameters as they are. With both location filters off
    and no dates there is no filter parameter, so the request does not
    name the source at all. *)
Theorem cursor_url_replaces_once
    (sid : string) (date_from date_to : option string)
    (select_fields : string) (use_primary_location use_host_venue : bool)
    (nxt : string) :
  works_base_url sid date_from date_to select_fields
    use_primary_location use_host_venue
  = "https://api.openalex.org/works?per-page=200&cursor=*"
    +:+ query_tail sid date_from date_to select_fields
          use_primary_location use_host_venue
  /\ cursor_url
       (works_base_url sid date_from date_to select_fields
          use_primary_location use_host_venue) nxt
     = "https://api.openalex.org/works?per-page=200&cursor="
       +:+ Py.quote nxt
       +:+ query_tail sid date_from date_to select_fields
             use_primary_location use_host_venue
  /\ (forall sid' : string,
        works_base_url sid None None select_fields false false
        = works_base_url sid' None None select_fields false false).
Proof.
  split; [apply works_base_url_tail|]. split; [|reflexivity].
  rewrite works_base_url_tail. unfold cursor_url.
  pose proof (query_tail_no_star sid date_from date_to select_fields
                use_primary_location use_host_venue) as Hstar.
  generalize dependent (query_tail sid date_from date_to select_fields
                          use_primary_location use_host_venue).
  intros tail Hstar.
  change (OPENALEX_BASE +:+ "/works?per-page=200&cursor=*")
    with ("https://api.openalex.org/works?per-page=200&" +:+ "cursor=*").
  change ("https://api.openalex.org/works?per-page=200&cursor=")
    with ("https://api.openalex.org/works?per-page=200&" +:+ "cursor=").
  rewrite !append_assoc.
  rewrite replace_after_head by reflexivity. f_equal.
  rewrite replace_leading, append_assoc. do 2 f_equal.
  unfold Py.replace. cbn [Py.is_empty].
  apply (replace_go_absent "*"); [reflexivity|exact Hstar].
Qed.

(** ** Month keys read back *)

Lemma reads_back_at (width : nat) (n : nat) :
  forall i j : Z,
    reads_back width n i = true -> i <= j <= i + Z.of_nat n ->
    all_decimal (Py.format_0d width j) = true
    /\ decimal_value (Py.format_0d width j) = j.
Proof.
  induction n as [|n IH]; intros i j H Hj; cbn [reads_back] in H;
    apply andb_true_iff in H as [H H3]; apply andb_true_iff in H as [H1 H2];
    apply Z.eqb_eq in H2.
  - replace j with i by lia. split; assumption.
  - destruct (Z.eq_dec j i) as [->|Hne]; [split; assumption|].
    apply (IH (i + 1) j H3). lia.
Qed.

Lemma years_read_back : reads_back 4 (Z.to_nat 9999) 0 = true.
Proof. vm_compute. reflexivity. Qed.

Lemma months_read_back : reads_back 2 11 1 = true.
Proof. vm_compute. reflexivity. Qed.

(** X27. A month key is a fixed point of [iso_to_year_month]: for a year
    0..9999 and a month 1..12, normalising the key [YYYY-MM] gives the
    same key, whether the date parser rejects the key (a date of reduced
    precision) and the fallback reads its two parts, or accepts it with
    that year and month. *)
Theorem iso_to_year_month_fixes_keys
    (parser : string -> option datetime) (y m : Z) :
  0 <= y <= 9999 -> 1 <= m <= 12 ->
  match parser (year_month_key y m) with
  | Some dt => dt_year dt = y /\ dt_month dt = m
  | None => True
  end ->
  iso_to_year_month parser (Some (year_month_key y m))
  = Ok (Some (year_month_key y m)).
Proof.
  intros Hy Hm Hp.
  destruct (reads_back_at 4 _ 0 y years_read_back ltac:(lia)) as [Dy Vy].
  destruct (reads_back_at 2 _ 1 m months_read_back ltac:(lia)) as [Dm Vm].
  destruct (parser (year_month_key y m)) as [dt|] eqn:E.
  - destruct Hp as [<- <-]. unfold iso_to_year_month.
    rewrite year_month_key_not_empty, E. reflexivity.
  - unfold year_month_key in E |- *.
    assert (Ly : (String.length (Py.format_0d 4 y) <= Py.max_str_digits)%nat).
    { rewrite (ascend_length _ _ _ 0 y years_ascend) by lia.
      apply Nat.leb_le. reflexivity. }
    assert (Lm : (String.length (Py.format_0d 2 m) <= Py.max_str_digits)%nat).
    { rewrite (ascend_length _ _ _ 1 m months_ascend) by lia.
      apply Nat.leb_le. reflexivity. }
    rewrite (iso_to_year_month_two_groups parser _ _ Dy Dm Ly Lm E), Vy, Vm.
    reflexivity.
Qed.

Lemma iso_to_year_month_fixes_keys_witness :
  iso_to_year_month IsoDate.fromisoformat (Some (year_month_key 2021 3))
  = Ok (Some (year_month_key 2021 3)).
Proof.
  apply (iso_to_year_month_fixes_keys IsoDate.fromisoformat 2021 3
           ltac:(lia) ltac:(lia)).
  vm_compute. exact I.
Defined.

(** ** A build stops at the first source that fails *)

Section FailFast.

Variable parser : string -> option datetime.
Variables (sleep_s : Q) (mailto date_from date_to : option string).
Variables (use_primary_location use_host_venue : bool).

Local Abbreviation run_source :=
  (process_source parser sleep_s mailto date_from date_to
     use_primary_location use_host_venue false).
Local Abbreviation run_sources :=
  (process_all parser sleep_s mailto date_from date_to
     use_primary_location use_host_venue false).





End FailFast.

